(** * Mix-data validation, persistence and aggregation

    A shallow embedding of the domain logic of the concrete-mix recorder:
    - [src/lib/validation.ts]: the Zod schema [mixDataSchema];
    - the entry and edit forms' [onSubmit] and their product rows;
    - [hooks/useMixData]: the local-storage record store (create, update,
      delete, paged listing);
    - the summary modals' aggregation functions [calculateTotals],
      [calculateColorTotals] and [calculateProductTotals].

    JavaScript numbers are IEEE 754 doubles (primitive floats): [NaN], the
    infinities and the two zeros are values like any other, and [+] rounds.
    A field of static type [number] can also hold [null] once its record
    went through JSON.  Plain objects used as dictionaries keep their own
    properties in the order [Object.values] lists them and inherit from
    [Object.prototype]. *)

From Stdlib Require Import ZArith Floats.
From stdpp Require Import base decidable option numbers list strings gmap fin_maps sorting.

Set Warnings "-inexact-float,-register-all".

Local Open Scope string_scope.
Local Open Scope list_scope.

(** ** Numbers *)

(** What a field of static type [number] holds at run time: a double, or
    [null] where [JSON.stringify] met a number JSON cannot write. *)
Inductive number : Type :=
  | Num (x : float)
  | Null.

#[global] Instance float_eq_dec : EqDecision float.
Proof.
  intros x y. destruct (Leibniz.eqb x y) eqn:E.
  - left. apply Leibniz.eqb_spec, E.
  - right. intros H. apply Leibniz.eqb_spec in H. congruence.
Defined.

#[global] Instance number_eq_dec : EqDecision number.
Proof. solve_decision. Defined.

(** The double an integer literal denotes. *)
Definition float_of_Z (z : Z) : float :=
  if decide (z < 0)%Z then (- of_uint63 (Uint63.of_Z (- z)))%float
  else of_uint63 (Uint63.of_Z z).

Definition int (z : Z) : number := Num (float_of_Z z).

(** [s || d] on strings: only the empty string is falsy. *)
Definition or_string (s d : string) : string :=
  if decide (s = "") then d else s.

(** ** Data model ([src/types/index.ts]) *)

Inductive MixType : Type := interlock | boards_tiir.

#[global] Instance MixType_eq_dec : EqDecision MixType.
Proof. solve_decision. Defined.

(** The string a mix type is written as (it is used as an object key). *)
Definition mixType_string (m : MixType) : string :=
  match m with
  | interlock => "interlock"
  | boards_tiir => "boards/tiir"
  end.

Record Product : Type := mkProduct { type : string; quantity : number }.

(** [MixDataFormInput = z.infer<typeof mixDataSchema>]: the candidate
    record handed to the validator. *)
Module Form.
Record t : Type := mk {
  mixType : MixType;
  cement : number;
  aggregate : number;
  sand : number;
  water : number;
  plastizer : number;
  birta : option number;
  colorType : string;
  colorQuantity : number;
  products : list Product }.
End Form.

(** [FormData]: what the store's mutations receive. *)
Module FormData.
Record t : Type := mk {
  mixType : MixType;
  cement : number;
  aggregate : number;
  sand : number;
  water : number;
  plastizer : number;
  birta : option number;
  colorType : string;
  colorQuantity : number;
  products : option (list Product) }.
End FormData.

(** [MixData] and its nested [measurements] object. *)
Module Measurements.
Record t : Type := mk {
  cement : number;
  aggregate : number;
  sand : number;
  water : number;
  plastizer : number;
  birta : option number;
  colorType : string;
  colorQuantity : number;
  products : option (list Product) }.
End Measurements.

Module MixData.
Record t : Type := mk {
  id : string;
  timestamp : string;
  mixType : MixType;
  measurements : Measurements.t;
  createdBy : string;
  lastModified : string }.
End MixData.

(** ** Zod issues and the schema combinators the schema is built from *)

Inductive PathSeg : Type := Key (k : string) | Index (i : nat).

#[global] Instance PathSeg_eq_dec : EqDecision PathSeg.
Proof. solve_decision. Defined.

Definition Path : Type := list PathSeg.

Inductive IssueCode : Type := invalid_type | too_small | too_big | custom.

(** [message] is the message given in the schema, [None] when the library's
    default text is used. *)
Record ZodIssue : Type := mkIssue {
  code : IssueCode;
  path : Path;
  message : option string }.

(** What parsing a value with a schema gives: the issues it added, and
    whether the value was refused outright ([INVALID], a value of the wrong
    type somewhere inside).  A failed check or refinement only adds its
    issue; a refused value keeps the refinements of the enclosing schemas
    from running. *)
Record ParseReturn : Type := mkParse {
  issues : list ZodIssue;
  aborted : bool }.

Definition OK : ParseReturn := mkParse [] false.
Definition DIRTY (iss : list ZodIssue) : ParseReturn := mkParse iss false.
Definition INVALID (iss : list ZodIssue) : ParseReturn := mkParse iss true.

(** The members of an object or array are all parsed; one refused member
    refuses the whole. *)
Definition merge (a b : ParseReturn) : ParseReturn :=
  mkParse (issues a ++ issues b) (aborted a || aborted b).

(** [.min(lo, msg)] on a number: an issue when [x < lo]. *)
Definition number_min (lo : float) (msg : option string) (p : Path) (x : float)
  : list ZodIssue :=
  if (x <? lo)%float then [mkIssue too_small p msg] else [].

(** [.max(hi, msg)] on a number: an issue when [x > hi]. *)
Definition number_max (hi : float) (msg : option string) (p : Path) (x : float)
  : list ZodIssue :=
  if (hi <? x)%float then [mkIssue too_big p msg] else [].

(** [z.number().min(lo).max(hi)]: anything but a number that is not [NaN]
    is refused with an [invalid_type] issue; on a number the checks run in
    the order written and every failed one adds its issue. *)
Definition number_range (lo hi : float) (mlo mhi : option string) (p : Path)
  (n : number) : ParseReturn :=
  match n with
  | Num x =>
      if is_nan x then INVALID [mkIssue invalid_type p None]
      else DIRTY (number_min lo mlo p x ++ number_max hi mhi p x)
  | Null => INVALID [mkIssue invalid_type p None]
  end.

(** [z.string().min(n, msg)]. *)
Definition string_min (n : nat) (msg : option string) (p : Path) (s : string)
  : ParseReturn :=
  DIRTY (if decide (String.length s < n)%nat then [mkIssue too_small p msg] else []).

(** [.optional()]: [undefined] is accepted as it is. *)
Definition optional {A} (schema : Path → A → ParseReturn) (p : Path)
  (x : option A) : ParseReturn :=
  match x with
  | Some a => schema p a
  | None => OK
  end.

(** [z.array(elem).min(n, msg)]: the length check first, then every element
    under its index. *)
Definition array_min {A} (elem : Path → A → ParseReturn) (n : nat)
  (msg : option string) (p : Path) (l : list A) : ParseReturn :=
  merge (DIRTY (if decide (length l < n)%nat then [mkIssue too_small p msg] else []))
        (foldr merge OK (imap (λ i a, elem (p ++ [Index i]) a) l)).

(** [schema.refine(check, {message, path})]: the check does not run on a
    refused value; a failed check adds one custom issue at [path] and the
    next refinement still runs. *)
Definition refine {A} (schema : A → ParseReturn) (check : A → bool) (msg : string)
  (p : Path) (data : A) : ParseReturn :=
  let inner := schema data in
  if aborted inner then inner
  else if check data then inner
  else DIRTY (issues inner ++ [mkIssue custom p (Some msg)]).

(** [arr.includes(x)]. *)
Definition includes (arr : list string) (x : string) : bool :=
  bool_decide (x ∈ arr).

(** ** [src/lib/validation.ts] *)

Definition colorOptions : list string :=
  ["Red"; "Pure Red"; "White"; "Black"; "Yellow"].

Definition interlockTypes : list string :=
  ["Block Interlock"; "Buuor Interlock"; "Daimond Interlock";
   "Tiiba Talyaani Interlock"; "York Shir Interlock"; "Garden"].

Definition boardsTiirTypes : list string := ["Tiir"; "Boards"].

Definition productSchema (p : Path) (x : Product) : ParseReturn :=
  merge (string_min 1 (Some "Product type is required") (p ++ [Key "type"]) (type x))
        (number_range 0 9999 (Some "Quantity must be positive")
           (Some "Quantity too large") (p ++ [Key "quantity"]) (quantity x)).

(** The [z.object({...})] part: the fields in the order of the shape. The
    [mixType] enum and the unconstrained [colorType] string cannot fail on a
    typed candidate. *)
Definition measurement (k : string) (x : number) : ParseReturn :=
  number_range 0 9999.99 None None [Key k] x.

Definition objectSchema (data : Form.t) : ParseReturn :=
  merge (measurement "cement" (Form.cement data))
  (merge (measurement "aggregate" (Form.aggregate data))
  (merge (measurement "sand" (Form.sand data))
  (merge (measurement "water" (Form.water data))
  (merge (measurement "plastizer" (Form.plastizer data))
  (merge (optional (number_range 0 9999 None None) [Key "birta"] (Form.birta data))
  (merge (measurement "colorQuantity" (Form.colorQuantity data))
         (array_min productSchema 1 (Some "At least one product is required")
            [Key "products"] (Form.products data)))))))).

(** First refinement: birta is required for boards/tiir. *)
Definition check_birta (data : Form.t) : bool :=
  if bool_decide (Form.mixType data = boards_tiir)
     && (bool_decide (Form.birta data = None) || bool_decide (Form.birta data = Some Null))
  then false else true.

(** Second refinement: the colour is empty or one of [colorOptions]. *)
Definition check_colorType (data : Form.t) : bool :=
  bool_decide (Form.colorType data = "") || includes colorOptions (Form.colorType data).

(** Third refinement: product types against the mix type's vocabulary. *)
Definition check_productTypes (data : Form.t) : bool :=
  if bool_decide (0 < length (Form.products data))%nat then
    match Form.mixType data with
    | interlock =>
        forallb (λ product, includes interlockTypes (type product)) (Form.products data)
    | boards_tiir =>
        forallb (λ product, includes boardsTiirTypes (type product)) (Form.products data)
    end
  else true.

(** [types.length === new Set(types).size] for
    [types = products.map(p => p.type).filter(Boolean)]. *)
Definition types_unique (ps : list Product) : bool :=
  let types := filter (λ s, s ≠ "") (type <$> ps) in
  let uniqueTypes : gset string := list_to_set types in
  bool_decide (length types = size uniqueTypes).

(** Fourth and fifth refinements: no type twice, one refinement per mix
    type. *)
Definition check_duplicates (m : MixType) (data : Form.t) : bool :=
  if bool_decide (Form.mixType data = m) && bool_decide (0 < length (Form.products data))%nat
  then types_unique (Form.products data)
  else true.

Definition mixDataSchema : Form.t → ParseReturn :=
  refine
    (refine
       (refine
          (refine
             (refine objectSchema
                check_birta "Birta is required for boards/tiir mix type" [Key "birta"])
             check_colorType "Invalid color type" [Key "colorType"])
          check_productTypes "Invalid product type for selected mix type" [Key "products"])
       (check_duplicates interlock) "Cannot select the same interlock type twice"
       [Key "products"])
    (check_duplicates boards_tiir) "Cannot select the same product type twice"
    [Key "products"].

(** [validate]: the list of issues; the candidate is accepted when it is
    empty. *)
Definition validate (data : Form.t) : list ZodIssue := issues (mixDataSchema data).

Definition accepted (data : Form.t) : Prop := validate data = [].

(** A violation is reported on field path [p]. *)
Definition violation_on (p : Path) (iss : list ZodIssue) : Prop :=
  p ∈ path <$> iss.

#[global] Instance violation_on_dec p iss : Decision (violation_on p iss).
Proof. unfold violation_on. apply _. Defined.

#[global] Instance accepted_dec data : Decision (accepted data).
Proof.
  unfold accepted. destruct (validate data).
  - left; reflexivity.
  - right; discriminate.
Defined.

(** ** The entry form's [onSubmit] (normalisation before the store) *)

(** [{ ...data, colorType: data.colorType || 'No Color' }]. *)
Definition transformedData (data : Form.t) : FormData.t :=
  {| FormData.mixType := Form.mixType data;
     FormData.cement := Form.cement data;
     FormData.aggregate := Form.aggregate data;
     FormData.sand := Form.sand data;
     FormData.water := Form.water data;
     FormData.plastizer := Form.plastizer data;
     FormData.birta := Form.birta data;
     FormData.colorType := or_string (Form.colorType data) "No Color";
     FormData.colorQuantity := Form.colorQuantity data;
     FormData.products := Some (Form.products data) |}.

(** ** Completions: a call returns normally or throws *)

Inductive Completion (A : Type) : Type :=
  | Normal (a : A)
  | Throw (e : string).
Arguments Normal {A} a.
Arguments Throw {A} e.

(** [try { c } catch { h }] for a handler that cannot throw. *)
Definition try_catch {A} (c : Completion A) (h : A) : A :=
  match c with
  | Normal a => a
  | Throw _ => h
  end.

(** Arrays and objects are truthy, [undefined] is not. *)
Definition truthy {A} (o : option A) : bool :=
  match o with
  | Some _ => true
  | None => false
  end.

(** ** The record store ([hooks/useMixData], over [localStorage]) *)

(** What [localStorage] holds under [STORAGE_KEY]: nothing, JSON text that
    parses to the given record list, or text that [JSON.parse] refuses. *)
Inductive Item : Type :=
  | Json (data : list MixData.t)
  | Unparsable.

Definition LocalStorage : Type := option Item.

Definition JSON_parse (i : Item) : Completion (list MixData.t) :=
  match i with
  | Json data => Normal data
  | Unparsable => Throw "SyntaxError"
  end.

(** A number after [JSON.stringify] and [JSON.parse]: a finite number comes
    back as it was, except that [-0] is written ["0"]; [NaN] and the
    infinities are written [null]. *)
Definition JSON_number (n : number) : number :=
  match n with
  | Num x =>
      if is_finite x then (if (x =? 0)%float then Num 0 else Num x) else Null
  | Null => Null
  end.

Definition JSON_product (p : Product) : Product :=
  mkProduct (type p) (JSON_number (quantity p)).

Definition JSON_measurements (m : Measurements.t) : Measurements.t :=
  {| Measurements.cement := JSON_number (Measurements.cement m);
     Measurements.aggregate := JSON_number (Measurements.aggregate m);
     Measurements.sand := JSON_number (Measurements.sand m);
     Measurements.water := JSON_number (Measurements.water m);
     Measurements.plastizer := JSON_number (Measurements.plastizer m);
     Measurements.birta := fmap (M:=option) JSON_number (Measurements.birta m);
     Measurements.colorType := Measurements.colorType m;
     Measurements.colorQuantity := JSON_number (Measurements.colorQuantity m);
     Measurements.products :=
       fmap (M:=option) (fmap (M:=list) JSON_product) (Measurements.products m) |}.

Definition JSON_record (r : MixData.t) : MixData.t :=
  {| MixData.id := MixData.id r;
     MixData.timestamp := MixData.timestamp r;
     MixData.mixType := MixData.mixType r;
     MixData.measurements := JSON_measurements (MixData.measurements r);
     MixData.createdBy := MixData.createdBy r;
     MixData.lastModified := MixData.lastModified r |}.

(** [JSON.parse(JSON.stringify(data))]. *)
Definition JSON_roundtrip (data : list MixData.t) : list MixData.t :=
  JSON_record <$> data.

(** What [localStorage.setItem] does in one call: it stores the text, or
    throws (the quota is used up or storage is disabled). *)
Inductive SetItem : Type := Stores | QuotaExceededError.

(** The values [Date.now().toString()] and [new Date().toISOString()] take
    during one call. *)
Record Clock : Type := mkClock {
  date_now : string;
  iso_timestamp : string;
  iso_lastModified : string }.

Section Store.

(** The two instants the demonstration records are stamped with when the
    module is loaded. *)
Variables (loaded_at day_before : string).

Definition mockMixData : list MixData.t :=
  [ MixData.mk "1" loaded_at interlock
      (Measurements.mk (int 350) (int 1200) (int 800) (int 175) (int 5) None "Red" (int 25)
         (Some [mkProduct "Block Interlock" (int 100); mkProduct "Garden" (int 50)]))
      "demo-user" loaded_at;
    MixData.mk "2" day_before boards_tiir
      (Measurements.mk (int 400) (int 1100) (int 750) (int 200) (int 8) (Some (int 50))
         "White" (int 30)
         (Some [mkProduct "Tiir" (int 200); mkProduct "Boards" (int 150)]))
      "demo-user" day_before ].

Definition getStoredData (ls : LocalStorage) : list MixData.t :=
  try_catch
    (match ls with
     | Some stored => JSON_parse stored
     | None => Normal mockMixData
     end)
    mockMixData.

(** A failure of [localStorage.setItem] is caught and logged: storage stays
    as it was and the caller goes on. *)
Definition setStoredData (setItem : SetItem) (data : list MixData.t) (ls : LocalStorage)
  : LocalStorage :=
  match setItem with
  | Stores => Some (Json (JSON_roundtrip data))
  | QuotaExceededError => ls
  end.

(** The record [useCreateMixData] builds from the form data. *)
Definition newMixData (clock : Clock) (formData : FormData.t) : MixData.t :=
  {| MixData.id := date_now clock;
     MixData.mixType := FormData.mixType formData;
     MixData.measurements :=
       {| Measurements.cement := FormData.cement formData;
          Measurements.aggregate := FormData.aggregate formData;
          Measurements.sand := FormData.sand formData;
          Measurements.water := FormData.water formData;
          Measurements.plastizer := FormData.plastizer formData;
          Measurements.colorType := or_string (FormData.colorType formData) "No Color";
          Measurements.colorQuantity := FormData.colorQuantity formData;
          Measurements.birta :=
            match FormData.birta formData with
            | Some b => Some b
            | None => None
            end;
          Measurements.products :=
            if truthy (FormData.products formData) then FormData.products formData
            else None |};
     MixData.createdBy := "demo-user";
     MixData.timestamp := iso_timestamp clock;
     MixData.lastModified := iso_lastModified clock |}.

(** [useCreateMixData]'s [mutationFn]: the result of the call and the new
    storage. *)
Definition createMixData (clock : Clock) (setItem : SetItem) (formData : FormData.t)
  (ls : LocalStorage) : Completion MixData.t * LocalStorage :=
  let newMix := newMixData clock formData in
  let existingData := getStoredData ls in
  let updatedData := newMix :: existingData in
  (Normal newMix, setStoredData setItem updatedData ls).

(** [useDeleteMixData]'s [mutationFn]. *)
Definition deleteMixData (setItem : SetItem) (id : string) (ls : LocalStorage)
  : Completion unit * LocalStorage :=
  let existingData := getStoredData ls in
  let updatedData := filter (λ item, MixData.id item ≠ id) existingData in
  (Normal tt, setStoredData setItem updatedData ls).

(** The entry form's [onSubmit]: nothing reaches the store unless the
    resolver accepts the form. *)
Definition onSubmit (clock : Clock) (setItem : SetItem) (data : Form.t) (ls : LocalStorage)
  : option MixData.t * LocalStorage :=
  if decide (accepted data) then
    match createMixData clock setItem (transformedData data) ls with
    | (Normal r, ls') => (Some r, ls')
    | (Throw _, ls') => (None, ls')
    end
  else (None, ls).

(** [useUpdateMixData]'s [mutationFn]. Every record with the given id is
    rebuilt from the form data; [stamp i] is [new Date().toISOString()] as
    read when the record at index [i] is rebuilt. The result is
    [updatedData.find(item => item.id === id)]. *)
Definition updateMixData (stamp : nat → string) (setItem : SetItem) (id : string)
  (formData : FormData.t) (ls : LocalStorage)
  : Completion (option MixData.t) * LocalStorage :=
  let existingData := getStoredData ls in
  let updatedData :=
    imap (λ i item,
      if decide (MixData.id item = id) then
        {| MixData.id := MixData.id item;
           MixData.timestamp := MixData.timestamp item;
           MixData.createdBy := MixData.createdBy item;
           MixData.mixType := FormData.mixType formData;
           MixData.measurements :=
             {| Measurements.cement := FormData.cement formData;
                Measurements.aggregate := FormData.aggregate formData;
                Measurements.sand := FormData.sand formData;
                Measurements.water := FormData.water formData;
                Measurements.plastizer := FormData.plastizer formData;
                Measurements.colorType :=
                  or_string (FormData.colorType formData) "No Color";
                Measurements.colorQuantity := FormData.colorQuantity formData;
                Measurements.birta :=
                  match FormData.birta formData with
                  | Some b => Some b
                  | None => None
                  end;
                Measurements.products :=
                  if truthy (FormData.products formData) then FormData.products formData
                  else None |};
           MixData.lastModified := stamp i |}
      else item) existingData in
  (Normal (List.find (λ item, bool_decide (MixData.id item = id)) updatedData),
   setStoredData setItem updatedData ls).

(** The edit form's [onSubmit]: nothing happens without a record, nothing
    reaches the store unless the resolver accepts the form. The first
    component tells whether the update was sent. *)
Definition editOnSubmit (stamp : nat → string) (setItem : SetItem)
  (mixData : option MixData.t) (data : Form.t) (ls : LocalStorage)
  : option (option MixData.t) * LocalStorage :=
  match mixData with
  | None => (None, ls)
  | Some mix =>
      if decide (accepted data) then
        match updateMixData stamp setItem (MixData.id mix) (transformedData data) ls with
        | (Normal r, ls') => (Some r, ls')
        | (Throw _, ls') => (None, ls')
        end
      else (None, ls)
  end.

(** The instant a timestamp string denotes, [new Date(s).getTime()]. *)
Variable getTime : string → Z.

(** The comparator of the listing: [getTime(b) - getTime(a)]. *)
Definition newestFirst (a b : MixData.t) : Z :=
  (getTime (MixData.timestamp b) - getTime (MixData.timestamp a))%Z.

(** [arr.sort(compareFn)]: the sort is stable, so with a consistent
    comparator its result is the one of insertion from the right, where an
    element goes in front of the first one it does not have to follow. *)
Fixpoint sort_insert {A} (compareFn : A → A → Z) (x : A) (l : list A) : list A :=
  match l with
  | [] => [x]
  | y :: l' =>
      if decide (compareFn x y ≤ 0)%Z then x :: y :: l'
      else y :: sort_insert compareFn x l'
  end.

Definition sort {A} (compareFn : A → A → Z) (l : list A) : list A :=
  foldr (sort_insert compareFn) [] l.

(** [arr.slice(start, end)] with JavaScript's relative indices: a negative
    index counts from the end, and both are clamped to the array. *)
Definition slice {A} (l : list A) (start end_ : Z) : list A :=
  let len := Z.of_nat (length l) in
  let k := if decide (start < 0)%Z then Z.max (len + start) 0 else Z.min start len in
  let final := if decide (end_ < 0)%Z then Z.max (len + end_) 0 else Z.min end_ len in
  take (Z.to_nat (final - k)) (drop (Z.to_nat k) l).

(** [Math.ceil(n / d)] for integers; there is no finite result when
    [d = 0]. *)
Definition Math_ceil_div (n d : Z) : option Z :=
  if decide (d = 0)%Z then None else Some (- ((- n) `div` d))%Z.

(** [filters?.mixType] is truthy: present and not the empty string. *)
Definition filter_given (mixTypeFilter : option string) : bool :=
  match mixTypeFilter with
  | Some s => bool_decide (s ≠ "")
  | None => false
  end.

End Store.

(** What the query of [useMixData] returns. *)
Module QueryResult.
Record t : Type := mk {
  data : list MixData.t;
  count : nat;
  totalPages : option Z }.
End QueryResult.

Section Listing.

Variables (loaded_at day_before : string).
Variable getTime : string → Z.

(** [useMixData(page, pageSize, filters)]'s [queryFn]; [mixTypeFilter] is
    [filters?.mixType]. *)
Definition queryFn (page pageSize : Z) (mixTypeFilter : option string)
  (ls : LocalStorage) : QueryResult.t :=
  let data := getStoredData loaded_at day_before ls in
  let data :=
    if filter_given mixTypeFilter then
      filter (λ item, Some (mixType_string (MixData.mixType item)) = mixTypeFilter) data
    else data in
  let data := sort (newestFirst getTime) data in
  let from := ((page - 1) * pageSize)%Z in
  let to := (from + pageSize)%Z in
  let paginatedData := slice data from to in
  {| QueryResult.data := paginatedData;
     QueryResult.count := length data;
     QueryResult.totalPages := Math_ceil_div (Z.of_nat (length data)) pageSize |}.

(** [a] is at least as new as [b]. *)
Definition not_older (a b : MixData.t) : Prop :=
  (getTime (MixData.timestamp b) ≤ getTime (MixData.timestamp a))%Z.

(** The records that pass the filter, as stored. *)
Definition matching (mixTypeFilter : option string) (ls : LocalStorage)
  : list MixData.t :=
  if filter_given mixTypeFilter then
    filter (λ item, Some (mixType_string (MixData.mixType item)) = mixTypeFilter)
      (getStoredData loaded_at day_before ls)
  else getStoredData loaded_at day_before ls.

(** The records the summary modals aggregate: [useMixData(1, 1000)]. *)
Definition modalData (ls : LocalStorage) : option (list MixData.t) :=
  Some (QueryResult.data (queryFn 1 1000 None ls)).

End Listing.

(** ** The product rows of the forms *)

(** [addProduct(type)]: interlock rows start without a type. *)
Definition addProduct (mixType : MixType) (ty : string) (products : list Product)
  : list Product :=
  match mixType with
  | interlock => products ++ [mkProduct "" (int 0)]
  | boards_tiir => products ++ [mkProduct ty (int 0)]
  end.

Definition getAvailableInterlockTypes (watchedProducts : list Product) : list string :=
  let selectedTypes := filter (λ s, s ≠ "") (type <$> watchedProducts) in
  filter (λ ty, ¬ includes selectedTypes ty) interlockTypes.

Definition isBoardsTiirTypeSelected (watchedProducts : list Product) (ty : string) : bool :=
  existsb (λ p, bool_decide (type p = ty)) watchedProducts.

(** [watchedProducts.some((p, i) => i !== index && p.type === type)]: the
    option [ty] of the select in row [index] is disabled. *)
Definition isSelected (watchedProducts : list Product) (index : nat) (ty : string) : bool :=
  existsb (λ ip, bool_decide (ip.1 ≠ index) && bool_decide (type ip.2 = ty))
    (imap pair watchedProducts).

(** What the user can do to the product rows of the entry form. *)
Inductive FormEvent : Type :=
  | ClickAddInterlock
  | ClickAdd (ty : string)
  | SelectType (index : nat) (ty : string)
  | SetQuantity (index : nat) (q : number)
  | Remove (index : nat)
  | ChangeMixType (m : MixType).

(** The mix type and the product rows after an event, [None] when the
    control is not rendered or is disabled: the add buttons are those of
    the current mix type, "Add Interlock Type" is disabled once no type is
    available, "Add Tiir" and "Add Boards" once their type is selected, a
    select offers the empty choice and the interlock types not selected in
    another row, and a change of the mix type empties the rows. *)
Definition form_step (s : MixType * list Product) (e : FormEvent)
  : option (MixType * list Product) :=
  let '(mixType, products) := s in
  match e with
  | ClickAddInterlock =>
      if bool_decide (mixType = interlock)
         && negb (bool_decide (length (getAvailableInterlockTypes products) = 0%nat))
      then Some (mixType, addProduct mixType "" products)
      else None
  | ClickAdd ty =>
      if bool_decide (mixType = boards_tiir)
         && includes boardsTiirTypes ty
         && negb (isBoardsTiirTypeSelected products ty)
      then Some (mixType, addProduct mixType ty products)
      else None
  | SelectType index ty =>
      match products !! index with
      | Some p =>
          if bool_decide (mixType = interlock)
             && (bool_decide (ty = "")
                 || (includes interlockTypes ty && negb (isSelected products index ty)))
          then Some (mixType, <[index := mkProduct ty (quantity p)]> products)
          else None
      | None => None
      end
  | SetQuantity index q =>
      match products !! index with
      | Some p => Some (mixType, <[index := mkProduct (type p) q]> products)
      | None => None
      end
  | Remove index =>
      match products !! index with
      | Some _ => Some (mixType, delete index products)
      | None => None
      end
  | ChangeMixType m =>
      if bool_decide (m = mixType) then Some s else Some (m, [])
  end.

Fixpoint form_run (s : MixType * list Product) (es : list FormEvent)
  : option (MixType * list Product) :=
  match es with
  | [] => Some s
  | e :: es' =>
      match form_step s e with
      | Some s' => form_run s' es'
      | None => None
      end
  end.

(** The entry form starts as an interlock form without rows. *)
Definition form_initial : MixType * list Product := (interlock, []).

(** The rows never break the rules the buttons and selects guard. *)
Definition rows_ok (s : MixType * list Product) : Prop :=
  NoDup (filter (λ t, t ≠ "") (type <$> s.2))
  ∧ ∀ p, p ∈ s.2 →
      match s.1 with
      | interlock => type p = "" ∨ type p ∈ interlockTypes
      | boards_tiir => type p ∈ boardsTiirTypes
      end.

(** ** Plain objects used as dictionaries *)

(** What a property of such an object holds: a number, a string (what [+]
    gives once an operand is not a number; its characters are not tracked,
    and it is never empty), or a nested object.  An object is the list of
    its own properties in the order [Object.values] goes through them. *)
Inductive Value : Type :=
  | VNum (x : float)
  | VStr
  | VObj (props : list (string * Value)).

Definition Obj : Type := list (string * Value).

(** The own property [k]. *)
Fixpoint own (k : string) (o : Obj) : option Value :=
  match o with
  | [] => None
  | (k', v) :: o' => if decide (k' = k) then Some v else own k o'
  end.

(** The own property [k], which exists, takes a new value and keeps its
    place. *)
Fixpoint replace (k : string) (v : Value) (o : Obj) : Obj :=
  match o with
  | [] => []
  | (k', v') :: o' =>
      if decide (k' = k) then (k', v) :: o' else (k', v') :: replace k v o'
  end.

(** The value of a string of decimal digits. *)
Fixpoint digits (s : string) (acc : N) : option N :=
  match s with
  | "" => Some acc
  | String c s' =>
      let d := Ascii.N_of_ascii c in
      if ((48 <=? d) && (d <=? 57))%N then digits s' (10 * acc + (d - 48))%N else None
  end.

(** An array index: the canonical decimal writing of an integer below
    [2^32 - 1]. *)
Definition array_index (k : string) : option N :=
  if decide (k = "") then None
  else if decide (k = "0") then Some 0%N
  else if String.prefix "0" k then None
  else
    match digits k 0 with
    | Some n => if (n <? 4294967295)%N then Some n else None
    | None => None
    end.

(** A new own property: array indices come first, in ascending order, then
    the other keys in the order they were created. *)
Fixpoint insert_index (n : N) (k : string) (v : Value) (o : Obj) : Obj :=
  match o with
  | [] => [(k, v)]
  | (k', v') :: o' =>
      match array_index k' with
      | Some n' =>
          if (n' <? n)%N then (k', v') :: insert_index n k v o'
          else (k, v) :: (k', v') :: o'
      | None => (k, v) :: (k', v') :: o'
      end
  end.

Definition create (k : string) (v : Value) (o : Obj) : Obj :=
  match array_index k with
  | Some n => insert_index n k v o
  | None => o ++ [(k, v)]
  end.

(** The object after [o[k] = v] went to an own data property. *)
Definition define (k : string) (v : Value) (o : Obj) : Obj :=
  if truthy (own k o) then replace k v o else create k v o.

(** The object reached from [o] through own properties that are objects. *)
Fixpoint descend (o : Obj) (p : list string) : option Obj :=
  match p with
  | [] => Some o
  | k :: p' =>
      match own k o with
      | Some (VObj o') => descend o' p'
      | _ => None
      end
  end.

Fixpoint modify (f : Obj → Obj) (o : Obj) (p : list string) : Obj :=
  match p with
  | [] => f o
  | k :: p' =>
      match own k o with
      | Some (VObj o') => replace k (VObj (modify f o' p')) o
      | _ => o
      end
  end.

(** The objects a run works on: the objects the function created with
    [{}] and holds in a variable, and [Object.prototype], of which only
    the properties the page has added are kept here; the built-in ones are
    always there. *)
Record Heap : Type := mkHeap {
  locals : list Obj;
  prototype : Obj }.

Inductive Root : Type := Local (i : nat) | ObjectPrototype.

#[global] Instance Root_eq_dec : EqDecision Root.
Proof. solve_decision. Defined.

(** An object: a root, or what is reached from it through own properties. *)
Definition Ref : Type := Root * list string.

Definition deref (h : Heap) (r : Ref) : option Obj :=
  match r.1 with
  | Local i => o ← locals h !! i; descend o r.2
  | ObjectPrototype => descend (prototype h) r.2
  end.

Definition update (f : Obj → Obj) (r : Ref) (h : Heap) : Heap :=
  match r.1 with
  | Local i =>
      mkHeap (alter (λ o, modify f o r.2) i (locals h)) (prototype h)
  | ObjectPrototype => mkHeap (locals h) (modify f (prototype h) r.2)
  end.

(** The values expressions take. *)
Inductive JsValue : Type :=
  | JUndefined
  | JNull
  | JNumber (x : float)
  | JString
  | JObject (r : Ref).

(** The built-in methods of [Object.prototype]; beside them it has the
    accessor [__proto__]. *)
Definition Object_prototype_methods : list string :=
  ["constructor"; "__defineGetter__"; "__defineSetter__"; "hasOwnProperty";
   "__lookupGetter__"; "__lookupSetter__"; "isPrototypeOf"; "propertyIsEnumerable";
   "toString"; "valueOf"; "toLocaleString"].

(** The built-in methods of [Number.prototype]. *)
Definition Number_prototype_methods : list string :=
  ["constructor"; "toExponential"; "toFixed"; "toLocaleString"; "toPrecision";
   "toString"; "valueOf"].

(** How a run ends: it returns, it throws, or it takes a built-in method
    for a bucket, or indexes a string, after which what happens depends on
    the host's function and string objects and is not described. *)
Inductive Outcome (S A : Type) : Type :=
  | Returns (a : A) (s : S)
  | Throws (e : string) (s : S)
  | Beyond.
Arguments Returns {S A} a s.
Arguments Throws {S A} e s.
Arguments Beyond {S A}.

Definition Run (A : Type) : Type := Heap → Outcome Heap A.

Definition ret {A} (a : A) : Run A := λ h, Returns a h.

Definition bind {A B} (c : Run A) (k : A → Run B) : Run B :=
  λ h,
    match c h with
    | Returns a h' => k a h'
    | Throws e h' => Throws e h'
    | Beyond => Beyond
    end.

Notation "x ←! c ; k" := (bind c (λ x, k))
  (at level 100, c at next level, right associativity).
Notation "c ;;! k" := (bind c (λ _, k))
  (at level 100, right associativity).

Definition to_js (v : Value) (r : Ref) : JsValue :=
  match v with
  | VNum x => JNumber x
  | VStr => JString
  | VObj _ => JObject r
  end.

(** [target[k]]: an own property first, then [Object.prototype]; the
    [__proto__] of an object is its prototype, that of [Object.prototype]
    is [null]. A number is looked up through [Number.prototype]. *)
Definition get (target : JsValue) (k : string) : Run JsValue := λ h,
  match target with
  | JObject r =>
      match deref h r with
      | Some o =>
          if includes Object_prototype_methods k then Beyond
          else
            match own k o with
            | Some v => Returns (to_js v (r.1, r.2 ++ [k])) h
            | None =>
                if decide (r = (ObjectPrototype, [])) then
                  Returns (if decide (k = "__proto__") then JNull else JUndefined) h
                else if decide (k = "__proto__") then
                  Returns (JObject (ObjectPrototype, [])) h
                else
                  match own k (prototype h) with
                  | Some v => Returns (to_js v (ObjectPrototype, [k])) h
                  | None => Returns JUndefined h
                  end
            end
      | None => Beyond
      end
  | JNumber _ =>
      if includes Object_prototype_methods k || includes Number_prototype_methods k
         || bool_decide (k = "__proto__")
      then Beyond
      else
        match own k (prototype h) with
        | Some v => Returns (to_js v (ObjectPrototype, [k])) h
        | None => Returns JUndefined h
        end
  | JString => Beyond
  | JUndefined | JNull => Throws "TypeError" h
  end.

(** [target[k] = v] in strict code, for [v] a number, a string or a new
    [{}]: an own property is overwritten; [__proto__ = v] goes to the
    accessor, which ignores what is not an object; any other key becomes a
    new own property (the data properties inherited from
    [Object.prototype] are writable). A number cannot take a property. *)
Definition set (target : JsValue) (k : string) (v : Value) : Run unit := λ h,
  match target with
  | JObject r =>
      match deref h r with
      | Some o =>
          if includes Object_prototype_methods k then Beyond
          else if decide (k = "__proto__") then
            match v with
            | VObj _ => Beyond
            | _ => Returns tt h
            end
          else Returns tt (update (define k v) r h)
      | None => Beyond
      end
  | JNumber _ =>
      if includes Object_prototype_methods k || includes Number_prototype_methods k
         || bool_decide (k = "__proto__")
      then Beyond
      else Throws "TypeError" h
  | JString => Beyond
  | JUndefined | JNull => Throws "TypeError" h
  end.

(** [!v] is false. *)
Definition is_truthy (v : JsValue) : bool :=
  match v with
  | JUndefined | JNull => false
  | JNumber x => negb ((x =? 0)%float || is_nan x)
  | JString | JObject _ => true
  end.

(** [v || 0]. *)
Definition or_zero (v : JsValue) : JsValue :=
  if is_truthy v then v else JNumber 0.

(** The number a [number] field counts as in an addition. *)
Definition ToNumber (q : number) : float :=
  match q with
  | Num y => y
  | Null => 0%float
  end.

(** [v + q] for [q] of static type [number]: the sum of two numbers, a
    string otherwise (an object is written ["[object Object]"]). *)
Definition plus (v : JsValue) (q : number) : Value :=
  match v with
  | JNumber x => VNum (x + ToNumber q)
  | JUndefined => VNum (nan + ToNumber q)
  | JNull => VNum (0 + ToNumber q)
  | JString | JObject _ => VStr
  end.

(** [target[k] = (target[k] || 0) + q]. *)
Definition accumulate (target : JsValue) (k : string) (q : number) : Run unit :=
  v ←! get target k;
  set target k (plus (or_zero v) q).

(** [arr.forEach(body)]. *)
Fixpoint forEach {A} (l : list A) (body : A → Run unit) : Run unit :=
  match l with
  | [] => ret tt
  | a :: l' => body a ;;! forEach l' body
  end.

(** ** Aggregation ([TotalProductsModal], [FilteredProductsModal]) *)

Record Totals : Type := mkTotals {
  interlockTotals : Obj;
  boardsTiirTotals : Obj }.

(** The objects a finished run hands back, and what it leaves added to
    [Object.prototype]. *)
Definition finish {A} (result : Heap → A) (o : Outcome Heap unit) : Outcome Obj A :=
  match o with
  | Returns _ h => Returns (result h) (prototype h)
  | Throws e h => Throws e (prototype h)
  | Beyond => Beyond
  end.

Definition local (i : nat) (h : Heap) : Obj := default [] (locals h !! i).

(** [calculateTotals] of the totals modal, run on a page whose
    [Object.prototype] has the added properties [added]. *)
Definition calculateTotals (data : option (list MixData.t)) (added : Obj)
  : Outcome Obj Totals :=
  match data with
  | None => Returns (mkTotals [] []) added
  | Some data =>
      let interlockTotals := JObject (Local 0, []) in
      let boardsTiirTotals := JObject (Local 1, []) in
      finish (λ h, mkTotals (local 0 h) (local 1 h))
        (forEach data (λ mix,
           match Measurements.products (MixData.measurements mix) with
           | Some products =>
               forEach products (λ product,
                 match MixData.mixType mix with
                 | interlock =>
                     accumulate interlockTotals (type product) (quantity product)
                 | boards_tiir =>
                     accumulate boardsTiirTotals (type product) (quantity product)
                 end)
           | None => ret tt
           end)
           (mkHeap [[]; []] added))
  end.

(** [a + b] on bucket values. *)
Definition add (a b : Value) : Value :=
  match a, b with
  | VNum x, VNum y => VNum (x + y)
  | _, _ => VStr
  end.

(** [Object.values(totals).reduce((sum, qty) => sum + qty, 0)]. *)
Definition getTotalQuantity (totals : Obj) : Value :=
  foldl add (VNum 0) totals.*2.

(** The "Grand Total (All Products)" line of the totals modal. *)
Definition grandTotal (t : Totals) : Value :=
  add (getTotalQuantity (interlockTotals t)) (getTotalQuantity (boardsTiirTotals t)).

(** [groupedData[color][mixType][type]]: grouped by colour. *)
Definition calculateColorTotals (data : option (list MixData.t)) (added : Obj)
  : Outcome Obj Obj :=
  match data with
  | None => Returns [] added
  | Some data =>
      let groupedData := JObject (Local 0, []) in
      finish (local 0)
        (forEach data (λ mix,
           let color := or_string (Measurements.colorType (MixData.measurements mix)) "No Color" in
           let mixType := mixType_string (MixData.mixType mix) in
           byColor ←! get groupedData color;
           (if is_truthy byColor then ret tt else set groupedData color (VObj [])) ;;!
           byColor ←! get groupedData color;
           byMix ←! get byColor mixType;
           (if is_truthy byMix then ret tt else set byColor mixType (VObj [])) ;;!
           match Measurements.products (MixData.measurements mix) with
           | Some products =>
               forEach products (λ product,
                 let key := type product in
                 byColor ←! get groupedData color;
                 byMix ←! get byColor mixType;
                 accumulate byMix key (quantity product))
           | None => ret tt
           end)
           (mkHeap [[]] added))
  end.

(** [groupedData[type][color]]: grouped by product type. *)
Definition calculateProductTotals (data : option (list MixData.t)) (added : Obj)
  : Outcome Obj Obj :=
  match data with
  | None => Returns [] added
  | Some data =>
      let groupedData := JObject (Local 0, []) in
      finish (local 0)
        (forEach data (λ mix,
           let color := or_string (Measurements.colorType (MixData.measurements mix)) "No Color" in
           match Measurements.products (MixData.measurements mix) with
           | Some products =>
               forEach products (λ product,
                 let productType := type product in
                 byType ←! get groupedData productType;
                 (if is_truthy byType then ret tt
                  else set groupedData productType (VObj [])) ;;!
                 byType ←! get groupedData productType;
                 accumulate byType color (quantity product))
           | None => ret tt
           end)
           (mkHeap [[]] added))
  end.

(** [Object.values(v).reduce((sum, qty) => sum + qty, 0)] for a value [v]
    found where an object of numbers is expected: a number has no
    properties to go through, a string has its characters. *)
Definition sum_values (v : Value) : Value :=
  match v with
  | VObj o => foldl add (VNum 0) o.*2
  | VNum _ => VNum 0
  | VStr => VStr
  end.

(** [getTotalForColor]: [total += ...] over the mix types of a colour. *)
Definition getTotalForColor (colorData : Value) : Value :=
  match colorData with
  | VObj o =>
      foldl (λ total mixTypeData, add total (sum_values mixTypeData)) (VNum 0) o.*2
  | VNum _ => VNum 0
  | VStr => VStr
  end.

(** [Object.values(productData).reduce((sum, qty) => sum + qty, 0)]. *)
Definition getTotalForProduct (productData : Value) : Value :=
  sum_values productData.

Inductive Tab : Type := color_tab | product_tab.

(** [getGrandTotal] of the filtered-products modal. *)
Definition getGrandTotal (activeTab : Tab) (colorGroupedData productGroupedData : Obj)
  : Value :=
  match activeTab with
  | color_tab =>
      foldl (λ total colorData, add total (getTotalForColor colorData)) (VNum 0)
        colorGroupedData.*2
  | product_tab =>
      foldl (λ total productData, add total (getTotalForProduct productData)) (VNum 0)
        productGroupedData.*2
  end.

(** ** The rule set as the specification words it *)

(** [n] is a number within [[lo, hi]]. *)
Definition in_range (lo hi : float) (n : number) : Prop :=
  match n with
  | Num x => (lo <=? x)%float = true ∧ (x <=? hi)%float = true
  | Null => False
  end.

#[global] Instance in_range_dec lo hi n : Decision (in_range lo hi n).
Proof. unfold in_range. destruct n; apply _. Defined.

(** [n] is a number: a double other than [NaN]. *)
Definition is_number (n : number) : Prop :=
  match n with
  | Num x => is_nan x = false
  | Null => False
  end.

#[global] Instance is_number_dec n : Decision (is_number n).
Proof. unfold is_number. destruct n; apply _. Defined.

(** The vocabulary of product types a mix type permits. *)
Definition vocabulary (m : MixType) : list string :=
  match m with
  | interlock => interlockTypes
  | boards_tiir => boardsTiirTypes
  end.

Inductive Field : Type :=
  f_cement | f_aggregate | f_sand | f_water | f_plastizer | f_colorQuantity.

Definition field_name (f : Field) : string :=
  match f with
  | f_cement => "cement"
  | f_aggregate => "aggregate"
  | f_sand => "sand"
  | f_water => "water"
  | f_plastizer => "plastizer"
  | f_colorQuantity => "colorQuantity"
  end.

Definition field_value (f : Field) (c : Form.t) : number :=
  match f with
  | f_cement => Form.cement c
  | f_aggregate => Form.aggregate c
  | f_sand => Form.sand c
  | f_water => Form.water c
  | f_plastizer => Form.plastizer c
  | f_colorQuantity => Form.colorQuantity c
  end.

(** Every numeric field of the candidate holds a number. *)
Definition all_numbers (c : Form.t) : Prop :=
  (∀ f, is_number (field_value f c))
  ∧ (∀ b, Form.birta c = Some b → is_number b)
  ∧ (∀ p, p ∈ Form.products c → is_number (quantity p)).

(** Two entries of the list have the same type. *)
Definition duplicate_type (ps : list Product) : Prop :=
  ∃ i j p q, i ≠ j ∧ ps !! i = Some p ∧ ps !! j = Some q ∧ type p = type q.





(** The candidate with its product list replaced. *)
Definition with_products (ps : list Product) (c : Form.t) : Form.t :=
  Form.mk (Form.mixType c) (Form.cement c) (Form.aggregate c) (Form.sand c)
    (Form.water c) (Form.plastizer c) (Form.birta c) (Form.colorType c)
    (Form.colorQuantity c) ps.

(** All rules of the schema hold for a candidate. *)
Definition well_formed (c : Form.t) : Prop :=
  (∀ f, in_range 0 9999.99 (field_value f c))
  ∧ (∀ b, Form.birta c = Some b → in_range 0 9999 b)
  ∧ (Form.mixType c = boards_tiir → Form.birta c ≠ None)
  ∧ (Form.colorType c = "" ∨ Form.colorType c ∈ colorOptions)
  ∧ Form.products c ≠ []
  ∧ (∀ p, p ∈ Form.products c →
       type p ∈ vocabulary (Form.mixType c)
       ∧ in_range 0 9999 (quantity p))
  ∧ NoDup (type <$> Form.products c).

(** ** Sums and buckets *)

(** The sum of a list of doubles, added up from 0 in the order of the
    list. *)
Definition total (xs : list float) : float := foldl PrimFloat.add 0%float xs.

(** One addition into a bucket that holds [b]: [(b || 0) + q]. *)
Definition bucket_step (b : float) (q : number) : float :=
  ((if (b =? 0)%float || is_nan b then 0 else b) + ToNumber q)%float.

(** A bucket exists once a quantity went into it, and holds what the
    additions made of them, in their order. *)
Definition bucket (qs : list number) : option Value :=
  match qs with
  | [] => None
  | _ => Some (VNum (foldl bucket_step 0%float qs))
  end.

(** What goes into a bucket from nothing, or from the value [v] it holds,
    when the quantities [qs] are added one after the other. *)
Definition pour (v : option Value) (qs : list number) : option Value :=
  foldl (λ v q,
    Some (VNum (bucket_step (match v with Some (VNum b) => b | _ => 0%float end) q)))
    v qs.

(** [q] counts as a number that is not negative ([null] counts as 0). *)
Definition not_negative (q : number) : Prop := (0 <=? ToNumber q)%float = true.

(** An object of numbers (no key twice, every value a number), of objects
    of numbers, and of objects of objects of numbers. *)
Definition numeric (o : Obj) : Prop :=
  NoDup o.*1 ∧ Forall (λ kv, ∃ x, kv.2 = VNum x) o.

Definition numeric2 (o : Obj) : Prop :=
  Forall (λ kv, ∃ o', kv.2 = VObj o' ∧ numeric o') o.

Definition numeric3 (o : Obj) : Prop :=
  Forall (λ kv, ∃ o', kv.2 = VObj o' ∧ numeric2 o') o.


(** Sign bit clear and not [NaN]. *)
Definition sf_pos (X : spec_float) : Prop :=
  match X with
  | S754_zero s | S754_infinity s | S754_finite s _ _ => s = false
  | S754_nan => False
  end.

(** Not negative: [0 <= X]. *)
Definition sf_ge0 (X : spec_float) : Prop :=
  match X with
  | S754_zero _ => True
  | S754_infinity s | S754_finite s _ _ => s = false
  | S754_nan => False
  end.

(** The products of a record, none when the list is missing. *)
Definition products_of (mix : MixData.t) : list Product :=
  default [] (Measurements.products (MixData.measurements mix)).

Definition color_of (mix : MixData.t) : string :=
  or_string (Measurements.colorType (MixData.measurements mix)) "No Color".

(** The quantities, in order, of the products of type [ty] in the records
    of mix type [m]. *)
Definition quantities (m : MixType) (ty : string) (l : list MixData.t) : list number :=
  l ≫= λ mix,
    if decide (MixData.mixType mix = m)
    then quantity <$> filter (λ p, type p = ty) (products_of mix)
    else [].

(** The quantities that belong into one bucket of the colour grouping. *)
Definition color_quantities (color mt ty : string) (l : list MixData.t) : list number :=
  l ≫= λ mix,
    if decide (color_of mix = color ∧ mixType_string (MixData.mixType mix) = mt)
    then quantity <$> filter (λ p, type p = ty) (products_of mix)
    else [].

(** The quantities that belong into one bucket of the product-type
    grouping. *)
Definition product_quantities (ty color : string) (l : list MixData.t) : list number :=
  l ≫= λ mix,
    if decide (color_of mix = color)
    then quantity <$> filter (λ p, type p = ty) (products_of mix)
    else [].

Definition totals_of (m : MixType) (t : Totals) : Obj :=
  match m with
  | interlock => interlockTotals t
  | boards_tiir => boardsTiirTotals t
  end.

(** The bucket [g[a][b]] and the bucket [g[a][b][c]] of a grouping, read
    through own properties. *)
Definition leaf2 (g : Obj) (a b : string) : option Value :=
  match own a g with
  | Some (VObj o) => own b o
  | _ => None
  end.

Definition leaf3 (g : Obj) (a b c : string) : option Value :=
  match own a g with
  | Some (VObj o) => leaf2 o b c
  | _ => None
  end.

(** A key that names no property of [Object.prototype], neither a built-in
    one nor one of those the page has added. *)
Definition plain_key (added : Obj) (k : string) : Prop :=
  (k ∉ Object_prototype_methods) ∧ k ≠ "__proto__" ∧ (k ∉ added.*1).

#[global] Instance plain_key_dec added k : Decision (plain_key added k).
Proof. unfold plain_key. apply _. Defined.

(** Records whose colour, mix type and product types are plain keys. *)
Definition plain_record (added : Obj) (mix : MixData.t) : Prop :=
  plain_key added (color_of mix)
  ∧ plain_key added (mixType_string (MixData.mixType mix))
  ∧ Forall (λ p, plain_key added (type p)) (products_of mix).

#[global] Instance plain_record_dec added mix : Decision (plain_record added mix).
Proof. unfold plain_record. apply _. Defined.

(** ** Concrete candidates and records *)

Definition garden (q : Z) : list Product := [mkProduct "Garden" (int q)].

(** An interlock record as the demonstration data has it. *)
Definition interlock_ok : Form.t :=
  Form.mk interlock (int 350) (int 1200) (int 800) (int 175) (int 5) None "Red"
    (int 25) [mkProduct "Block Interlock" (int 100); mkProduct "Garden" (int 50)].

(** Four rules broken at once: cement out of range, birta missing, an
    unknown colour and a product type twice. *)
Definition four_violations : Form.t :=
  Form.mk boards_tiir (int 10000) (int 1200) (int 800) (int 175) (int 5) None "Purple"
    (int 25) [mkProduct "Tiir" (int 100); mkProduct "Tiir" (int 50)].

(** The same candidate with the cement input left blank: the input's
    [valueAsNumber] is [NaN]. *)
Definition blank_cement : Form.t :=
  Form.mk boards_tiir (Num nan) (int 1200) (int 800) (int 175) (int 5) None "Purple"
    (int 25) [mkProduct "Tiir" (int 100); mkProduct "Tiir" (int 50)].

Definition interlock_birta (b : Z) : Form.t :=
  Form.mk interlock (int 350) (int 1200) (int 800) (int 175) (int 5) (Some (int b)) ""
    (int 0) (garden 10).

Definition tiir_under_interlock : Form.t :=
  Form.mk interlock (int 350) (int 1200) (int 800) (int 175) (int 5) None ""
    (int 0) [mkProduct "Tiir" (int 10)].

(** Tiir under interlock, with the water input left blank. *)
Definition tiir_under_interlock_blank : Form.t :=
  Form.mk interlock (int 350) (int 1200) (int 800) (Num nan) (int 5) None ""
    (int 0) [mkProduct "Tiir" (int 10)].

Definition garden_twice (m : MixType) : Form.t :=
  Form.mk m (int 1) (int 1) (int 1) (int 1) (int 1) (Some (int 1)) "" (int 0)
    [mkProduct "Garden" (int 1); mkProduct "Tiir" (int 2); mkProduct "Garden" (int 3)].

(** Garden twice, the quantity of the second row left blank. *)
Definition garden_twice_blank : Form.t :=
  Form.mk interlock (int 1) (int 1) (int 1) (int 1) (int 1) None "" (int 0)
    [mkProduct "Garden" (int 1); mkProduct "Garden" (Num nan)].

Definition no_colour : Form.t :=
  Form.mk interlock (int 350) (int 1200) (int 800) (int 175) (int 5) None ""
    (int 0) (garden 10).

Definition clock0 : Clock := mkClock "1700000000000" "2023-11-14T22:13:20.000Z"
  "2023-11-14T22:13:20.000Z".

Definition boards_ok : Form.t :=
  Form.mk boards_tiir (int 400) (int 1100) (int 750) (int 200) (int 8) (Some (int 50))
    "White" (int 30) [mkProduct "Tiir" (int 200); mkProduct "Boards" (int 150)].

(** A red interlock record with one Garden product. *)
Definition red_garden (id : string) (q : Z) : MixData.t :=
  MixData.mk id "t" interlock
    (Measurements.mk (int 1) (int 2) (int 3) (int 4) (int 5) None "Red" (int 1)
       (Some (garden q)))
    "demo-user" "t".

(** A record whose measurements carry no product list. *)
Definition no_products : MixData.t :=
  MixData.mk "3" "t" interlock
    (Measurements.mk (int 1) (int 2) (int 3) (int 4) (int 5) None "" (int 0) None)
    "demo-user" "t".

(** A record with the given products and no colour. *)
Definition with_types (ps : list Product) : MixData.t :=
  MixData.mk "4" "t" interlock
    (Measurements.mk (int 1) (int 2) (int 3) (int 4) (int 5) None "" (int 0) (Some ps))
    "demo-user" "t".

(** A record list whose only product has the type [__proto__]. *)
Definition proto_five : list MixData.t :=
  [with_types [mkProduct "__proto__" (int 5)]].

(** Quantities 1e999, -1e999 and 1 of one product type, as text in storage
    can have them. *)
Definition cancelling : list MixData.t :=
  [with_types [mkProduct "Garden" (Num infinity); mkProduct "Garden" (Num neg_infinity);
               mkProduct "Garden" (int 1)]].

(** A record of colour [x] with a product of type [__proto__] and one of
    type [x]. *)
Definition proto_then_x : MixData.t :=
  MixData.mk "7" "t" interlock
    (Measurements.mk (int 1) (int 2) (int 3) (int 4) (int 5) None "x" (int 1)
       (Some [mkProduct "__proto__" (int 5); mkProduct "x" (int 1)]))
    "demo-user" "t".

(** An interlock record of the given colour with one Garden product, and
    one without a product list. *)
Definition garden_of (color : string) (q : number) : MixData.t :=
  MixData.mk "5" "t" interlock
    (Measurements.mk (int 1) (int 2) (int 3) (int 4) (int 5) None color (int 1)
       (Some [mkProduct "Garden" q]))
    "demo-user" "t".

Definition empty_of (color : string) : MixData.t :=
  MixData.mk "6" "t" interlock
    (Measurements.mk (int 1) (int 2) (int 3) (int 4) (int 5) None color (int 1) None)
    "demo-user" "t".

Definition three_colours : list MixData.t :=
  [garden_of "White" (Num 0.2); garden_of "Red" (Num 0.1); garden_of "Black" (Num 0.3)].


(** ** Store operations and sessions *)

Definition boards_session : list FormEvent :=
  [ChangeMixType boards_tiir; ClickAdd "Tiir"; SetQuantity 0 (int 200); ClickAdd "Boards"].

(** A stored record that the forms can have written: its mix type and
    measurements are those an accepted form is stored with. *)
Definition stored_ok (r : MixData.t) : Prop :=
  ∃ c, accepted c
       ∧ MixData.mixType r = Form.mixType c
       ∧ MixData.measurements r
         = JSON_measurements (MixData.measurements (newMixData clock0 (transformedData c))).

(** The ways the two forms and the table change the store. *)
Inductive StoreOp : Type :=
  | OpSubmit (clock : Clock) (data : Form.t)
  | OpEdit (stamp : nat → string) (mix : option MixData.t) (data : Form.t)
  | OpDelete (id : string).

Definition apply_op (loaded_at day_before : string) (ls : LocalStorage)
  (op : SetItem * StoreOp) : LocalStorage :=
  match op.2 with
  | OpSubmit clock data => (onSubmit loaded_at day_before clock op.1 data ls).2
  | OpEdit stamp mix data => (editOnSubmit loaded_at day_before stamp op.1 mix data ls).2
  | OpDelete id => (deleteMixData loaded_at day_before op.1 id ls).2
  end.

(** * Doubles *)

Lemma SFcompare_refl X : X ≠ S754_nan → SFcompare X X = Some Eq.
Proof.
  destruct X as [s|s| |s m e]; intros H; simpl; try done; try (by destruct s).
  rewrite Z.compare_refl, Pos.compare_cont_refl. by destruct s.
Qed.

Lemma is_nan_spec x : is_nan x = true ↔ Prim2SF x = S754_nan.
Proof.
  unfold is_nan. rewrite FloatAxioms.eqb_spec. unfold SFeqb. split.
  - intros H. destruct (Prim2SF x) eqn:E; [| |done|];
      rewrite SFcompare_refl in H by done; discriminate.
  - intros ->. reflexivity.
Qed.

Lemma SFcompare_antisym X Y :
  SFcompare Y X = option_map CompOpp (SFcompare X Y).
Proof.
  destruct X as [s|s| |s m e], Y as [s'|s'| |s' m' e']; simpl; try done;
    try (by destruct s); try (by destruct s'); try (by destruct s, s').
  rewrite (Z.compare_antisym e e').
  destruct s, s'; simpl; try done; destruct (e ?= e')%Z; simpl; try done.
  - f_equal. rewrite !Pos.compare_cont_spec. simpl.
    rewrite (Pos.compare_antisym m m'). by destruct (m ?= m')%positive.
  - f_equal. rewrite !Pos.compare_cont_spec. simpl.
    rewrite (Pos.compare_antisym m m'). by destruct (m ?= m')%positive.
Qed.

(** On numbers, "not below" is "at least". *)
Lemma ltb_false_leb x y :
  is_nan x = false → is_nan y = false →
  (x <? y)%float = false ↔ (y <=? x)%float = true.
Proof.
  intros Hx Hy. rewrite FloatAxioms.ltb_spec, FloatAxioms.leb_spec. unfold SFltb, SFleb.
  rewrite (SFcompare_antisym (Prim2SF x) (Prim2SF y)).
  destruct (SFcompare (Prim2SF x) (Prim2SF y)) as [[]|] eqn:E; simpl; try done.
  exfalso.
  assert (Prim2SF x ≠ S754_nan) by (intros Hn; apply is_nan_spec in Hn; congruence).
  assert (Prim2SF y ≠ S754_nan) by (intros Hn; apply is_nan_spec in Hn; congruence).
  destruct (Prim2SF x), (Prim2SF y); simpl in E; done.
Qed.

Lemma leb_nan_r x y : is_nan y = true → (x <=? y)%float = false.
Proof.
  intros H. apply is_nan_spec in H. rewrite FloatAxioms.leb_spec, H. unfold SFleb.
  by destruct (Prim2SF x).
Qed.

Lemma leb_nan_l x y : is_nan x = true → (x <=? y)%float = false.
Proof.
  intros H. apply is_nan_spec in H. rewrite FloatAxioms.leb_spec, H. reflexivity.
Qed.

Lemma shr_1_nonneg mrs : (0 ≤ shr_m mrs)%Z → (0 ≤ shr_m (shr_1 mrs))%Z.
Proof. destruct mrs as [m r s]. destruct m as [|[]|[]]; simpl; lia. Qed.

Lemma iter_pos_preserves {A} (P : A → Prop) (f : A → A) :
  (∀ x, P x → P (f x)) → ∀ n x, P x → P (SpecFloat.iter_pos f n x).
Proof. intros Hf. induction n; intros x Hx; simpl; auto. Qed.

Lemma shr_nonneg mrs e n : (0 ≤ shr_m mrs)%Z → (0 ≤ shr_m (shr mrs e n).1)%Z.
Proof.
  intros H. destruct n; simpl; try done.
  by apply (iter_pos_preserves (λ mrs, 0 ≤ shr_m mrs)%Z), H; apply shr_1_nonneg.
Qed.

Lemma shr_fexp_nonneg p e m ex l :
  (0 ≤ m)%Z → (0 ≤ shr_m (shr_fexp p e m ex l).1)%Z.
Proof.
  intros H. unfold shr_fexp. apply shr_nonneg. by destruct l as [|[]].
Qed.

Lemma round_nearest_even_nonneg m l : (0 ≤ m)%Z → (0 ≤ round_nearest_even m l)%Z.
Proof. intros H. destruct l as [|[]]; simpl; try done; [destruct (Z.even m)|]; lia. Qed.

Lemma binary_round_aux_pos p e m ex l :
  (0 ≤ m)%Z → sf_pos (binary_round_aux p e false m ex l).
Proof.
  intros H. unfold binary_round_aux.
  pose proof (shr_fexp_nonneg p e m ex l H) as H1.
  destruct (shr_fexp p e m ex l) as [mrs' e']. simpl in H1.
  pose proof (shr_fexp_nonneg p e _ e' loc_Exact
                (round_nearest_even_nonneg _ (loc_of_shr_record mrs') H1)) as H2.
  destruct (shr_fexp p e _ e' loc_Exact) as [mrs'' e'']. simpl in H2.
  destruct (shr_m mrs''); simpl; try done; try lia.
  by destruct (_ <=? _)%Z.
Qed.

(** Adding a number that is not negative to one whose sign bit is clear
    gives a number whose sign bit is clear. *)
Lemma SFadd_pos p e X Y : sf_pos X → sf_ge0 Y → sf_pos (SFadd p e X Y).
Proof.
  destruct X as [s|s| |s m ex], Y as [s'|s'| |s' m' ey]; simpl; try done;
    try (intros -> ?; subst; done); try (by intros -> _; destruct s').
  intros -> ->. simpl.
  unfold binary_round. destruct (shl_align _ _ _) as [mz ez].
  by apply binary_round_aux_pos.
Qed.

Lemma add_pos x y :
  sf_pos (Prim2SF x) → sf_ge0 (Prim2SF y) → sf_pos (Prim2SF (x + y)).
Proof. rewrite add_spec. apply SFadd_pos. Qed.

Lemma leb_0_ge0 y : (0 <=? y)%float = true → sf_ge0 (Prim2SF y).
Proof.
  rewrite FloatAxioms.leb_spec. unfold SFleb.
  change (Prim2SF 0) with (S754_zero false).
  destruct (Prim2SF y) as [s|s| |s m ex]; simpl; try done; by destruct s.
Qed.

Lemma sf_pos_zero x : sf_pos (Prim2SF x) → (x =? 0)%float = true → x = 0%float.
Proof.
  intros Hp. rewrite FloatAxioms.eqb_spec. unfold SFeqb.
  change (Prim2SF 0) with (S754_zero false).
  destruct (Prim2SF x) as [s|s| |s m ex] eqn:E; simpl in *; subst; try done.
  intros _. apply Prim2SF_inj. rewrite E. reflexivity.
Qed.

Lemma sf_pos_not_nan x : sf_pos (Prim2SF x) → is_nan x = false.
Proof.
  intros Hp. destruct (is_nan x) eqn:E; [|done].
  apply is_nan_spec in E. rewrite E in Hp. done.
Qed.

(** * Properties of the validator *)

Lemma violation_on_nil p : ¬ violation_on p [].
Proof. unfold violation_on. simpl. apply not_elem_of_nil. Qed.

Lemma violation_on_app p a b :
  violation_on p (a ++ b) ↔ violation_on p a ∨ violation_on p b.
Proof. unfold violation_on. rewrite fmap_app. apply elem_of_app. Qed.

Lemma violation_on_singleton p c q m :
  violation_on p [mkIssue c q m] ↔ p = q.
Proof. unfold violation_on. simpl. apply list_elem_of_singleton. Qed.

Lemma in_range_is_number lo hi n : in_range lo hi n → is_number n.
Proof.
  destruct n as [x|]; simpl; [|done]. intros [H _].
  destruct (is_nan x) eqn:E; [|done]. by rewrite leb_nan_r in H.
Qed.

(** A number field is reported exactly when it does not hold a number of
    the range; that covers the values [z.number()] refuses. *)
Lemma violation_on_range p lo hi m1 m2 q n :
  is_nan lo = false → is_nan hi = false →
  violation_on p (issues (number_range lo hi m1 m2 q n)) ↔ p = q ∧ ¬ in_range lo hi n.
Proof.
  intros Hlo Hhi. destruct n as [x|]; simpl.
  - destruct (is_nan x) eqn:Hx; simpl.
    + rewrite violation_on_singleton, (leb_nan_r lo x Hx). intuition discriminate.
    + unfold number_min, number_max. rewrite violation_on_app.
      pose proof (ltb_false_leb x lo Hx Hlo) as H1.
      pose proof (ltb_false_leb hi x Hhi Hx) as H2.
      destruct (x <? lo)%float, (hi <? x)%float;
        rewrite ?violation_on_singleton; split.
      all: try (intros [?|?]; try (exfalso; eapply violation_on_nil; eassumption)).
      all: try (split; [assumption|]; intros [H3 H4]).
      all: try (apply H1 in H3; discriminate).
      all: try (apply H2 in H4; discriminate).
      all: try (intros [-> _]; auto; fail).
      intros [_ Hn]. exfalso. apply Hn. split; [by apply H1 | by apply H2].
  - rewrite violation_on_singleton. tauto.
Qed.

Lemma aborted_range lo hi m1 m2 q n :
  aborted (number_range lo hi m1 m2 q n) = false ↔ is_number n.
Proof.
  destruct n as [x|]; simpl; [|done]. by destruct (is_nan x).
Qed.

Lemma issues_elements (l : list ParseReturn) :
  issues (foldr merge OK l) = mjoin (issues <$> l).
Proof. induction l as [|a l IH]; [done|]. simpl. by rewrite IH. Qed.

Lemma aborted_elements (l : list ParseReturn) :
  aborted (foldr merge OK l) = false ↔ Forall (λ r, aborted r = false) l.
Proof.
  induction l as [|a l IH]; simpl.
  - split; [constructor|done].
  - rewrite orb_false_iff, IH, Forall_cons. done.
Qed.

Lemma violation_on_array {A} p (elem : Path → A → ParseReturn) n msg q l :
  violation_on p (issues (array_min elem n msg q l))
  ↔ (p = q ∧ (length l < n)%nat)
    ∨ ∃ i a, l !! i = Some a ∧ violation_on p (issues (elem (q ++ [Index i]) a)).
Proof.
  unfold array_min. simpl. rewrite violation_on_app. apply Morphisms_Prop.or_iff_morphism.
  - destruct (decide (length l < n)%nat).
    + rewrite violation_on_singleton. tauto.
    + split; [intros H; destruct (violation_on_nil _ H) | tauto].
  - rewrite issues_elements. unfold violation_on. rewrite list_elem_of_fmap. split.
    + intros (iss & -> & Hin). apply list_elem_of_join in Hin as (is' & Hin & Hl).
      apply list_elem_of_fmap in Hl as (r & -> & Hl).
      apply elem_of_lookup_imap in Hl as (i & a & -> & Hl).
      exists i, a. split; [done|]. apply list_elem_of_fmap. eauto.
    + intros (i & a & Hl & Hin). apply list_elem_of_fmap in Hin as (iss & -> & Hin).
      exists iss. split; [done|]. apply list_elem_of_join.
      exists (issues (elem (q ++ [Index i]) a)). split; [done|].
      apply list_elem_of_fmap. eexists. split; [done|].
      apply elem_of_lookup_imap. eauto.
Qed.

Lemma aborted_array {A} (elem : Path → A → ParseReturn) n msg q l :
  aborted (array_min elem n msg q l) = false
  ↔ ∀ i a, l !! i = Some a → aborted (elem (q ++ [Index i]) a) = false.
Proof.
  unfold array_min. simpl. rewrite aborted_elements, Forall_forall. split.
  - intros H i a Hl. apply H, elem_of_lookup_imap. eauto.
  - intros H r Hr. apply elem_of_lookup_imap in Hr as (i & a & -> & Hl). eauto.
Qed.

Lemma violation_on_product p q x :
  violation_on p (issues (productSchema q x))
  ↔ (p = q ++ [Key "type"] ∧ type x = "")
    ∨ (p = q ++ [Key "quantity"] ∧ ¬ in_range 0 9999 (quantity x)).
Proof.
  unfold productSchema, string_min. simpl.
  rewrite violation_on_app, violation_on_range by reflexivity.
  apply Morphisms_Prop.or_iff_morphism; [|done].
  destruct (decide (String.length (type x) < 1)%nat) as [Hl|Hl].
  - rewrite violation_on_singleton. destruct (type x); simpl in *; [tauto|lia].
  - split; [intros H; destruct (violation_on_nil _ H)|].
    intros [_ E]. rewrite E in Hl. simpl in Hl. lia.
Qed.

(** Where the object part reports: a measurement that is not a number of
    the range, a present birta that is not one, an empty product list, or a
    product field. *)
Lemma violation_on_object p c :
  violation_on p (issues (objectSchema c))
  ↔ (∃ f, p = [Key (field_name f)] ∧ ¬ in_range 0 9999.99 (field_value f c))
    ∨ (p = [Key "birta"] ∧ ∃ b, Form.birta c = Some b ∧ ¬ in_range 0 9999 b)
    ∨ (p = [Key "products"] ∧ Form.products c = [])
    ∨ (∃ i x, Form.products c !! i = Some x
          ∧ ((p = [Key "products"; Index i; Key "type"] ∧ type x = "")
             ∨ (p = [Key "products"; Index i; Key "quantity"]
                ∧ ¬ in_range 0 9999 (quantity x)))).
Proof.
  unfold objectSchema, measurement. cbn [issues merge].
  rewrite !violation_on_app, !violation_on_range, violation_on_array by reflexivity.
  split.
  - intros [H|[H|[H|[H|[H|[H|[H|[H|H]]]]]]]].
    + left. exists f_cement. done.
    + left. exists f_aggregate. done.
    + left. exists f_sand. done.
    + left. exists f_water. done.
    + left. exists f_plastizer. done.
    + right. left. destruct (Form.birta c) as [b|]; simpl in H.
      * apply violation_on_range in H as [-> H]; [eauto|done|done].
      * destruct (violation_on_nil _ H).
    + left. exists f_colorQuantity. done.
    + right. right. left. destruct H as [-> H]. split; [done|].
      destruct (Form.products c); [done|simpl in H; lia].
    + right. right. right. destruct H as (i & x & Hl & H).
      exists i, x. split; [done|]. apply violation_on_product in H. exact H.
  - intros [(f & -> & H)|[(-> & b & Hb & H)|[[-> H]|(i & x & Hl & H)]]].
    + destruct f; simpl in *; tauto.
    + do 5 right. left. rewrite Hb. simpl. rewrite violation_on_range by reflexivity. tauto.
    + rewrite H. simpl. do 7 right. left. split; [done|lia].
    + do 8 right. exists i, x. split; [done|]. apply violation_on_product. exact H.
Qed.

(** The object part refuses the candidate exactly when a numeric field does
    not hold a number. *)
Lemma aborted_object c : aborted (objectSchema c) = false ↔ all_numbers c.
Proof.
  unfold objectSchema, measurement, all_numbers. cbn [aborted merge].
  rewrite !orb_false_iff, !aborted_range, aborted_array. split.
  - intros (H1 & H2 & H3 & H4 & H5 & H6 & H7 & H8). split; [|split].
    + by intros [].
    + intros b E. rewrite E in H6. simpl in H6. by apply aborted_range in H6.
    + intros p Hp. apply list_elem_of_lookup in Hp as [i Hi].
      specialize (H8 i p Hi). unfold productSchema in H8. simpl in H8.
      by apply aborted_range in H8.
  - intros (Hf & Hb & Hp). repeat split.
    + apply (Hf f_cement).
    + apply (Hf f_aggregate).
    + apply (Hf f_sand).
    + apply (Hf f_water).
    + apply (Hf f_plastizer).
    + destruct (Form.birta c) as [b|]; simpl; [|done]. apply aborted_range. by apply Hb.
    + apply (Hf f_colorQuantity).
    + intros i a Hi. unfold productSchema. simpl. apply aborted_range.
      apply Hp. by eapply list_elem_of_lookup_2.
Qed.

Lemma issues_refine {A} (schema : A → ParseReturn) check msg p data :
  issues (refine schema check msg p data)
  = issues (schema data)
    ++ (if aborted (schema data) then []
        else if check data then [] else [mkIssue custom p (Some msg)]).
Proof.
  unfold refine. destruct (aborted (schema data)); [by rewrite app_nil_r|].
  destruct (check data); [by rewrite app_nil_r | done].
Qed.

Lemma aborted_refine {A} (schema : A → ParseReturn) check msg p data :
  aborted (refine schema check msg p data) = aborted (schema data).
Proof.
  unfold refine. destruct (aborted (schema data)) eqn:E; [done|].
  by destruct (check data).
Qed.

(** The issues of the five refinements, which run when the object part did
    not refuse the candidate. *)
Lemma validate_issues c :
  validate c
  = issues (objectSchema c)
    ++ (if aborted (objectSchema c) then []
        else
          (if check_birta c then []
           else [mkIssue custom [Key "birta"]
                   (Some "Birta is required for boards/tiir mix type")])
          ++ (if check_colorType c then []
              else [mkIssue custom [Key "colorType"] (Some "Invalid color type")])
          ++ (if check_productTypes c then []
              else [mkIssue custom [Key "products"]
                      (Some "Invalid product type for selected mix type")])
          ++ (if check_duplicates interlock c then []
              else [mkIssue custom [Key "products"]
                      (Some "Cannot select the same interlock type twice")])
          ++ (if check_duplicates boards_tiir c then []
              else [mkIssue custom [Key "products"]
                      (Some "Cannot select the same product type twice")])).
Proof.
  unfold validate, mixDataSchema.
  rewrite !issues_refine, !aborted_refine.
  destruct (aborted (objectSchema c)).
  - by rewrite !app_nil_r.
  - by rewrite <-!app_assoc.
Qed.

Lemma violation_on_check p (b : bool) c q m :
  violation_on p (if b then [] else [mkIssue c q m]) ↔ p = q ∧ b = false.
Proof.
  destruct b.
  - split; [intros H; destruct (violation_on_nil _ H) | intros [_ ?]; discriminate].
  - rewrite violation_on_singleton. tauto.
Qed.

Lemma violation_on_validate p c :
  violation_on p (validate c)
  ↔ violation_on p (issues (objectSchema c))
    ∨ (all_numbers c
       ∧ ((p = [Key "birta"] ∧ check_birta c = false)
          ∨ (p = [Key "colorType"] ∧ check_colorType c = false)
          ∨ (p = [Key "products"]
             ∧ (check_productTypes c = false
                ∨ check_duplicates interlock c = false
                ∨ check_duplicates boards_tiir c = false)))).
Proof.
  rewrite validate_issues, violation_on_app, <-aborted_object.
  apply Morphisms_Prop.or_iff_morphism; [done|].
  destruct (aborted (objectSchema c)).
  - split; [intros H; destruct (violation_on_nil _ H) | intros [? _]; discriminate].
  - rewrite !violation_on_app, !violation_on_check. tauto.
Qed.

Lemma includes_false arr x : includes arr x = false ↔ x ∉ arr.
Proof. unfold includes. apply bool_decide_eq_false. Qed.

Lemma check_birta_false c :
  check_birta c = false
  ↔ Form.mixType c = boards_tiir ∧ (Form.birta c = None ∨ Form.birta c = Some Null).
Proof.
  unfold check_birta.
  destruct (bool_decide_reflect (Form.mixType c = boards_tiir)),
    (bool_decide_reflect (Form.birta c = None)),
    (bool_decide_reflect (Form.birta c = Some Null)); simpl; split;
    try tauto; try discriminate; intros [? [?|?]]; done.
Qed.

Lemma check_colorType_false c :
  check_colorType c = false ↔ Form.colorType c ≠ "" ∧ Form.colorType c ∉ colorOptions.
Proof.
  unfold check_colorType. rewrite orb_false_iff, includes_false.
  rewrite bool_decide_eq_false. tauto.
Qed.

Lemma check_productTypes_false c :
  check_productTypes c = false
  ↔ ∃ p, p ∈ Form.products c ∧ type p ∉ vocabulary (Form.mixType c).
Proof.
  unfold check_productTypes.
  assert (Hall : ∀ arr ps,
    forallb (λ product : Product, includes arr (type product)) ps = false
    ↔ ∃ p, p ∈ ps ∧ type p ∉ arr).
  { intros arr ps. induction ps as [|a ps IH]; simpl.
    - split; [discriminate|]. intros (p & Hp & _). by apply elem_of_nil in Hp.
    - rewrite andb_false_iff, IH, includes_false. split.
      + intros [H|(p & Hp & H)]; [exists a|exists p]; split; auto; constructor; done.
      + intros (p & Hp & H). apply elem_of_cons in Hp as [->|Hp]; eauto. }
  destruct (bool_decide_reflect (0 < length (Form.products c))%nat) as [Hlen|Hlen].
  - destruct (Form.mixType c); apply Hall.
  - split; [discriminate|]. intros (p & Hp & _).
    destruct (Form.products c); [by apply elem_of_nil in Hp | simpl in Hlen; lia].
Qed.

(** [new Set(types).size] never exceeds [types.length], and equals it only
    when no string occurs twice. *)
Lemma size_list_to_set_NoDup (l : list string) :
  (size (list_to_set l : gset string) ≤ length l)%nat
  ∧ (length l = size (list_to_set l : gset string) → NoDup l).
Proof.
  induction l as [|x l [IHle IHeq]]; simpl.
  - split; [done | intros _; constructor].
  - destruct (decide (x ∈ l)) as [Hin|Hin].
    + rewrite (subseteq_union_1_L {[x]} (list_to_set l))
        by (apply singleton_subseteq_l, elem_of_list_to_set, Hin).
      split; lia.
    + rewrite size_union by set_solver. rewrite size_singleton.
      split; [lia|]. intros E. constructor; [done|]. apply IHeq. lia.
Qed.

Lemma types_unique_false ps :
  Forall (λ p, type p ≠ "") ps → ¬ NoDup (type <$> ps) → types_unique ps = false.
Proof.
  intros Hne Hdup. unfold types_unique. apply bool_decide_eq_false. intros E.
  apply Hdup.
  assert (filter (λ s : string, s ≠ "") (type <$> ps) = type <$> ps) as Hf.
  { clear E Hdup. induction Hne as [|p ps Hp _ IH]; [done|].
    rewrite fmap_cons, filter_cons_True by done. by rewrite IH. }
  rewrite Hf in E. by apply size_list_to_set_NoDup.
Qed.

Lemma duplicate_type_NoDup ps : duplicate_type ps ↔ ¬ NoDup (type <$> ps).
Proof.
  split.
  - intros (i & j & p & q & Hij & Hi & Hj & E) Hnd. apply Hij.
    eapply NoDup_alt; [exact Hnd| |]; rewrite list_lookup_fmap.
    + rewrite Hi. reflexivity.
    + rewrite Hj. simpl. by rewrite E.
  - intros Hnd. induction ps as [|a ps IH]; [destruct Hnd; constructor|].
    destruct (decide (type a ∈ type <$> ps)) as [Hin|Hin].
    + apply list_elem_of_fmap in Hin as (q & E & Hq).
      apply list_elem_of_lookup in Hq as [j Hj].
      exists 0%nat, (S j), a, q. done.
    + destruct IH as (i & j & p & q & Hij & Hi & Hj & E).
      { intros H. apply Hnd. simpl. by constructor. }
      exists (S i), (S j), p, q. split; [lia|done].
Qed.

Lemma duplicate_type_perm ps ps' : ps ≡ₚ ps' → duplicate_type ps → duplicate_type ps'.
Proof. intros Hp. rewrite !duplicate_type_NoDup. by rewrite Hp. Qed.

Lemma vocabulary_nonempty m s : s ∈ vocabulary m → s ≠ "".
Proof.
  intros Hin ->. destruct m; simpl in Hin;
    repeat (apply elem_of_cons in Hin as [Hin|Hin]; [discriminate|]);
    by apply elem_of_nil in Hin.
Qed.

(** On a candidate whose numeric fields hold numbers, a product type that
    occurs twice is reported on [products]: by the duplicate refinement of
    the mix type when all types are in its vocabulary, by the vocabulary
    refinement otherwise. *)
Lemma duplicate_reported c :
  all_numbers c → duplicate_type (Form.products c) →
  violation_on [Key "products"] (validate c).
Proof.
  intros Hnum Hdup. apply violation_on_validate. right. split; [done|].
  do 2 right. split; [done|].
  destruct (check_productTypes c) eqn:Hvoc; [right | by left].
  assert (Forall (λ p, type p ∈ vocabulary (Form.mixType c)) (Form.products c)) as Hall.
  { apply Forall_forall. intros p Hp.
    destruct (decide (type p ∈ vocabulary (Form.mixType c))) as [|Hn]; [done|].
    assert (check_productTypes c = false) as E
      by (apply check_productTypes_false; eauto).
    rewrite E in Hvoc. discriminate. }
  assert (types_unique (Form.products c) = false) as Hu.
  { apply types_unique_false; [|by apply duplicate_type_NoDup].
    eapply Forall_impl; [exact Hall|]. intros p. apply vocabulary_nonempty. }
  assert (0 < length (Form.products c))%nat as Hlen.
  { destruct Hdup as (i & _ & p & _ & _ & Hi & _).
    apply lookup_lt_Some in Hi. lia. }
  unfold check_duplicates. rewrite (bool_decide_eq_true_2 _ Hlen), !andb_true_r.
  destruct (Form.mixType c); simpl; rewrite Hu; auto.
Qed.

Lemma violation_not_accepted p c : violation_on p (validate c) → ¬ accepted c.
Proof.
  unfold accepted. intros H E. rewrite E in H. by apply violation_on_nil in H.
Qed.

(** An accepted candidate has numbers in all its numeric fields. *)
Lemma accepted_all_numbers c : accepted c → all_numbers c.
Proof.
  intros Hacc.
  assert (∀ p, ¬ violation_on p (issues (objectSchema c))) as Hobj.
  { intros p H. eapply violation_not_accepted; [|exact Hacc].
    apply violation_on_validate. by left. }
  split; [|split].
  - intros f. destruct (in_range_dec 0 9999.99 (field_value f c)) as [H|H].
    + by eapply in_range_is_number.
    + destruct (Hobj [Key (field_name f)]). apply violation_on_object. left. eauto.
  - intros b E. destruct (in_range_dec 0 9999 b) as [H|H].
    + by eapply in_range_is_number.
    + destruct (Hobj [Key "birta"]). apply violation_on_object. right. left. eauto.
  - intros p Hp. destruct (in_range_dec 0 9999 (quantity p)) as [H|H].
    + by eapply in_range_is_number.
    + apply list_elem_of_lookup in Hp as [i Hi].
      destruct (Hobj [Key "products"; Index i; Key "quantity"]).
      apply violation_on_object. do 3 right. exists i, p. split; [done|]. by right.
Qed.


(** ** The validator on concrete candidates *)

Example interlock_ok_accepted : validate interlock_ok = [].
Proof. reflexivity. Qed.

Example four_violations_paths :
  path <$> validate four_violations
  = [[Key "cement"]; [Key "birta"]; [Key "colorType"]; [Key "products"]].
Proof. reflexivity. Qed.

Example tiir_under_interlock_issue :
  validate tiir_under_interlock
  = [mkIssue custom [Key "products"]
       (Some "Invalid product type for selected mix type")].
Proof. reflexivity. Qed.

(** With the cement input left blank the schema stops at the type of
    [cement]: none of the other three broken rules is reported. *)
Example blank_cement_issues :
  validate blank_cement = [mkIssue invalid_type [Key "cement"] None].
Proof. reflexivity. Qed.




(** The field-level schema of birta is not conditional on the mix type: an
    interlock candidate whose birta is 10000 gets a violation on [birta]. *)
Lemma C2_counterexample :
  Form.mixType (interlock_birta 10000) = interlock
  ∧ violation_on [Key "birta"] (validate (interlock_birta 10000)).
Proof. split; [reflexivity|]. apply (bool_decide_unpack _). vm_compute. exact I. Qed.

(** C2 (amended). For an interlock candidate a violation is reported on
    [birta] exactly when birta is present and outside [0, 9999]; an absent
    birta, or one within the range, is never reported. *)
Theorem C2_interlock_birta (c : Form.t) :
  Form.mixType c = interlock →
  violation_on [Key "birta"] (validate c)
  ↔ ∃ b, Form.birta c = Some b ∧ ¬ in_range 0 9999 b.
Proof.
  intros Hm. rewrite violation_on_validate, violation_on_object. split.
  - intros [[(f & E & _)|[[_ H]|[[E _]|(i & x & _ & [[E _]|[E _]])]]]
           |[_ [[_ H]|[[E _]|[E _]]]]]; try discriminate; try done.
    + destruct f; discriminate.
    + apply check_birta_false in H as [H _]. congruence.
  - intros H. left. right. left. done.
Qed.

Lemma C2_witness :
  (violation_on [Key "birta"] (validate (interlock_birta 50))
   ↔ ∃ b, Form.birta (interlock_birta 50) = Some b ∧ ¬ in_range 0 9999 b)
  ∧ ¬ violation_on [Key "birta"] (validate (interlock_birta 50)).
Proof.
  split.
  - apply (C2_interlock_birta (interlock_birta 50)). reflexivity.
  - intros H. apply (bool_decide_pack _) in H. vm_compute in H. exact H.
Defined.




(** Garden twice with a blank quantity: the duplicate is not reported on
    [products]. *)
Lemma C6_counterexample :
  duplicate_type (Form.products garden_twice_blank)
  ∧ ¬ violation_on [Key "products"] (validate garden_twice_blank).
Proof.
  split.
  - exists 0%nat, 1%nat, (mkProduct "Garden" (int 1)), (mkProduct "Garden" (Num nan)). done.
  - intros H. apply (bool_decide_pack _) in H. vm_compute in H. exact H.
Qed.

Lemma all_numbers_perm c ps' :
  Form.products c ≡ₚ ps' → all_numbers c → all_numbers (with_products ps' c).
Proof.
  intros Hp (Hf & Hb & Hq). split; [|split]; simpl.
  - intros f. specialize (Hf f). by destruct f.
  - done.
  - intros p Hin. apply Hq. by rewrite Hp.
Qed.

(** C6 (amended). On a candidate all of whose numeric fields hold numbers,
    two entries of the product list with the same type give a violation on
    [products]; the candidate's mix type is arbitrary, and the same holds
    for the candidate with its products in any other order. *)
Theorem C6_duplicate_types_reported (c : Form.t) (ps' : list Product) :
  all_numbers c →
  duplicate_type (Form.products c) → Form.products c ≡ₚ ps' →
  violation_on [Key "products"] (validate c)
  ∧ violation_on [Key "products"] (validate (with_products ps' c)).
Proof.
  intros Hnum Hdup Hperm. split; [by apply duplicate_reported|].
  apply duplicate_reported; [by apply all_numbers_perm|].
  simpl. by eapply duplicate_type_perm.
Qed.

Lemma C6_witness :
  violation_on [Key "products"] (validate (garden_twice boards_tiir))
  ∧ violation_on [Key "products"]
      (validate (with_products
         [mkProduct "Tiir" (int 2); mkProduct "Garden" (int 3); mkProduct "Garden" (int 1)]
         (garden_twice boards_tiir))).
Proof.
  apply (C6_duplicate_types_reported (garden_twice boards_tiir)).
  - split; [|split].
    + by intros [].
    + intros b E. by injection E as <-.
    + intros p Hp. simpl in Hp.
      repeat (apply elem_of_cons in Hp as [->|Hp]; [done|]). by apply elem_of_nil in Hp.
  - exists 0%nat, 2%nat, (mkProduct "Garden" (int 1)), (mkProduct "Garden" (int 3)). done.
  - simpl. apply (Permutation_cons_append [_; _]).
Defined.

(** Tiir under interlock with the water input left blank: nothing is
    reported on [products]. *)
Lemma C7_counterexample :
  mkProduct "Tiir" (int 10) ∈ Form.products tiir_under_interlock_blank
  ∧ ("Tiir" ∉ vocabulary (Form.mixType tiir_under_interlock_blank))
  ∧ ¬ violation_on [Key "products"] (validate tiir_under_interlock_blank).
Proof.
  split; [apply list_elem_of_singleton; reflexivity|].
  split; [apply includes_false; reflexivity|].
  intros H. apply (bool_decide_pack _) in H. vm_compute in H. exact H.
Qed.

(** C7 (amended). The vocabularies are the six interlock types (Garden
    among them) and the two boards/tiir types, and a candidate all of whose
    numeric fields hold numbers and one of whose products has a type
    outside the vocabulary of the candidate's mix type gets a violation on
    [products]. *)
Theorem C7_vocabulary_enforced (c : Form.t) (p : Product) :
  all_numbers c →
  p ∈ Form.products c → type p ∉ vocabulary (Form.mixType c) →
  violation_on [Key "products"] (validate c)
  ∧ vocabulary interlock
    = ["Block Interlock"; "Buuor Interlock"; "Daimond Interlock";
       "Tiiba Talyaani Interlock"; "York Shir Interlock"; "Garden"]
  ∧ vocabulary boards_tiir = ["Tiir"; "Boards"].
Proof.
  intros Hnum Hp Hv. split; [|done].
  apply violation_on_validate. right. split; [done|]. do 2 right. split; [done|]. left.
  apply check_productTypes_false. eauto.
Qed.

Lemma C7_witness :
  violation_on [Key "products"] (validate tiir_under_interlock)
  ∧ vocabulary interlock
    = ["Block Interlock"; "Buuor Interlock"; "Daimond Interlock";
       "Tiiba Talyaani Interlock"; "York Shir Interlock"; "Garden"]
  ∧ vocabulary boards_tiir = ["Tiir"; "Boards"].
Proof.
  apply (C7_vocabulary_enforced tiir_under_interlock (mkProduct "Tiir" (int 10))).
  - split; [|split].
    + by intros [].
    + intros b E. discriminate.
    + intros p Hp. simpl in Hp. apply list_elem_of_singleton in Hp as ->. done.
  - simpl. apply list_elem_of_singleton. reflexivity.
  - apply includes_false. reflexivity.
Defined.

(** C5. No violation is reported on [colorType] when the colour is empty,
    and one is reported only for a colour that is neither empty nor one of
    Red, Pure Red, White, Black, Yellow; a candidate with such a colour is
    never accepted, and the violation is on [colorType] whenever its
    numeric fields hold numbers. The submission step turns the empty
    colour into ["No Color"], keeps any other colour, and hands every other
    field on as it is. *)
Theorem C5_colorType (c : Form.t) :
  (Form.colorType c = "" → ¬ violation_on [Key "colorType"] (validate c))
  ∧ (Form.colorType c ≠ ""
     ∧ (Form.colorType c ∉ ["Red"; "Pure Red"; "White"; "Black"; "Yellow"])
     → ¬ accepted c ∧ (all_numbers c → violation_on [Key "colorType"] (validate c)))
  ∧ (violation_on [Key "colorType"] (validate c)
     → Form.colorType c ≠ ""
       ∧ (Form.colorType c ∉ ["Red"; "Pure Red"; "White"; "Black"; "Yellow"]))
  ∧ FormData.colorType (transformedData c)
    = (if decide (Form.colorType c = "") then "No Color" else Form.colorType c)
  ∧ FormData.mixType (transformedData c) = Form.mixType c
  ∧ FormData.cement (transformedData c) = Form.cement c
  ∧ FormData.aggregate (transformedData c) = Form.aggregate c
  ∧ FormData.sand (transformedData c) = Form.sand c
  ∧ FormData.water (transformedData c) = Form.water c
  ∧ FormData.plastizer (transformedData c) = Form.plastizer c
  ∧ FormData.birta (transformedData c) = Form.birta c
  ∧ FormData.colorQuantity (transformedData c) = Form.colorQuantity c
  ∧ FormData.products (transformedData c) = Some (Form.products c).
Proof.
  assert (violation_on [Key "colorType"] (validate c)
          → Form.colorType c ≠ "" ∧ Form.colorType c ∉ colorOptions) as Hsound.
  { rewrite violation_on_validate, violation_on_object.
    intros [[(f & E & _)|[[E _]|[[E _]|(i & x & _ & [[E _]|[E _]])]]]
           |[_ [[E _]|[[_ H]|[E _]]]]]; try discriminate.
    - destruct f; discriminate.
    - by apply check_colorType_false. }
  assert (Form.colorType c ≠ "" ∧ Form.colorType c ∉ colorOptions
          → all_numbers c → violation_on [Key "colorType"] (validate c)) as Hcomplete.
  { intros H Hnum. apply violation_on_validate. right. split; [done|]. right. left.
    split; [done|]. by apply check_colorType_false. }
  split; [|split; [|split; [exact Hsound|done]]].
  - intros E H. apply Hsound in H as [H _]. done.
  - intros H. split; [|by apply Hcomplete]. intros Hacc.
    eapply violation_not_accepted; [|exact Hacc].
    by apply Hcomplete, accepted_all_numbers.
Qed.

Lemma C5_witness :
  accepted no_colour
  ∧ ¬ violation_on [Key "colorType"] (validate no_colour)
  ∧ FormData.colorType (transformedData no_colour) = "No Color".
Proof.
  split; [reflexivity|].
  destruct (C5_colorType no_colour) as (Hempty & _ & _ & Hnorm & _).
  split; [apply Hempty; reflexivity | exact Hnorm].
Defined.

(** * Acceptance *)

Lemma no_violation_nil (l : list ZodIssue) : (∀ p, ¬ violation_on p l) → l = [].
Proof.
  destruct l as [|i l]; [done|]. intros H. destruct (H (path i)).
  unfold violation_on. simpl. left.
Qed.

Lemma not_in_colorOptions_No_Color : "No Color" ∉ colorOptions.
Proof. apply includes_false. reflexivity. Qed.

Lemma types_unique_true ps :
  NoDup (type <$> ps) → types_unique ps = true.
Proof.
  intros Hnd. unfold types_unique. apply bool_decide_eq_true.
  symmetry. apply size_list_to_set. by apply NoDup_filter.
Qed.

Lemma accepted_well_formed c : accepted c ↔ well_formed c.
Proof.
  split.
  - intros Hacc. pose proof (accepted_all_numbers c Hacc) as Hnum.
    assert (∀ p, ¬ violation_on p (validate c)) as Hno.
    { intros p H. by eapply violation_not_accepted. }
    assert (∀ p, ¬ violation_on p (issues (objectSchema c))) as Hobj.
    { intros p H. apply (Hno p), violation_on_validate. by left. }
    split; [|split; [|split; [|split; [|split; [|split]]]]].
    + intros f. destruct (in_range_dec 0 9999.99 (field_value f c)) as [|Hn]; [done|].
      destruct (Hobj [Key (field_name f)]). apply violation_on_object. left. eauto.
    + intros b E. destruct (in_range_dec 0 9999 b) as [|Hn]; [done|].
      destruct (Hobj [Key "birta"]). apply violation_on_object. right. left. eauto.
    + intros Hm Hb. destruct (Hno [Key "birta"]). apply violation_on_validate.
      right. split; [done|]. left. split; [done|]. apply check_birta_false. auto.
    + destruct (decide (Form.colorType c = "")) as [|Hne]; [by left|].
      destruct (decide (Form.colorType c ∈ colorOptions)) as [|Hni]; [by right|].
      destruct (Hno [Key "colorType"]). apply violation_on_validate.
      right. split; [done|]. right. left. split; [done|]. by apply check_colorType_false.
    + intros E. destruct (Hobj [Key "products"]). apply violation_on_object.
      do 2 right. left. done.
    + intros p Hp. split.
      * destruct (decide (type p ∈ vocabulary (Form.mixType c))) as [|Hni]; [done|].
        destruct (Hno [Key "products"]). apply violation_on_validate.
        right. split; [done|]. do 2 right. split; [done|]. left.
        apply check_productTypes_false. eauto.
      * destruct (in_range_dec 0 9999 (quantity p)) as [|Hn]; [done|].
        apply list_elem_of_lookup in Hp as [i Hi].
        destruct (Hobj [Key "products"; Index i; Key "quantity"]).
        apply violation_on_object. do 3 right. exists i, p. split; [done|]. by right.
    + destruct (decide (NoDup (type <$> Form.products c))) as [|Hn]; [done|].
      destruct (Hno [Key "products"]). apply duplicate_reported; [done|].
      by apply duplicate_type_NoDup.
  - intros (Hf & Hb & Hreq & Hcol & Hne & Hps & Hnd).
    apply no_violation_nil. intros p. rewrite violation_on_validate, violation_on_object.
    intros [[(f & _ & H)|[(_ & b & E & H)|[[_ H]|(i & x & Hi & H)]]]
           |[_ [[_ H]|[[_ H]|[_ [H|[H|H]]]]]]].
    + by apply H.
    + apply H. by apply Hb.
    + done.
    + apply list_elem_of_lookup_2 in Hi. destruct (Hps x Hi) as [Hv Hq].
      destruct H as [[_ E]|[_ H]]; [|by apply H].
      by apply vocabulary_nonempty in Hv.
    + apply check_birta_false in H as [Hm [E|E]]; [by apply Hreq|].
      by destruct (Hb _ E).
    + apply check_colorType_false in H as [H1 H2]. by destruct Hcol.
    + apply check_productTypes_false in H as (x & Hx & H). apply H. by apply Hps.
    + unfold check_duplicates in H. rewrite types_unique_true in H by done.
      by destruct (_ && _).
    + unfold check_duplicates in H. rewrite types_unique_true in H by done.
      by destruct (_ && _).
Qed.

(** X1. A candidate is accepted exactly when all rules hold: the six
    measurements within [0, 9999.99], a present birta within [0, 9999], a
    birta present for boards/tiir, the colour empty or in the palette, at
    least one product, every product's type in the vocabulary of the mix
    type and its quantity within [0, 9999], and no type twice. *)
Theorem X1_accepted_iff_rules (c : Form.t) :
  accepted c
  ↔ (∀ f, in_range 0 9999.99 (field_value f c))
    ∧ (∀ b, Form.birta c = Some b → in_range 0 9999 b)
    ∧ (Form.mixType c = boards_tiir → Form.birta c ≠ None)
    ∧ (Form.colorType c = "" ∨ Form.colorType c ∈ colorOptions)
    ∧ Form.products c ≠ []
    ∧ (∀ p, p ∈ Form.products c →
         type p ∈ vocabulary (Form.mixType c)
         ∧ in_range 0 9999 (quantity p))
    ∧ NoDup (type <$> Form.products c).
Proof. apply accepted_well_formed. Qed.

(** X2. Whether a candidate is accepted does not depend on the order of
    its products. *)
Theorem X2_acceptance_order_independent (c : Form.t) (ps' : list Product) :
  Form.products c ≡ₚ ps' → accepted c → accepted (with_products ps' c).
Proof.
  intros Hp. rewrite !accepted_well_formed.
  intros (Hf & Hb & Hreq & Hcol & Hne & Hps & Hnd).
  split; [|split; [|split; [|split; [|split; [|split]]]]]; simpl.
  - intros f. specialize (Hf f). by destruct f.
  - done.
  - done.
  - done.
  - intros ->. apply Hne. by apply Permutation_nil_r.
  - intros p Hin. apply Hps. by rewrite Hp.
  - by rewrite <-Hp.
Qed.

Lemma X2_witness :
  accepted
    (with_products [mkProduct "Garden" (int 50); mkProduct "Block Interlock" (int 100)]
       interlock_ok).
Proof.
  apply (X2_acceptance_order_independent interlock_ok).
  - apply perm_swap.
  - reflexivity.
Defined.

(** X3. Issues are only ever reported on the six measurements, on birta,
    colorType and products, and on the type or quantity of a product row
    that exists; never on mixType or anywhere else. *)
Theorem X3_reported_paths (c : Form.t) (p : Path) :
  violation_on p (validate c) →
  p ∈ [[Key "cement"]; [Key "aggregate"]; [Key "sand"]; [Key "water"];
       [Key "plastizer"]; [Key "colorQuantity"]; [Key "birta"]; [Key "colorType"];
       [Key "products"]]
  ∨ ∃ i, (i < length (Form.products c))%nat
         ∧ (p = [Key "products"; Index i; Key "type"]
            ∨ p = [Key "products"; Index i; Key "quantity"]).
Proof.
  rewrite violation_on_validate, violation_on_object.
  intros [[(f & -> & _)|[(-> & _)|[[-> _]|(i & x & Hi & H)]]]
         |[_ [[-> _]|[[-> _]|[-> _]]]]].
  - left. destruct f; simpl; set_solver.
  - left. set_solver.
  - left. set_solver.
  - right. exists i. split; [by eapply lookup_lt_Some|]. destruct H as [[-> _]|[-> _]]; auto.
  - left. set_solver.
  - left. set_solver.
  - left. set_solver.
Qed.

Lemma X3_witness :
  [Key "birta"]
  ∈ [[Key "cement"]; [Key "aggregate"]; [Key "sand"]; [Key "water"];
     [Key "plastizer"]; [Key "colorQuantity"]; [Key "birta"]; [Key "colorType"];
     [Key "products"]]
  ∨ ∃ i, (i < length (Form.products four_violations))%nat
         ∧ ([Key "birta"] = [Key "products"; Index i; Key "type"]
            ∨ [Key "birta"] = [Key "products"; Index i; Key "quantity"]).
Proof.
  apply (X3_reported_paths four_violations [Key "birta"]).
  apply (bool_decide_unpack _). vm_compute. exact I.
Defined.

(** * The store *)

(** ** Records through JSON *)

Lemma JSON_number_idemp n : JSON_number (JSON_number n) = JSON_number n.
Proof.
  destruct n as [x|]; simpl; [|done].
  destruct (is_finite x) eqn:Hf; [|done].
  destruct (x =? 0)%float eqn:Hz; simpl; [done|]. by rewrite Hf, Hz.
Qed.

Lemma JSON_product_idemp p : JSON_product (JSON_product p) = JSON_product p.
Proof. unfold JSON_product. simpl. by rewrite JSON_number_idemp. Qed.

Lemma JSON_measurements_idemp m :
  JSON_measurements (JSON_measurements m) = JSON_measurements m.
Proof.
  unfold JSON_measurements. simpl. rewrite !JSON_number_idemp. f_equal.
  - destruct (Measurements.birta m); simpl; [|done]. by rewrite JSON_number_idemp.
  - destruct (Measurements.products m) as [ps|]; simpl; [|done]. f_equal.
    rewrite <-list_fmap_compose. apply list_fmap_ext. intros _ p _. simpl.
    apply JSON_product_idemp.
Qed.

Lemma JSON_record_idemp r : JSON_record (JSON_record r) = JSON_record r.
Proof. unfold JSON_record. simpl. by rewrite JSON_measurements_idemp. Qed.

Lemma JSON_roundtrip_idemp l : JSON_roundtrip (JSON_roundtrip l) = JSON_roundtrip l.
Proof.
  unfold JSON_roundtrip. rewrite <-list_fmap_compose. apply list_fmap_ext.
  intros _ r _. simpl. apply JSON_record_idemp.
Qed.

(** A list of records that JSON gives back as they are: what the store
    itself has written. *)
Lemma JSON_roundtrip_stable l :
  Forall (λ r, JSON_record r = r) l → JSON_roundtrip l = l.
Proof.
  unfold JSON_roundtrip. induction 1 as [|r l Hr _ IH]; [done|].
  rewrite fmap_cons, Hr. f_equal. exact IH.
Qed.

Lemma JSON_roundtrip_filter_id id l :
  filter (λ item, MixData.id item ≠ id) (JSON_roundtrip l)
  = JSON_roundtrip (filter (λ item, MixData.id item ≠ id) l).
Proof.
  unfold JSON_roundtrip. induction l as [|r l IH]; [done|].
  rewrite fmap_cons, !filter_cons. simpl.
  destruct (decide (MixData.id r ≠ id)); by rewrite IH.
Qed.

Lemma filter_id_fresh id (l : list MixData.t) :
  (∀ item, item ∈ l → MixData.id item ≠ id) →
  filter (λ item, MixData.id item ≠ id) l = l.
Proof.
  intros Hall. induction l as [|x xs IH]; [done|].
  rewrite filter_cons_True by (apply Hall; left).
  f_equal. apply IH. intros item Hin. apply Hall. by right.
Qed.

Lemma getStoredData_setStoredData a b data ls :
  getStoredData a b (setStoredData Stores data ls) = JSON_roundtrip data.
Proof. reflexivity. Qed.

(** ** The entry form stores birta on an interlock record *)

(** C3. An interlock form that carries a birta of 50 passes validation, and
    the record it is stored as is an interlock record with birta 50. *)
Lemma C3_interlock_birta_stored :
  accepted (interlock_birta 50)
  ∧ ∃ r,
      onSubmit "t0" "t1" clock0 Stores (interlock_birta 50) None
      = (Some r, Some (Json (r :: mockMixData "t0" "t1")))
      ∧ MixData.mixType r = interlock
      ∧ Measurements.birta (MixData.measurements r) = Some (int 50).
Proof. split; [reflexivity|]. eexists. split; [reflexivity|]. split; reflexivity. Qed.

(** ** Deleting *)




(** * Creating, updating and deleting *)

(** X4. Storage that is empty or does not parse reads as the
    demonstration records. When [localStorage] accepts the writes, a create
    puts the new record in front of what was stored, and deleting the new
    record's id afterwards leaves the records stored before whose id is
    different; when no stored record had that id (ids are the clock reading
    and are not checked for uniqueness), the store holds again what it held
    before the creation, as JSON gives it back. *)
Theorem X4_create_then_delete (loaded_at day_before : string) (clock : Clock)
  (formData : FormData.t) (ls : LocalStorage) :
  let stored := getStoredData loaded_at day_before ls in
  let ls1 := (createMixData loaded_at day_before clock Stores formData ls).2 in
  let ls2 := (deleteMixData loaded_at day_before Stores (date_now clock) ls1).2 in
  getStoredData loaded_at day_before None = mockMixData loaded_at day_before
  ∧ getStoredData loaded_at day_before (Some Unparsable) = mockMixData loaded_at day_before
  ∧ getStoredData loaded_at day_before ls1
    = JSON_roundtrip (newMixData clock formData :: stored)
  ∧ getStoredData loaded_at day_before ls2
    = JSON_roundtrip (filter (λ item, MixData.id item ≠ date_now clock) stored)
  ∧ ((∀ item, item ∈ stored → MixData.id item ≠ date_now clock) →
     getStoredData loaded_at day_before ls2 = JSON_roundtrip stored
     ∧ (Forall (λ r, JSON_record r = r) stored →
        getStoredData loaded_at day_before ls2 = stored)).
Proof.
  intros stored ls1 ls2. split; [reflexivity|]. split; [reflexivity|].
  split; [reflexivity|].
  assert (getStoredData loaded_at day_before ls2
          = JSON_roundtrip (filter (λ item, MixData.id item ≠ date_now clock) stored)) as E.
  { subst ls2 ls1. unfold deleteMixData, createMixData. cbn [snd].
    rewrite !getStoredData_setStoredData, JSON_roundtrip_filter_id, JSON_roundtrip_idemp.
    rewrite filter_cons_False; [done|]. simpl. intros H. by apply H. }
  split; [exact E|]. intros Hfresh. rewrite E, filter_id_fresh by done.
  split; [done|]. apply JSON_roundtrip_stable.
Qed.

Lemma X4_witness :
  getStoredData "a" "b"
    (deleteMixData "a" "b" Stores (date_now clock0)
       (createMixData "a" "b" clock0 Stores (transformedData boards_ok) None).2).2
  = mockMixData "a" "b".
Proof.
  destruct (X4_create_then_delete "a" "b" clock0 (transformedData boards_ok) None)
    as (_ & _ & _ & _ & H).
  destruct H as [_ H].
  - intros item Hin.
    repeat (apply elem_of_cons in Hin as [->|Hin]; [simpl; discriminate|]).
    by apply elem_of_nil in Hin.
  - apply H. repeat constructor.
Defined.

(** X5. With writes that [localStorage] accepts, deleting is idempotent
    and deletions commute: deleting an id twice leaves what deleting it
    once leaves, and two ids can be deleted in either order; a write that
    is refused leaves storage as it was. *)
Theorem X5_delete_idempotent_commutes (loaded_at day_before a b : string)
  (ls : LocalStorage) :
  let del := λ id ls, (deleteMixData loaded_at day_before Stores id ls).2 in
  getStoredData loaded_at day_before (del a (del a ls))
  = getStoredData loaded_at day_before (del a ls)
  ∧ getStoredData loaded_at day_before (del a (del b ls))
    = getStoredData loaded_at day_before (del b (del a ls))
  ∧ (∀ item, item ∈ getStoredData loaded_at day_before (del a (del b ls))
             ↔ ∃ old, old ∈ getStoredData loaded_at day_before ls
                      ∧ MixData.id old ≠ a ∧ MixData.id old ≠ b
                      ∧ item = JSON_record old)
  ∧ (deleteMixData loaded_at day_before QuotaExceededError a ls).2 = ls.
Proof.
  intros del. subst del. unfold deleteMixData. cbn [snd].
  rewrite !getStoredData_setStoredData.
  generalize (getStoredData loaded_at day_before ls) as l. intros l.
  rewrite !JSON_roundtrip_filter_id, !JSON_roundtrip_idemp, !list_filter_filter.
  split; [|split; [|split; [|done]]].
  - f_equal. apply list_filter_iff. tauto.
  - f_equal. apply list_filter_iff. tauto.
  - intros item. unfold JSON_roundtrip. rewrite list_elem_of_fmap.
    setoid_rewrite list_elem_of_filter. split.
    + intros (old & -> & [? ?] & ?). eauto 10.
    + intros (old & ? & ? & ? & ->). eauto 10.
Qed.

(** ** Update *)

Section Update.

Variables (loaded_at day_before : string) (stamp : nat → string) (id : string)
  (formData : FormData.t) (ls : LocalStorage).

Let stored := getStoredData loaded_at day_before ls.
Let after :=
  getStoredData loaded_at day_before
    (updateMixData loaded_at day_before stamp Stores id formData ls).2.

Lemma update_lookup i item :
  stored !! i = Some item →
  ∃ item', after !! i = Some item'
    ∧ MixData.id item' = MixData.id item
    ∧ MixData.timestamp item' = MixData.timestamp item
    ∧ MixData.createdBy item' = MixData.createdBy item
    ∧ (MixData.id item ≠ id → item' = JSON_record item)
    ∧ (MixData.id item = id →
       MixData.mixType item' = FormData.mixType formData
       ∧ MixData.lastModified item' = stamp i
       ∧ MixData.measurements item'
         = JSON_measurements
             {| Measurements.cement := FormData.cement formData;
                Measurements.aggregate := FormData.aggregate formData;
                Measurements.sand := FormData.sand formData;
                Measurements.water := FormData.water formData;
                Measurements.plastizer := FormData.plastizer formData;
                Measurements.birta := FormData.birta formData;
                Measurements.colorType :=
                  or_string (FormData.colorType formData) "No Color";
                Measurements.colorQuantity := FormData.colorQuantity formData;
                Measurements.products := FormData.products formData |}).
Proof.
  intros Hi. subst after. unfold updateMixData. cbn [snd].
  rewrite getStoredData_setStoredData. unfold JSON_roundtrip.
  rewrite list_lookup_fmap, list_lookup_imap. fold stored. rewrite Hi.
  simpl. eexists. split; [reflexivity|].
  destruct (decide (MixData.id item = id)) as [E|Hne]; simpl.
  - repeat split; try done. do 2 f_equal.
    + by destruct (FormData.birta formData).
    + by destruct (FormData.products formData).
  - repeat split; try done.
Qed.

Lemma update_length : length after = length stored.
Proof.
  subst after. unfold updateMixData. cbn [snd].
  rewrite getStoredData_setStoredData. unfold JSON_roundtrip.
  by rewrite length_fmap, length_imap.
Qed.

Lemma find_none_all {A} (f : A → bool) (l : list A) :
  (∀ x, x ∈ l → f x = false) → List.find f l = None.
Proof.
  induction l as [|a l IH]; intros H; [done|]. simpl.
  rewrite (H a) by left. apply IH. intros x Hx. apply H. by right.
Qed.

(** What the call resolves with does not depend on the write. *)
Lemma update_result setItem :
  (∀ item, item ∈ stored → MixData.id item ≠ id)
  ∧ (updateMixData loaded_at day_before stamp setItem id formData ls).1 = Normal None
  ∨ ∃ r, (updateMixData loaded_at day_before stamp setItem id formData ls).1
         = Normal (Some r)
         ∧ JSON_record r ∈ after
         ∧ MixData.id r = id
         ∧ MixData.mixType r = FormData.mixType formData
         ∧ Measurements.products (MixData.measurements r) = FormData.products formData
         ∧ Measurements.birta (MixData.measurements r) = FormData.birta formData.
Proof.
  subst after. unfold updateMixData. cbn [fst snd].
  rewrite getStoredData_setStoredData. fold stored.
  match goal with |- context [List.find ?f ?l] => set (updated := l) end.
  destruct (List.find _ updated) as [r|] eqn:Hf.
  - right. exists r. split; [done|].
    apply find_some in Hf as [Hr Hrid]. apply list_elem_of_In in Hr.
    apply bool_decide_eq_true in Hrid.
    split; [unfold JSON_roundtrip; apply list_elem_of_fmap; eauto|].
    split; [done|].
    subst updated. apply elem_of_lookup_imap in Hr as (i & old & -> & Hold).
    destruct (decide (MixData.id old = id)) as [E|Hne]; simpl in *; [|done].
    split; [done|].
    split; [by destruct (FormData.products formData) | by destruct (FormData.birta formData)].
  - left. split; [|done]. intros item Hin Hid.
    apply list_elem_of_lookup in Hin as [i Hi].
    assert (∃ x, updated !! i = Some x ∧ MixData.id x = id) as (x & Hx & Hxid).
    { subst updated. rewrite list_lookup_imap. fold stored. rewrite Hi. simpl.
      eexists. split; [reflexivity|]. by rewrite decide_True by done. }
    apply list_elem_of_lookup_2, list_elem_of_In in Hx.
    apply (find_none _ _ Hf) in Hx. by apply bool_decide_eq_false in Hx.
Qed.

End Update.

(** X6. When [localStorage] accepts the write, an update keeps the stored
    list in shape: the same number of records, each position keeping its
    id, creation timestamp and owner; records with another id are what
    JSON gives back of them; every record with the given id takes the mix
    type of the form, a fresh lastModified, and as measurements what JSON
    gives back of the form's fields (an absent birta or product list in
    the form leaves none behind in the record, an empty colour becomes
    "No Color"). When the write is refused, storage is left as it was. *)
Theorem X6_update_positionwise (loaded_at day_before : string) (stamp : nat → string)
  (id : string) (formData : FormData.t) (ls : LocalStorage) :
  let stored := getStoredData loaded_at day_before ls in
  let after :=
    getStoredData loaded_at day_before
      (updateMixData loaded_at day_before stamp Stores id formData ls).2 in
  length after = length stored
  ∧ (∀ i item, stored !! i = Some item →
      ∃ item', after !! i = Some item'
        ∧ MixData.id item' = MixData.id item
        ∧ MixData.timestamp item' = MixData.timestamp item
        ∧ MixData.createdBy item' = MixData.createdBy item
        ∧ (MixData.id item ≠ id → item' = JSON_record item)
        ∧ (MixData.id item = id →
           MixData.mixType item' = FormData.mixType formData
           ∧ MixData.lastModified item' = stamp i
           ∧ MixData.measurements item'
             = JSON_measurements
                 {| Measurements.cement := FormData.cement formData;
                    Measurements.aggregate := FormData.aggregate formData;
                    Measurements.sand := FormData.sand formData;
                    Measurements.water := FormData.water formData;
                    Measurements.plastizer := FormData.plastizer formData;
                    Measurements.birta := FormData.birta formData;
                    Measurements.colorType :=
                      or_string (FormData.colorType formData) "No Color";
                    Measurements.colorQuantity := FormData.colorQuantity formData;
                    Measurements.products := FormData.products formData |}))
  ∧ (updateMixData loaded_at day_before stamp QuotaExceededError id formData ls).2 = ls.
Proof.
  intros stored after. split; [apply update_length|]. split; [|done].
  intros i item Hi. by apply update_lookup.
Qed.

Lemma X6_witness :
  ∃ item',
    getStoredData "a" "b"
      (updateMixData "a" "b" (λ _, "now") Stores "1" (transformedData boards_ok) None).2
      !! 1%nat
    = Some item'
    ∧ item' = MixData.mk "2" "b" boards_tiir
        (Measurements.mk (int 400) (int 1100) (int 750) (int 200) (int 8) (Some (int 50))
           "White" (int 30)
           (Some [mkProduct "Tiir" (int 200); mkProduct "Boards" (int 150)]))
        "demo-user" "b".
Proof.
  destruct (X6_update_positionwise "a" "b" (λ _, "now") "1" (transformedData boards_ok)
              None) as (_ & H & _).
  destruct (H 1%nat _ eq_refl) as (item' & Hl & _ & _ & _ & Hsame & _).
  exists item'. split; [exact Hl|]. rewrite Hsame by discriminate. reflexivity.
Defined.

(** X7. Updating an id that no stored record has resolves with
    [undefined] (it is not an error) and leaves the records as JSON gives
    them back; when a record has the id, the update resolves with a record
    of that id carrying the form's mix type, products and birta, whether
    or not [localStorage] accepts the write; when it does, the store then
    holds that record as JSON gives it back. *)
Theorem X7_update_result (loaded_at day_before : string) (stamp : nat → string)
  (setItem : SetItem) (id : string) (formData : FormData.t) (ls : LocalStorage) :
  let stored := getStoredData loaded_at day_before ls in
  let out := updateMixData loaded_at day_before stamp setItem id formData ls in
  ((∀ item, item ∈ stored → MixData.id item ≠ id) →
   out.1 = Normal None
   ∧ (setItem = Stores →
      getStoredData loaded_at day_before out.2 = JSON_roundtrip stored))
  ∧ ((∃ item, item ∈ stored ∧ MixData.id item = id) →
     ∃ r, out.1 = Normal (Some r)
       ∧ MixData.id r = id
       ∧ MixData.mixType r = FormData.mixType formData
       ∧ Measurements.products (MixData.measurements r) = FormData.products formData
       ∧ Measurements.birta (MixData.measurements r) = FormData.birta formData
       ∧ (setItem = Stores →
          JSON_record r ∈ getStoredData loaded_at day_before out.2)).
Proof.
  intros stored out. subst out.
  pose proof (update_lookup loaded_at day_before stamp id formData ls) as Hlook.
  pose proof (update_length loaded_at day_before stamp id formData ls) as Hlen.
  pose proof (update_result loaded_at day_before stamp id formData ls setItem) as Hres.
  cbv zeta in Hlook, Hlen, Hres. fold stored in Hlook, Hlen, Hres.
  split.
  - intros Hno. split.
    + destruct Hres as [[_ E]|(r & E & Hin & Hid & _)]; [done|].
      exfalso. unfold JSON_roundtrip in Hin.
      apply list_elem_of_lookup in Hin as [j Hj].
      assert (is_Some (stored !! j)) as [old Hold].
      { apply lookup_lt_is_Some. rewrite <-Hlen. by eapply lookup_lt_Some. }
      destruct (Hlook j old Hold) as (r' & Hl' & Hid' & _).
      rewrite Hj in Hl'. injection Hl' as <-. simpl in Hid'.
      apply (Hno old); [by eapply list_elem_of_lookup_2 | congruence].
    + intros ->. apply list_eq. intros i. unfold JSON_roundtrip.
      rewrite list_lookup_fmap. destruct (stored !! i) as [item|] eqn:Hi.
      * destruct (Hlook i item Hi) as (item' & -> & _ & _ & _ & Hsame & _).
        simpl. f_equal. apply Hsame, Hno. by eapply list_elem_of_lookup_2.
      * apply lookup_ge_None. rewrite Hlen. by apply lookup_ge_None.
  - intros (item & Hin & Hid).
    destruct Hres as [[Hno _]|(r & E & Hr & Hrid & Hm & Hp & Hb)].
    + by destruct (Hno item Hin).
    + exists r. repeat (split; [done|]). by intros ->.
Qed.

Lemma X7_witness :
  (updateMixData "a" "b" (λ _, "now") Stores "7" (transformedData boards_ok) None).1
  = Normal None
  ∧ getStoredData "a" "b"
      (updateMixData "a" "b" (λ _, "now") Stores "7" (transformedData boards_ok) None).2
    = mockMixData "a" "b".
Proof.
  destruct (X7_update_result "a" "b" (λ _, "now") Stores "7" (transformedData boards_ok)
              None) as [H _].
  destruct H as [H1 H2].
  - intros item Hin.
    repeat (apply elem_of_cons in Hin as [->|Hin]; [simpl; discriminate|]).
    by apply elem_of_nil in Hin.
  - split; [exact H1|]. rewrite (H2 eq_refl). reflexivity.
Defined.

(** * The paged listing *)

Lemma sort_insert_perm {A} (cmp : A → A → Z) x l : sort_insert cmp x l ≡ₚ x :: l.
Proof.
  induction l as [|y l IH]; simpl; [done|].
  destruct (decide (cmp x y ≤ 0)%Z); [done|]. rewrite IH. apply perm_swap.
Qed.

Lemma sort_perm {A} (cmp : A → A → Z) l : sort cmp l ≡ₚ l.
Proof.
  induction l as [|x l IH]; simpl; [done|].
  rewrite sort_insert_perm. by rewrite IH.
Qed.

(** Equal elements keep their order: the sort is stable. *)
Lemma sort_insert_filter {A} (cmp : A → A → Z) (P : A → Prop)
  `{∀ x, Decision (P x)} x l :
  (∀ y, P x → P y → cmp x y ≤ 0)%Z →
  filter P (sort_insert cmp x l) = filter P (x :: l).
Proof.
  intros Hcmp. induction l as [|y l IH]; simpl; [done|].
  destruct (decide (cmp x y ≤ 0)%Z) as [|Hgt]; [done|].
  rewrite filter_cons, IH, !filter_cons.
  destruct (decide (P x)), (decide (P y)); try done.
  exfalso. apply Hgt. by apply Hcmp.
Qed.

Section ListingFacts.

Variables (loaded_at day_before : string) (getTime : string → Z).

Lemma newest_sort_insert_sorted x l :
  StronglySorted (not_older getTime) l →
  StronglySorted (not_older getTime) (sort_insert (newestFirst getTime) x l).
Proof.
  induction 1 as [|y l Hl IH Hy]; simpl; [repeat constructor|].
  destruct (decide (newestFirst getTime x y ≤ 0)%Z) as [Hle|Hgt].
  - constructor; [by constructor|].
    assert (not_older getTime x y) as Hxy by (unfold not_older, newestFirst in *; lia).
    constructor; [done|]. eapply Forall_impl; [exact Hy|].
    intros z Hz. unfold not_older in *. lia.
  - constructor; [done|]. rewrite sort_insert_perm. constructor; [|done].
    unfold not_older, newestFirst in *. lia.
Qed.

Lemma newest_sort_sorted l : StronglySorted (not_older getTime) (sort (newestFirst getTime) l).
Proof.
  induction l as [|x l IH]; simpl; [constructor|].
  by apply newest_sort_insert_sorted.
Qed.

Lemma newest_sort_stable t l :
  filter (λ r, getTime (MixData.timestamp r) = t) (sort (newestFirst getTime) l)
  = filter (λ r, getTime (MixData.timestamp r) = t) l.
Proof.
  induction l as [|x l IH]; simpl; [done|].
  rewrite sort_insert_filter.
  - by rewrite !filter_cons, IH.
  - intros y Hx Hy. unfold newestFirst. lia.
Qed.

Lemma StronglySorted_sublist {A} (R : relation A) l k :
  l `sublist_of` k → StronglySorted R k → StronglySorted R l.
Proof.
  induction 1 as [|x l k Hs IH|x l k Hs IH]; intros Hk; [done| |].
  - apply StronglySorted_inv in Hk as [Hk Hx]. constructor; [by apply IH|].
    apply Forall_forall. intros z Hz. rewrite Forall_forall in Hx. apply Hx.
    by apply (sublist_subseteq _ _ Hs).
  - apply StronglySorted_inv in Hk as [Hk _]. by apply IH.
Qed.

Lemma slice_sublist {A} (l : list A) a b : slice l a b `sublist_of` l.
Proof.
  unfold slice. etrans; [apply sublist_take|apply sublist_drop].
Qed.

Lemma slice_page {A} (l : list A) (a n : Z) :
  (0 ≤ a)%Z → (0 ≤ n)%Z →
  slice l a (a + n) = take (Z.to_nat n) (drop (Z.to_nat a) l).
Proof.
  intros Ha Hn. unfold slice.
  rewrite !decide_False by lia.
  destruct (decide (Z.of_nat (length l) ≤ a)%Z) as [Hge|Hlt].
  - rewrite (Z.min_r a) by lia. rewrite Nat2Z.id.
    rewrite (drop_ge l (length l)) by lia. rewrite (drop_ge l (Z.to_nat a)) by lia.
    by rewrite !take_nil.
  - rewrite (Z.min_l a) by lia.
    destruct (decide (a + n ≤ Z.of_nat (length l))%Z).
    + rewrite Z.min_l by lia. f_equal. lia.
    + rewrite Z.min_r by lia.
      rewrite !take_ge; [done| |]; rewrite length_drop; lia.
Qed.

Lemma queryFn_data page pageSize f ls :
  QueryResult.data (queryFn loaded_at day_before getTime page pageSize f ls)
  = slice (sort (newestFirst getTime) (matching loaded_at day_before f ls))
      ((page - 1) * pageSize) ((page - 1) * pageSize + pageSize).
Proof. unfold queryFn, matching. by destruct (filter_given f). Qed.

Lemma queryFn_count page pageSize f ls :
  QueryResult.count (queryFn loaded_at day_before getTime page pageSize f ls)
  = length (matching loaded_at day_before f ls).
Proof.
  unfold queryFn, matching. destruct (filter_given f); simpl;
    by rewrite (Permutation_length (sort_perm _ _)).
Qed.

Lemma queryFn_totalPages page pageSize f ls :
  QueryResult.totalPages (queryFn loaded_at day_before getTime page pageSize f ls)
  = Math_ceil_div (Z.of_nat (length (matching loaded_at day_before f ls))) pageSize.
Proof.
  unfold queryFn, matching. destruct (filter_given f); simpl;
    by rewrite (Permutation_length (sort_perm _ _)).
Qed.

Lemma Math_ceil_div_spec n d :
  (0 < d)%Z →
  ∃ q, Math_ceil_div n d = Some q ∧ (n ≤ q * d < n + d)%Z.
Proof.
  intros Hd. unfold Math_ceil_div. rewrite decide_False by lia.
  eexists. split; [done|].
  pose proof (Z.div_mod (- n) d ltac:(lia)) as E.
  pose proof (Z.mod_pos_bound (- n) d Hd) as B. nia.
Qed.

Lemma pages_join {A} (pageSize n : nat) (l : list A) :
  (0 < pageSize)%nat → (length l ≤ n * pageSize)%nat →
  mjoin ((λ p, take pageSize (drop (p * pageSize) l)) <$> seq 0 n) = l.
Proof.
  intros Hps. revert l. induction n as [|n IH]; intros l Hl.
  - simpl in *. destruct l; [done|simpl in Hl; lia].
  - assert (mjoin ((λ p, take pageSize (drop (p * pageSize) l)) <$> seq 1 n)
            = drop pageSize l) as E.
    { rewrite <-fmap_S_seq, <-list_fmap_compose.
      etrans; [|apply (IH (drop pageSize l)); rewrite length_drop; lia].
      f_equal. apply list_fmap_ext. intros _ p _. simpl. by rewrite drop_drop. }
    cbn [seq]. rewrite fmap_cons. simpl. rewrite E, drop_0. apply take_drop.
Qed.

End ListingFacts.

(** X10. Every listed record is a stored record that passes the mix-type
    filter; [count] is the number of stored records that pass it, whatever
    the page; without a filter, or with the empty string as filter, all
    stored records pass. *)
Theorem X10_listing_content (loaded_at day_before : string) (getTime : string → Z)
  (page pageSize : Z) (mixTypeFilter : option string) (ls : LocalStorage) :
  let stored := getStoredData loaded_at day_before ls in
  let res := queryFn loaded_at day_before getTime page pageSize mixTypeFilter ls in
  (∀ r, r ∈ QueryResult.data res →
     r ∈ stored
     ∧ (filter_given mixTypeFilter = true →
        Some (mixType_string (MixData.mixType r)) = mixTypeFilter))
  ∧ QueryResult.count res
    = (if filter_given mixTypeFilter
       then length (filter (λ item, Some (mixType_string (MixData.mixType item))
                                    = mixTypeFilter) stored)
       else length stored)
  ∧ (mixTypeFilter = None ∨ mixTypeFilter = Some "" →
     QueryResult.count res = length stored).
Proof.
  intros stored res. subst res. split; [|split].
  - intros r Hr. rewrite queryFn_data in Hr.
    apply (sublist_subseteq _ _ (slice_sublist _ _ _)) in Hr.
    rewrite sort_perm in Hr. unfold matching in Hr.
    destruct (filter_given mixTypeFilter).
    + apply list_elem_of_filter in Hr as [? ?]. done.
    + done.
  - rewrite queryFn_count. unfold matching. by destruct (filter_given mixTypeFilter).
  - intros [-> | ->]; by rewrite queryFn_count.
Qed.

(** X11. A page lists its records newest first, and the sort keeps records
    with the same instant in the order they are stored in. *)
Theorem X11_listing_newest_first (loaded_at day_before : string) (getTime : string → Z)
  (page pageSize : Z) (mixTypeFilter : option string) (ls : LocalStorage) :
  let res := queryFn loaded_at day_before getTime page pageSize mixTypeFilter ls in
  StronglySorted (not_older getTime) (QueryResult.data res)
  ∧ ((Z.of_nat (QueryResult.count res) ≤ pageSize)%Z →
     ∀ t, filter (λ r, getTime (MixData.timestamp r) = t)
            (QueryResult.data
               (queryFn loaded_at day_before getTime 1 pageSize mixTypeFilter ls))
          = filter (λ r, getTime (MixData.timestamp r) = t)
              (matching loaded_at day_before mixTypeFilter ls)).
Proof.
  intros res. subst res. split.
  - rewrite queryFn_data. eapply StronglySorted_sublist; [apply slice_sublist|].
    apply newest_sort_sorted.
  - rewrite queryFn_count. intros Hc t. rewrite queryFn_data.
    change ((1 - 1) * pageSize)%Z with 0%Z.
    rewrite (slice_page _ 0 pageSize) by lia. rewrite drop_0, take_ge.
    + apply newest_sort_stable.
    + rewrite (Permutation_length (sort_perm _ _)). lia.
Qed.

Lemma X11_witness :
  filter (λ r, Z.of_nat (String.length (MixData.timestamp r)) = 1%Z)
    (QueryResult.data
       (queryFn "a" "b" (λ s, Z.of_nat (String.length s)) 1 25 None None))
  = filter (λ r, Z.of_nat (String.length (MixData.timestamp r)) = 1%Z)
      (matching "a" "b" None None).
Proof.
  destruct (X11_listing_newest_first "a" "b" (λ s, Z.of_nat (String.length s)) 1 25 None
              None) as [_ H].
  apply H. simpl. lia.
Defined.

(** X12. For a positive page size the pages 1 to [totalPages], one after
    the other, are exactly the matching records sorted newest first: no
    record is lost or listed twice by the paging. *)
Theorem X12_pages_partition (loaded_at day_before : string) (getTime : string → Z)
  (pageSize : Z) (mixTypeFilter : option string) (ls : LocalStorage) :
  (0 < pageSize)%Z →
  ∃ n : nat,
    (∀ page,
       QueryResult.totalPages
         (queryFn loaded_at day_before getTime page pageSize mixTypeFilter ls)
       = Some (Z.of_nat n))
    ∧ mjoin ((λ p : nat,
               QueryResult.data
                 (queryFn loaded_at day_before getTime (Z.of_nat p) pageSize
                    mixTypeFilter ls)) <$> seq 1 n)
      = sort (newestFirst getTime) (matching loaded_at day_before mixTypeFilter ls)
    ∧ sort (newestFirst getTime) (matching loaded_at day_before mixTypeFilter ls)
      ≡ₚ matching loaded_at day_before mixTypeFilter ls.
Proof.
  intros Hps.
  set (l := matching loaded_at day_before mixTypeFilter ls).
  destruct (Math_ceil_div_spec (Z.of_nat (length l)) pageSize Hps) as (q & Hq & Hb).
  assert (0 ≤ q)%Z as Hq0 by nia.
  exists (Z.to_nat q). split; [|split].
  - intros page. rewrite queryFn_totalPages. fold l. rewrite Hq. f_equal. lia.
  - rewrite <-fmap_S_seq, <-list_fmap_compose.
    etrans; [|apply (pages_join (Z.to_nat pageSize) (Z.to_nat q))].
    + f_equal. apply list_fmap_ext. intros _ p _. unfold compose.
      rewrite queryFn_data. fold l.
      rewrite slice_page by lia. do 2 f_equal.
      replace (Z.of_nat (S p) - 1)%Z with (Z.of_nat p) by lia.
      rewrite Z2Nat.inj_mul by lia. by rewrite Nat2Z.id.
    + lia.
    + rewrite (Permutation_length (sort_perm _ _)). fold l. nia.
  - apply sort_perm.
Qed.

Lemma X12_witness :
  ∃ n : nat,
    (∀ page, QueryResult.totalPages (queryFn "a" "b" (λ _, 0%Z) page 1 None None)
             = Some (Z.of_nat n))
    ∧ mjoin ((λ p : nat,
               QueryResult.data (queryFn "a" "b" (λ _, 0%Z) (Z.of_nat p) 1 None None))
             <$> seq 1 n)
      = sort (newestFirst (λ _, 0%Z)) (matching "a" "b" None None)
    ∧ sort (newestFirst (λ _, 0%Z)) (matching "a" "b" None None)
      ≡ₚ matching "a" "b" None None.
Proof. apply (X12_pages_partition "a" "b" (λ _, 0%Z) 1 None None). lia. Defined.

Lemma slice_end_0 {A} (l : list A) a : slice l a 0 = [].
Proof.
  unfold slice. rewrite (decide_False (P := (0 < 0)%Z)) by lia.
  destruct (decide (a < 0)%Z); replace (Z.to_nat _) with 0%nat by lia; done.
Qed.

(** X13. With a positive page size, page [p ≥ 1] holds
    [min(pageSize, count - (p-1)·pageSize)] records (none once the records
    are used up), and [totalPages] is the least number of pages that hold
    [count] records; page 0 is always empty; with page size 0 every page is
    empty and [totalPages] is not a finite number. *)
Theorem X13_page_sizes (loaded_at day_before : string) (getTime : string → Z)
  (page pageSize : Z) (mixTypeFilter : option string) (ls : LocalStorage) :
  let res := queryFn loaded_at day_before getTime page pageSize mixTypeFilter ls in
  let count := Z.of_nat (QueryResult.count res) in
  ((0 < pageSize)%Z → (1 ≤ page)%Z →
     Z.of_nat (length (QueryResult.data res))
     = Z.max 0 (Z.min pageSize (count - (page - 1) * pageSize)))
  ∧ ((0 < pageSize)%Z →
     ∃ n, QueryResult.totalPages res = Some n
          ∧ (count ≤ n * pageSize < count + pageSize)%Z)
  ∧ ((0 ≤ pageSize)%Z → page = 0%Z → QueryResult.data res = [])
  ∧ (pageSize = 0%Z →
     QueryResult.data res = [] ∧ QueryResult.totalPages res = None).
Proof.
  intros res count. subst count res.
  rewrite queryFn_data, queryFn_count, queryFn_totalPages.
  set (l := sort (newestFirst getTime) (matching loaded_at day_before mixTypeFilter ls)).
  assert (length l = length (matching loaded_at day_before mixTypeFilter ls)) as El
    by apply (Permutation_length (sort_perm _ _)).
  rewrite <-El. split; [|split; [|split]].
  - intros Hps Hp. rewrite slice_page by nia.
    rewrite length_take, length_drop. nia.
  - intros Hps. by apply Math_ceil_div_spec.
  - intros Hps ->.
    replace ((0 - 1) * pageSize + pageSize)%Z with 0%Z by lia. apply slice_end_0.
  - intros ->. split; [|done].
    replace ((page - 1) * 0 + 0)%Z with 0%Z by lia. apply slice_end_0.
Qed.

Lemma X13_witness :
  Z.of_nat (length (QueryResult.data (queryFn "a" "b" (λ _, 0%Z) 2 1 None None)))
  = Z.max 0 (Z.min 1
       (Z.of_nat (QueryResult.count (queryFn "a" "b" (λ _, 0%Z) 2 1 None None))
        - (2 - 1) * 1)).
Proof.
  destruct (X13_page_sizes "a" "b" (λ _, 0%Z) 2 1 None None) as [H _].
  apply H; lia.
Defined.


Lemma modalData_take loaded_at day_before getTime ls :
  modalData loaded_at day_before getTime ls
  = Some (take 1000 (sort (newestFirst getTime) (getStoredData loaded_at day_before ls))).
Proof.
  unfold modalData. rewrite queryFn_data.
  change ((1 - 1) * 1000)%Z with 0%Z. rewrite (slice_page _ 0 1000) by lia.
  by rewrite drop_0.
Qed.

(** X21. The summary modals aggregate the first page of 1000 of the
    unfiltered listing: the newest 1000 stored records. With at most 1000
    stored records these are all stored records, newest first. *)
Theorem X21_modal_data (loaded_at day_before : string) (getTime : string → Z)
  (ls : LocalStorage) :
  let stored := getStoredData loaded_at day_before ls in
  modalData loaded_at day_before getTime ls
  = Some (take 1000 (sort (newestFirst getTime) stored))
  ∧ ((length stored ≤ 1000)%nat →
     modalData loaded_at day_before getTime ls = Some (sort (newestFirst getTime) stored)
     ∧ sort (newestFirst getTime) stored ≡ₚ stored
     ∧ StronglySorted (not_older getTime) (sort (newestFirst getTime) stored)).
Proof.
  intros stored.
  pose proof (modalData_take loaded_at day_before getTime ls) as E. fold stored in E.
  split; [exact E|]. intros Hlen. rewrite E. split; [|split].
  - rewrite take_ge; [done|].
    rewrite (Permutation_length (sort_perm _ _)). fold stored. lia.
  - apply sort_perm.
  - apply newest_sort_sorted.
Qed.

Lemma X21_witness :
  modalData "a" "b" (λ _, 0%Z) None
  = Some (sort (newestFirst (λ _, 0%Z)) (mockMixData "a" "b")).
Proof.
  destruct (X21_modal_data "a" "b" (λ _, 0%Z) None) as [_ H].
  apply H. simpl. lia.
Defined.

(** * The product rows of the entry form *)

Lemma isBoardsTiirTypeSelected_true ps ty :
  isBoardsTiirTypeSelected ps ty = true ↔ ∃ p, p ∈ ps ∧ type p = ty.
Proof.
  unfold isBoardsTiirTypeSelected. rewrite existsb_exists. split.
  - intros (p & Hin & H). exists p. split; [by apply list_elem_of_In|].
    by apply bool_decide_eq_true in H.
  - intros (p & Hin & H). exists p. split; [by apply list_elem_of_In|].
    by apply bool_decide_eq_true.
Qed.

Lemma isSelected_false ps index ty :
  isSelected ps index ty = false →
  ∀ i p, ps !! i = Some p → i ≠ index → type p ≠ ty.
Proof.
  intros Hsel i p Hi Hne Hty.
  assert (isSelected ps index ty = true) as E; [|congruence].
  unfold isSelected. apply existsb_exists. exists (i, p). split.
  - apply list_elem_of_In. by apply (elem_of_lookup_imap_2 pair ps p i).
  - simpl. rewrite bool_decide_eq_true_2 by done. by apply bool_decide_eq_true.
Qed.

Lemma filter_sublist_mono {A} (P : A → Prop) `{∀ x, Decision (P x)} (l k : list A) :
  l `sublist_of` k → filter P l `sublist_of` filter P k.
Proof.
  induction 1 as [|x l k _ IH|x l k _ IH]; [done| |].
  - rewrite !filter_cons. destruct (decide (P x)); [by constructor|done].
  - rewrite filter_cons. destruct (decide (P x)); [by constructor|done].
Qed.

Lemma types_unique_filtered ps :
  NoDup (filter (λ s, s ≠ "") (type <$> ps)) → types_unique ps = true.
Proof.
  intros Hnd. unfold types_unique. apply bool_decide_eq_true.
  symmetry. by apply size_list_to_set.
Qed.

(** X22. The interlock types still offered by "Add Interlock Type" are
    those no row carries, each once; none is left exactly when every
    interlock type is carried by some row. *)
Theorem X22_available_interlock_types (watchedProducts : list Product) :
  (∀ ty, ty ∈ getAvailableInterlockTypes watchedProducts
         ↔ ty ∈ interlockTypes ∧ ∀ p, p ∈ watchedProducts → type p ≠ ty)
  ∧ NoDup (getAvailableInterlockTypes watchedProducts)
  ∧ (getAvailableInterlockTypes watchedProducts = []
     ↔ ∀ ty, ty ∈ interlockTypes → ∃ p, p ∈ watchedProducts ∧ type p = ty).
Proof.
  assert (∀ ty, ty ∈ getAvailableInterlockTypes watchedProducts
                ↔ ty ∈ interlockTypes ∧ ∀ p, p ∈ watchedProducts → type p ≠ ty) as Hin.
  { intros ty. unfold getAvailableInterlockTypes. rewrite list_elem_of_filter.
    split.
    - intros [Hn Hty]. split; [done|]. intros p Hp E. apply Hn.
      apply Is_true_true, bool_decide_eq_true, list_elem_of_filter. split.
      + intros ->. by apply (vocabulary_nonempty interlock "").
      + rewrite <-E. by apply list_elem_of_fmap_2.
    - intros [Hty Hno]. split; [|done]. intros Hs.
      apply Is_true_true, bool_decide_eq_true, list_elem_of_filter in Hs as [_ Hs].
      apply list_elem_of_fmap in Hs as (p & -> & Hp). by apply (Hno p). }
  split; [exact Hin|]. split.
  - unfold getAvailableInterlockTypes. apply NoDup_filter.
    apply (bool_decide_unpack _). vm_compute. exact I.
  - split.
    + intros E ty Hty.
      destruct (decide (Exists (λ p, type p = ty) watchedProducts)) as [Hex|Hnex].
      * by apply Exists_exists in Hex.
      * exfalso. assert (ty ∈ getAvailableInterlockTypes watchedProducts) as H.
        { apply Hin. split; [done|]. intros p Hp Ep. apply Hnex.
          apply Exists_exists. eauto. }
        rewrite E in H. by apply elem_of_nil in H.
    + intros Hall. destruct (getAvailableInterlockTypes watchedProducts) as [|ty l] eqn:E;
        [done|].
      assert (ty ∈ ty :: l) as H by left.
      apply Hin in H as [Hty Hno]. destruct (Hall ty Hty) as (p & Hp & Ep).
      by destruct (Hno p Hp).
Qed.

Lemma rows_ok_step s e s' : rows_ok s → form_step s e = Some s' → rows_ok s'.
Proof.
  destruct s as [m ps]. intros [Hnd Hin] Hstep. unfold rows_ok in *. simpl in *.
  destruct e as [|ty|index ty|index q|index|m'].
  - (* ClickAddInterlock *)
    destruct (bool_decide_reflect (m = interlock)) as [->|]; [|done].
    destruct (negb _); [|done]. injection Hstep as <-. simpl. split.
    + rewrite fmap_app, filter_app. simpl. rewrite filter_cons_False by tauto.
      by rewrite filter_nil, app_nil_r.
    + intros p Hp. apply elem_of_app in Hp as [Hp|Hp]; [by apply Hin|].
      apply list_elem_of_singleton in Hp as ->. by left.
  - (* ClickAdd *)
    destruct (bool_decide_reflect (m = boards_tiir)) as [->|]; [|done].
    destruct (includes boardsTiirTypes ty) eqn:Hty; [|done].
    destruct (isBoardsTiirTypeSelected ps ty) eqn:Hsel; [done|].
    injection Hstep as <-. simpl.
    apply bool_decide_eq_true in Hty.
    assert (∀ p, p ∈ ps → type p ≠ ty) as Hno.
    { intros p Hp E.
      assert (isBoardsTiirTypeSelected ps ty = true) as E'
        by (apply isBoardsTiirTypeSelected_true; eauto).
      congruence. }
    split.
    + rewrite fmap_app, filter_app. simpl.
      rewrite filter_cons_True by (by apply (vocabulary_nonempty boards_tiir)).
      rewrite filter_nil. apply NoDup_app. split; [done|]. split.
      * intros x Hx Hx'. apply list_elem_of_singleton in Hx' as ->.
        apply list_elem_of_filter in Hx as [_ Hx].
        apply list_elem_of_fmap in Hx as (p & E & Hp). by apply (Hno p).
      * apply NoDup_singleton.
    + intros p Hp. apply elem_of_app in Hp as [Hp|Hp]; [by apply Hin|].
      apply list_elem_of_singleton in Hp as ->. done.
  - (* SelectType *)
    destruct (ps !! index) as [p0|] eqn:Hp0; [|done].
    destruct (bool_decide_reflect (m = interlock)) as [->|]; [|done].
    simpl in Hstep.
    destruct (bool_decide (ty = "") || includes interlockTypes ty
              && negb (isSelected ps index ty)) eqn:Hguard; [|done].
    injection Hstep as <-. simpl.
    pose proof (lookup_lt_Some _ _ _ Hp0) as Hlt.
    rewrite insert_take_drop by done.
    rewrite <-(take_drop_middle ps index p0 Hp0) in Hnd.
    rewrite fmap_app, filter_app, fmap_cons, filter_cons in Hnd.
    assert (NoDup (filter (λ t, t ≠ "") (type <$> take index ps)
                   ++ filter (λ t, t ≠ "") (type <$> drop (S index) ps))) as Hnd'.
    { destruct (decide (type p0 ≠ "")); [|done].
      apply NoDup_app in Hnd as (H1 & H2 & H3).
      apply NoDup_cons in H3 as [_ H3]. apply NoDup_app. split; [done|].
      split; [|done]. intros x Hx Hx'. apply (H2 x Hx). by right. }
    split.
    + rewrite fmap_app, filter_app, fmap_cons, filter_cons. simpl.
      destruct (decide (ty ≠ "")) as [Hne|]; [|done].
      apply orb_true_iff in Hguard as [Hg|Hg];
        [by apply bool_decide_eq_true in Hg|].
      apply andb_true_iff in Hg as [_ Hsel]. apply negb_true_iff in Hsel.
      pose proof (isSelected_false ps index ty Hsel) as Hother.
      apply NoDup_app in Hnd' as (H1 & H2 & H3). apply NoDup_app.
      split; [done|]. split.
      * intros x Hx Hx'. apply elem_of_cons in Hx' as [->|Hx']; [|by apply (H2 x)].
        apply list_elem_of_filter in Hx as [_ Hx].
        apply list_elem_of_fmap in Hx as (p & E & Hp).
        apply list_elem_of_lookup in Hp as [i Hi].
        pose proof (lookup_lt_Some _ _ _ Hi) as Hi'. rewrite length_take in Hi'.
        rewrite lookup_take_lt in Hi by lia. apply (Hother i p Hi); [lia|done].
      * apply NoDup_cons. split; [|done]. intros Hx.
        apply list_elem_of_filter in Hx as [_ Hx].
        apply list_elem_of_fmap in Hx as (p & E & Hp).
        apply list_elem_of_lookup in Hp as [i Hi].
        rewrite lookup_drop in Hi. apply (Hother _ p Hi); [lia|done].
    + intros p Hp. apply elem_of_app in Hp as [Hp|Hp].
      * apply Hin. by eapply (sublist_subseteq _ _ (sublist_take _ _)).
      * apply elem_of_cons in Hp as [->|Hp].
        -- simpl. apply orb_true_iff in Hguard as [Hg|Hg].
           ++ left. by apply bool_decide_eq_true in Hg.
           ++ right. apply andb_true_iff in Hg as [Hg _].
              by apply bool_decide_eq_true in Hg.
        -- apply Hin. by eapply (sublist_subseteq _ _ (sublist_drop _ _)).
  - (* SetQuantity *)
    destruct (ps !! index) as [p0|] eqn:Hp0; [|done].
    injection Hstep as <-. simpl. split.
    + rewrite list_fmap_insert. simpl.
      rewrite list_insert_id; [done|]. by rewrite list_lookup_fmap, Hp0.
    + intros p Hp. pose proof (lookup_lt_Some _ _ _ Hp0) as Hlt.
      rewrite insert_take_drop in Hp by done.
      apply elem_of_app in Hp as [Hp|Hp].
      * apply Hin. by eapply (sublist_subseteq _ _ (sublist_take _ _)).
      * apply elem_of_cons in Hp as [->|Hp].
        -- simpl. apply (Hin p0). by eapply list_elem_of_lookup_2.
        -- apply Hin. by eapply (sublist_subseteq _ _ (sublist_drop _ _)).
  - (* Remove *)
    destruct (ps !! index) as [p0|] eqn:Hp0; [|done].
    injection Hstep as <-. simpl. split.
    + refine (sublist_NoDup _ _ Hnd _).
      apply filter_sublist_mono. apply fmap_sublist. apply sublist_delete.
    + intros p Hp. apply Hin. by eapply (sublist_subseteq _ _ (sublist_delete _ _)).
  - (* ChangeMixType *)
    destruct (bool_decide (m' = m)); injection Hstep as <-; simpl.
    + done.
    + split; [constructor|]. intros p Hp. by apply elem_of_nil in Hp.
Qed.

Lemma rows_ok_run es s s' : rows_ok s → form_run s es = Some s' → rows_ok s'.
Proof.
  revert s. induction es as [|e es IH]; intros s Hs Hrun; simpl in Hrun.
  - by injection Hrun as <-.
  - destruct (form_step s e) as [s1|] eqn:E; [|done].
    eapply IH; [|exact Hrun]. by eapply rows_ok_step.
Qed.

Lemma rows_ok_initial : rows_ok form_initial.
Proof. split; [constructor|]. intros p Hp. by apply elem_of_nil in Hp. Qed.

Lemma filter_nonempty_types ps :
  Forall (λ p, type p ≠ "") ps →
  filter (λ s : string, s ≠ "") (type <$> ps) = type <$> ps.
Proof.
  induction 1 as [|p ps Hp _ IH]; [done|].
  rewrite fmap_cons, filter_cons_True by done. by rewrite IH.
Qed.

(** X23. Whatever sequence of enabled controls the user works on the
    product rows of the entry form (adding, choosing a type, changing a
    quantity, removing, switching the mix type), the rows never trip the
    duplicate refinements. A boards/tiir form has at most two rows and is
    reported on [products] exactly when it has no row; an interlock form is
    reported on [products] only when it has no row or a row without a
    type: always when it has no row, and for a row without a type when all
    numeric fields of the form hold numbers. *)
Theorem X23_rows_never_break_rules (es : list FormEvent) (s : MixType * list Product)
  (c : Form.t) :
  form_run form_initial es = Some s → Form.mixType c = s.1 → Form.products c = s.2 →
  check_duplicates interlock c = true
  ∧ check_duplicates boards_tiir c = true
  ∧ (s.1 = boards_tiir →
     (length s.2 ≤ 2)%nat
     ∧ (violation_on [Key "products"] (validate c) ↔ s.2 = []))
  ∧ (s.1 = interlock →
     (violation_on [Key "products"] (validate c)
      → s.2 = [] ∨ ∃ p, p ∈ s.2 ∧ type p = "")
     ∧ (s.2 = [] → violation_on [Key "products"] (validate c))
     ∧ (all_numbers c → (∃ p, p ∈ s.2 ∧ type p = "")
        → violation_on [Key "products"] (validate c))).
Proof.
  intros Hrun Hm Hps.
  destruct (rows_ok_run es form_initial s rows_ok_initial Hrun) as [Hnd Hin].
  destruct s as [m ps]. simpl in *.
  assert (∀ m', check_duplicates m' c = true) as Hdup.
  { intros m'. unfold check_duplicates. rewrite Hps, types_unique_filtered by done.
    by destruct (_ && _). }
  assert (violation_on [Key "products"] (validate c)
          ↔ ps = [] ∨ (all_numbers c ∧ ∃ p, p ∈ ps ∧ type p ∉ vocabulary m)) as Hviol.
  { rewrite violation_on_validate, violation_on_object, Hps. split.
    - intros [[(f & E & _)|[[E _]|[[_ H]|(i & x & _ & [[E _]|[E _]])]]]
             |[Hnum [[E _]|[[E _]|[_ [H|[H|H]]]]]]]; try discriminate.
      + destruct f; discriminate.
      + by left.
      + right. split; [done|].
        apply check_productTypes_false in H. by rewrite Hps, Hm in H.
      + by rewrite Hdup in H.
      + by rewrite Hdup in H.
    - intros [->|[Hnum H]].
      + left. do 2 right. left. done.
      + right. split; [done|]. do 2 right. split; [done|]. left.
        apply check_productTypes_false. by rewrite Hps, Hm. }
  split; [apply Hdup|]. split; [apply Hdup|]. split.
  - intros ->. simpl in *.
    assert (Forall (λ p, type p ≠ "") ps) as Hne.
    { apply Forall_forall. intros p Hp.
      apply (vocabulary_nonempty boards_tiir). by apply Hin. }
    rewrite filter_nonempty_types in Hnd by done. split.
    + rewrite <-(length_fmap type).
      apply (submseteq_length _ boardsTiirTypes), NoDup_submseteq; [done|].
      intros ty Hty. apply list_elem_of_fmap in Hty as (p & -> & Hp). by apply Hin.
    + rewrite Hviol. split; [|by left]. intros [?|(_ & p & Hp & H)]; [done|].
      destruct H. by apply Hin.
  - intros ->. simpl in *. rewrite Hviol. split; [|split].
    + intros [?|(_ & p & Hp & H)]; [by left|]. right. exists p. split; [done|].
      destruct (Hin p Hp) as [?|?]; done.
    + by left.
    + intros Hnum (p & Hp & H). right. split; [done|]. exists p. split; [done|].
      rewrite H. intros H'. by apply (vocabulary_nonempty interlock "").
Qed.

Lemma X23_witness :
  check_duplicates interlock boards_ok = true
  ∧ check_duplicates boards_tiir boards_ok = true
  ∧ (boards_tiir = boards_tiir →
     (length [mkProduct "Tiir" (int 200); mkProduct "Boards" (int 0)] ≤ 2)%nat
     ∧ (violation_on [Key "products"]
          (validate
             (with_products [mkProduct "Tiir" (int 200); mkProduct "Boards" (int 0)]
                boards_ok))
        ↔ [mkProduct "Tiir" (int 200); mkProduct "Boards" (int 0)] = [])).
Proof.
  destruct (X23_rows_never_break_rules boards_session
              (boards_tiir, [mkProduct "Tiir" (int 200); mkProduct "Boards" (int 0)])
              (with_products [mkProduct "Tiir" (int 200); mkProduct "Boards" (int 0)]
                 boards_ok))
    as (H1 & H2 & H3 & _); [reflexivity..|].
  split; [reflexivity|]. split; [reflexivity|]. exact H3.
Defined.

(** * What the store holds *)

Lemma stored_ok_JSON r : stored_ok r → stored_ok (JSON_record r).
Proof.
  intros (c & Hacc & Hm & Hs). exists c. split; [done|]. split; [done|].
  simpl. by rewrite Hs, JSON_measurements_idemp.
Qed.

Lemma stored_ok_new clock data :
  accepted data → stored_ok (JSON_record (newMixData clock (transformedData data))).
Proof. intros Hacc. by exists data. Qed.

Lemma stored_ok_roundtrip l : Forall stored_ok l → Forall stored_ok (JSON_roundtrip l).
Proof.
  intros H. unfold JSON_roundtrip. apply Forall_fmap.
  eapply Forall_impl; [exact H|]. intros r. apply stored_ok_JSON.
Qed.

Lemma stored_ok_setStoredData a b setItem l ls :
  Forall stored_ok (getStoredData a b ls) →
  Forall stored_ok (JSON_roundtrip l) →
  Forall stored_ok (getStoredData a b (setStoredData setItem l ls)).
Proof. intros Hls Hl. by destruct setItem. Qed.

Lemma stored_ok_step loaded_at day_before ls op :
  Forall stored_ok (getStoredData loaded_at day_before ls) →
  Forall stored_ok (getStoredData loaded_at day_before (apply_op loaded_at day_before ls op)).
Proof.
  intros Hok. destruct op as [setItem [clock data|stamp mix data|id]];
    unfold apply_op; simpl.
  - unfold onSubmit. destruct (decide (accepted data)) as [Hacc|]; [|done].
    simpl. apply stored_ok_setStoredData; [done|].
    unfold JSON_roundtrip. rewrite fmap_cons. constructor.
    + by apply stored_ok_new.
    + by apply stored_ok_roundtrip.
  - destruct mix as [mix|]; [|done]. simpl.
    destruct (decide (accepted data)) as [Hacc|Hrej]; [|done].
    simpl. apply stored_ok_setStoredData; [done|].
    unfold JSON_roundtrip. apply Forall_fmap, Forall_lookup. intros i item' Hi.
    rewrite list_lookup_imap in Hi.
    destruct (getStoredData loaded_at day_before ls !! i) as [item|] eqn:Hitem;
      [|discriminate].
    simpl in Hi. injection Hi as <-.
    destruct (decide (MixData.id item = MixData.id mix)).
    + by exists data.
    + apply stored_ok_JSON. by eapply Forall_lookup_1.
  - apply stored_ok_setStoredData; [done|]. apply stored_ok_roundtrip.
    apply Forall_forall. intros r Hr.
    apply list_elem_of_filter in Hr as [_ Hr]. by eapply Forall_forall in Hok.
Qed.

(** X24. The store only ever holds records that an accepted form is stored
    as: the demonstration records are such records, and starting from any
    stored list of such records, every submission of the entry form, every
    save of the edit form and every deletion, whether the browser stores
    the new text or refuses it, leaves a list of such records. A form that
    validation rejects changes nothing: neither the entry form nor the edit
    form sends anything and storage stays as it was. *)
Theorem X24_store_invariant (loaded_at day_before : string)
  (ops : list (SetItem * StoreOp)) (ls : LocalStorage) :
  Forall stored_ok (mockMixData loaded_at day_before)
  ∧ (Forall stored_ok (getStoredData loaded_at day_before ls) →
     Forall stored_ok
       (getStoredData loaded_at day_before (foldl (apply_op loaded_at day_before) ls ops)))
  ∧ (∀ clock setItem data,
       ¬ accepted data →
       onSubmit loaded_at day_before clock setItem data ls = (None, ls))
  ∧ (∀ stamp setItem mix data,
       ¬ accepted data →
       editOnSubmit loaded_at day_before stamp setItem mix data ls = (None, ls)).
Proof.
  split; [|split; [|split]].
  - constructor; [|constructor; [|constructor]].
    + exists interlock_ok. split; [reflexivity|]. split; reflexivity.
    + exists boards_ok. split; [reflexivity|]. split; reflexivity.
  - revert ls. induction ops as [|op ops IH]; intros ls Hok; [done|].
    simpl. apply IH. by apply stored_ok_step.
  - intros clock setItem data Hrej. unfold onSubmit. by rewrite decide_False.
  - intros stamp setItem [mix|] data Hrej; [|done].
    unfold editOnSubmit. by rewrite decide_False.
Qed.

Lemma X24_witness :
  Forall stored_ok
    (getStoredData "a" "b"
       (foldl (apply_op "a" "b") None
          [(Stores, OpSubmit clock0 (interlock_birta 50));
           (QuotaExceededError, OpDelete "1");
           (Stores, OpEdit (λ _, "now") (Some (red_garden "2" 7)) boards_ok)])).
Proof.
  destruct (X24_store_invariant "a" "b"
              [(Stores, OpSubmit clock0 (interlock_birta 50));
               (QuotaExceededError, OpDelete "1");
               (Stores, OpEdit (λ _, "now") (Some (red_garden "2" 7)) boards_ok)] None)
    as (Hmock & H & _).
  apply H. exact Hmock.
Defined.

(** ** Creating and listing *)

Lemma sort_insert_head {A} (cmp : A → A → Z) x l :
  (∀ y, y ∈ l → cmp x y ≤ 0)%Z → sort_insert cmp x l = x :: l.
Proof.
  intros H. destruct l as [|y l]; [done|]. simpl.
  rewrite decide_True; [done|]. apply H. left.
Qed.

Lemma sort_cons {A} (cmp : A → A → Z) x l :
  sort cmp (x :: l) = sort_insert cmp x (sort cmp l).
Proof. reflexivity. Qed.

(** X25. After the entry form stored an accepted form (the browser took
    the new text), the unfiltered listing counts one record more, and when
    no stored record is newer than the new one, the new record heads page
    1 as it reads after its passage through JSON; its products and cement
    are those of the form, and an empty colour is stored as "No Color". *)
Theorem X25_created_record_listed_first (loaded_at day_before : string)
  (getTime : string → Z) (clock : Clock) (data : Form.t) (pageSize : Z)
  (ls : LocalStorage) :
  accepted data → (0 < pageSize)%Z →
  let stored := getStoredData loaded_at day_before ls in
  let ls' := (onSubmit loaded_at day_before clock Stores data ls).2 in
  let res := queryFn loaded_at day_before getTime 1 pageSize None ls' in
  QueryResult.count res = S (length stored)
  ∧ ((∀ item, item ∈ stored →
        (getTime (MixData.timestamp item) ≤ getTime (iso_timestamp clock))%Z) →
     ∃ r rest,
       QueryResult.data res = r :: rest
       ∧ r = JSON_record (newMixData clock (transformedData data))
       ∧ Measurements.products (MixData.measurements r)
         = Some (JSON_product <$> Form.products data)
       ∧ Measurements.cement (MixData.measurements r) = JSON_number (Form.cement data)
       ∧ Measurements.colorType (MixData.measurements r)
         = (if decide (Form.colorType data = "") then "No Color" else Form.colorType data)).
Proof.
  intros Hacc Hps stored ls' res. subst res ls'.
  assert (getStoredData loaded_at day_before
            (onSubmit loaded_at day_before clock Stores data ls).2
          = JSON_record (newMixData clock (transformedData data)) :: JSON_roundtrip stored)
    as E.
  { unfold onSubmit. by destruct (decide (accepted data)). }
  split.
  - rewrite queryFn_count. unfold matching. simpl. rewrite E. simpl.
    unfold JSON_roundtrip. by rewrite length_fmap.
  - intros Hnew. rewrite queryFn_data. unfold matching. simpl filter_given. cbv iota.
    rewrite E. change ((1 - 1) * pageSize)%Z with 0%Z.
    rewrite (slice_page _ 0 pageSize) by lia. rewrite drop_0.
    rewrite sort_cons, sort_insert_head.
    + destruct (Z.to_nat pageSize) as [|n] eqn:En; [lia|].
      eexists _, _. split; [reflexivity|]. split; [done|]. simpl.
      split; [done|]. split; [done|].
      unfold or_string. destruct (decide (Form.colorType data = "")) as [E1|E1].
      * by rewrite decide_False.
      * by rewrite decide_False.
    + intros y Hy. rewrite sort_perm in Hy. unfold newestFirst. simpl.
      apply list_elem_of_fmap in Hy as (y' & -> & Hy'). simpl.
      specialize (Hnew y' Hy'). lia.
Qed.

Lemma X25_witness :
  QueryResult.count
    (queryFn "a" "b" (λ _, 0%Z) 1 25 None (onSubmit "a" "b" clock0 Stores boards_ok None).2)
  = 3%nat.
Proof.
  destruct (X25_created_record_listed_first "a" "b" (λ _, 0%Z) clock0 boards_ok 25 None)
    as [H _]; [reflexivity|lia|exact H].
Defined.

(** X26. The two mix-type filters split the stored records between them:
    the interlock count and the boards/tiir count add up to the unfiltered
    count, and a filter naming anything else lists nothing. *)
Theorem X26_filters_partition (loaded_at day_before : string) (getTime : string → Z)
  (page pageSize : Z) (ls : LocalStorage) :
  let count := λ f,
    QueryResult.count (queryFn loaded_at day_before getTime page pageSize f ls) in
  (count (Some "interlock") + count (Some "boards/tiir"))%nat = count None
  ∧ ∀ s, s ≠ "" → s ≠ "interlock" → s ≠ "boards/tiir" →
      count (Some s) = 0%nat
      ∧ QueryResult.data (queryFn loaded_at day_before getTime page pageSize (Some s) ls)
        = [].
Proof.
  intros count. subst count. cbv beta. split.
  - rewrite !queryFn_count. unfold matching. simpl.
    induction (getStoredData loaded_at day_before ls) as [|r l IH]; [done|].
    rewrite !filter_cons.
    destruct (decide (Some (mixType_string (MixData.mixType r)) = Some "interlock"))
      as [E1|E1],
      (decide (Some (mixType_string (MixData.mixType r)) = Some "boards/tiir"))
      as [E2|E2]; simpl length; try lia.
    + congruence.
    + destruct (MixData.mixType r); simpl in *; congruence.
  - intros s Hs Hi Hb.
    assert (matching loaded_at day_before (Some s) ls = []) as E.
    { unfold matching. simpl. rewrite bool_decide_eq_true_2 by done.
      induction (getStoredData loaded_at day_before ls) as [|r l IH]; [done|].
      rewrite filter_cons_False; [done|].
      intros [= H]. destruct (MixData.mixType r); simpl in H; congruence. }
    split.
    + by rewrite queryFn_count, E.
    + rewrite queryFn_data, E.
      apply (sublist_nil_r _), (slice_sublist (A:=MixData.t)).
Qed.

Lemma X26_witness :
  QueryResult.count (queryFn "a" "b" (λ _, 0%Z) 1 25 (Some "Interlock") None) = 0%nat
  ∧ QueryResult.data (queryFn "a" "b" (λ _, 0%Z) 1 25 (Some "Interlock") None) = [].
Proof.
  destruct (X26_filters_partition "a" "b" (λ _, 0%Z) 1 25 None) as [_ H].
  apply H; discriminate.
Defined.

(** * Aggregation *)

(** ** Own properties *)

Lemma own_replace k k' v o :
  own k' (replace k v o)
  = if decide (k = k') then match own k o with Some _ => Some v | None => None end
    else own k' o.
Proof.
  induction o as [|[k0 v0] o IH]; simpl; [by destruct (decide (k = k'))|].
  destruct (decide (k0 = k)) as [->|Hk]; simpl.
  - by destruct (decide (k = k')).
  - rewrite IH. destruct (decide (k0 = k')) as [->|], (decide (k = k')) as [->|]; done.
Qed.

Lemma own_snoc k k' v o :
  own k o = None →
  own k' (o ++ [(k, v)]) = if decide (k = k') then Some v else own k' o.
Proof.
  induction o as [|[k0 v0] o IH]; simpl; [done|].
  destruct (decide (k0 = k)) as [->|Hk]; [done|]. intros H. rewrite (IH H).
  destruct (decide (k0 = k')) as [->|], (decide (k = k')) as [->|]; done.
Qed.

Lemma own_insert_index n k k' v o :
  own k o = None →
  own k' (insert_index n k v o) = if decide (k = k') then Some v else own k' o.
Proof.
  induction o as [|[k0 v0] o IH]; simpl; [done|].
  destruct (decide (k0 = k)) as [->|Hk]; [done|]. intros H.
  destruct (array_index k0) as [n'|]; [destruct (n' <? n)%N|]; simpl; try done.
  rewrite (IH H).
  destruct (decide (k0 = k')) as [->|], (decide (k = k')) as [->|]; done.
Qed.

Lemma own_define k k' v o :
  own k' (define k v o) = if decide (k = k') then Some v else own k' o.
Proof.
  unfold define. destruct (own k o) as [v0|] eqn:E; simpl.
  - rewrite own_replace, E. destruct (decide (k = k')); done.
  - unfold create. destruct (array_index k).
    + by apply own_insert_index.
    + by apply own_snoc.
Qed.

Lemma Forall_own (P : Value → Prop) k v o :
  Forall (λ kv, P kv.2) o → own k o = Some v → P v.
Proof.
  induction 1 as [|[k0 v0] o H0 _ IH]; simpl; [done|].
  destruct (decide (k0 = k)); [by intros [= <-]|done].
Qed.

Lemma Forall_replace (P : Value → Prop) k v o :
  P v → Forall (λ kv, P kv.2) o → Forall (λ kv, P kv.2) (replace k v o).
Proof.
  intros Hv. induction 1 as [|[k0 v0] o H0 Ho IH]; simpl; [done|].
  destruct (decide (k0 = k)); by constructor.
Qed.

Lemma Forall_insert_index (P : Value → Prop) n k v o :
  P v → Forall (λ kv, P kv.2) o → Forall (λ kv, P kv.2) (insert_index n k v o).
Proof.
  intros Hv. induction 1 as [|[k0 v0] o H0 Ho IH]; simpl; [by repeat constructor|].
  destruct (array_index k0) as [n'|]; [destruct (n' <? n)%N|]; by repeat constructor.
Qed.

Lemma Forall_define (P : Value → Prop) k v o :
  P v → Forall (λ kv, P kv.2) o → Forall (λ kv, P kv.2) (define k v o).
Proof.
  intros Hv Ho. unfold define. destruct (truthy (own k o)).
  - by apply Forall_replace.
  - unfold create. destruct (array_index k).
    + by apply Forall_insert_index.
    + apply Forall_app. split; [done|]. by repeat constructor.
Qed.

Lemma own_None k o : own k o = None ↔ k ∉ o.*1.
Proof.
  induction o as [|[k0 v0] o IH]; simpl.
  - split; [intros _; apply not_elem_of_nil|done].
  - rewrite not_elem_of_cons. destruct (decide (k0 = k)) as [->|Hk].
    + split; [done|]. by intros [? _].
    + rewrite IH. split; [by intros ?; split|by intros [_ ?]].
Qed.

Lemma replace_keys k v o : (replace k v o).*1 = o.*1.
Proof.
  induction o as [|[k0 v0] o IH]; [done|]. simpl.
  destruct (decide (k0 = k)); [done|]. rewrite !fmap_cons. simpl. by rewrite IH.
Qed.

Lemma insert_index_perm n k v o : insert_index n k v o ≡ₚ (k, v) :: o.
Proof.
  induction o as [|[k0 v0] o IH]; [done|]. simpl.
  destruct (array_index k0) as [n'|]; [destruct (n' <? n)%N|]; try done.
  rewrite IH. apply Permutation_swap.
Qed.

Lemma define_NoDup k v o : NoDup o.*1 → NoDup (define k v o).*1.
Proof.
  intros Ho. unfold define. destruct (own k o) eqn:E; simpl.
  - by rewrite replace_keys.
  - apply own_None in E. unfold create. destruct (array_index k).
    + rewrite insert_index_perm. rewrite fmap_cons. by constructor.
    + rewrite fmap_app. simpl. apply NoDup_app. split; [done|]. split.
      * intros x Hx Hk. apply list_elem_of_singleton in Hk as ->. done.
      * apply NoDup_singleton.
Qed.

Lemma numeric_nil : numeric [].
Proof. split; constructor. Qed.

Lemma numeric_define k x o : numeric o → numeric (define k (VNum x) o).
Proof.
  intros [Hk Ho]. split; [by apply define_NoDup|].
  apply (Forall_define (λ v, ∃ x, v = VNum x)); [by eexists|done].
Qed.

Lemma numeric_own k v o : numeric o → own k o = Some v → ∃ x, v = VNum x.
Proof. intros [_ Ho]. by apply (Forall_own (λ v, ∃ x, v = VNum x)). Qed.

Lemma numeric_numbers o : numeric o → ∃ xs, o.*2 = VNum <$> xs.
Proof.
  intros [_ Ho]. induction Ho as [|[k v] o [x Hx] _ [xs IH]]; [by exists []|].
  simpl in Hx. subst v. exists (x :: xs). rewrite !fmap_cons. simpl. f_equal. exact IH.
Qed.

(** With no key twice, the entries are the own properties. *)
Lemma own_elem_of k v o : NoDup o.*1 → own k o = Some v ↔ (k, v) ∈ o.
Proof.
  induction o as [|[k0 v0] o IH]; simpl; intros Hnd.
  - split; [done|]. intros H. by apply elem_of_nil in H.
  - apply NoDup_cons in Hnd as [Hk0 Hnd].
    rewrite elem_of_cons. destruct (decide (k0 = k)) as [->|Hk].
    + split; [intros [= ->]; by left|].
      intros [[= ->]|Hin]; [done|]. destruct Hk0.
      apply list_elem_of_fmap. by exists (k, v).
    + rewrite (IH Hnd). split; [by right|]. intros [[= ? ?]|?]; [done|done].
Qed.

Lemma sum_numbers b xs :
  foldl add (VNum b) (VNum <$> xs) = VNum (foldl PrimFloat.add b xs).
Proof. revert b. induction xs as [|x xs IH]; intros b; [done|]. apply IH. Qed.

(** ** Buckets *)

Lemma pour_app v qs qs' : pour v (qs ++ qs') = pour (pour v qs) qs'.
Proof. apply foldl_app. Qed.

Lemma pour_Some b qs :
  pour (Some (VNum b)) qs
  = Some (VNum (foldl bucket_step b qs)).
Proof. revert b. induction qs as [|q qs IH]; intros b; [done|]. apply IH. Qed.

Lemma pour_None qs : pour None qs = bucket qs.
Proof. destruct qs as [|q qs]; [done|]. apply pour_Some. Qed.

(** While no quantity is negative, the [|| 0] never replaces a value by
    another, and the bucket holds the plain sum. *)
Lemma bucket_step_pos b q :
  sf_pos (Prim2SF b) → not_negative q →
  bucket_step b q = (b + ToNumber q)%float ∧ sf_pos (Prim2SF (b + ToNumber q)).
Proof.
  intros Hb Hq. split; [|by apply add_pos, leb_0_ge0].
  unfold bucket_step. rewrite (sf_pos_not_nan b Hb), orb_false_r.
  destruct (b =? 0)%float eqn:E; [|done]. by rewrite (sf_pos_zero b Hb E).
Qed.

Lemma bucket_total qs :
  Forall not_negative qs → foldl bucket_step 0%float qs = total (ToNumber <$> qs).
Proof.
  unfold total. assert (sf_pos (Prim2SF 0)) as H0 by reflexivity.
  revert H0. generalize 0%float as b. induction qs as [|q qs IH]; intros b Hb Hqs; [done|].
  apply Forall_cons in Hqs as [Hq Hqs].
  destruct (bucket_step_pos b q Hb Hq) as [E Hb'].
  simpl. rewrite E. by apply IH.
Qed.

Lemma total_pos xs :
  Forall (λ x, (0 <=? x)%float = true) xs → sf_pos (Prim2SF (total xs)).
Proof.
  intros Hxs. unfold total. assert (sf_pos (Prim2SF 0)) as H0 by reflexivity.
  revert H0. generalize 0%float at 1 2 as b.
  induction Hxs as [|x xs Hx Hxs IH]; intros b Hb; [done|].
  simpl. apply IH. by apply add_pos, leb_0_ge0.
Qed.

(** ** Runs on objects the function made itself *)

Lemma bind_assoc {A B C} (c : Run A) (f : A → Run B) (k : B → Run C) h :
  bind c (λ x, bind (f x) k) h = bind (bind c f) k h.
Proof. unfold bind. by destruct (c h). Qed.

Lemma bind_run {A B} (c : Run A) (k : A → Run B) h a h' :
  c h = Returns a h' → bind c k h = k a h'.
Proof. intros H. unfold bind. by rewrite H. Qed.

Lemma includes_plain added k :
  plain_key added k → includes Object_prototype_methods k = false.
Proof. intros [H _]. by apply includes_false. Qed.

Lemma get_local h i p g o k :
  locals h !! i = Some g → descend g p = Some o → plain_key (prototype h) k →
  get (JObject (Local i, p)) k h
  = Returns (match own k o with
             | Some v => to_js v (Local i, p ++ [k])
             | None => JUndefined
             end) h.
Proof.
  intros Hg Ho Hk. unfold get, deref. simpl. rewrite Hg. simpl. rewrite Ho.
  rewrite (includes_plain _ k Hk). destruct (own k o); [done|].
  destruct Hk as (_ & Hk & Hadded). rewrite decide_False by done.
  apply own_None in Hadded. by rewrite Hadded.
Qed.

Lemma set_local h i p g o k v :
  locals h !! i = Some g → descend g p = Some o → plain_key (prototype h) k →
  set (JObject (Local i, p)) k v h = Returns tt (update (define k v) (Local i, p) h).
Proof.
  intros Hg Ho Hk. unfold set, deref. simpl. rewrite Hg. simpl. rewrite Ho.
  rewrite (includes_plain _ k Hk). by rewrite decide_False by apply Hk.
Qed.

Lemma accumulate_local h i p g o k q :
  locals h !! i = Some g → descend g p = Some o →
  numeric o → plain_key (prototype h) k →
  accumulate (JObject (Local i, p)) k q h
  = Returns tt
      (update
         (define k (VNum (bucket_step
                            (match own k o with Some (VNum b) => b | _ => 0%float end) q)))
         (Local i, p) h).
Proof.
  intros Hg Ho Hn Hk. unfold accumulate, bind.
  rewrite (get_local h i p g o k) by done.
  rewrite (set_local h i p g o k) by done. do 2 f_equal. f_equal.
  destruct (own k o) as [v|] eqn:E; [|done].
  destruct (numeric_own k v o Hn E) as [b ->]. simpl. unfold or_zero, bucket_step. simpl.
  by destruct ((b =? 0)%float || is_nan b).
Qed.

Lemma own_accumulated k k' q o :
  own k' (define k (VNum (bucket_step
                            (match own k o with Some (VNum b) => b | _ => 0%float end) q)) o)
  = if decide (k = k') then pour (own k o) [q] else own k' o.
Proof. by rewrite own_define. Qed.

(** ** [calculateTotals] *)

Lemma totals_products added m ps o0 o1 :
  numeric o0 → numeric o1 → (∀ p, p ∈ ps → plain_key added (type p)) →
  ∃ o0' o1',
    forEach ps (λ product,
      match m with
      | interlock =>
          accumulate (JObject (Local 0, [])) (type product) (quantity product)
      | boards_tiir =>
          accumulate (JObject (Local 1, [])) (type product) (quantity product)
      end) (mkHeap [o0; o1] added)
    = Returns tt (mkHeap [o0'; o1'] added)
    ∧ numeric o0' ∧ numeric o1'
    ∧ ∀ m' ty,
        own ty (totals_of m' (mkTotals o0' o1'))
        = pour (own ty (totals_of m' (mkTotals o0 o1)))
            (if decide (m = m') then quantity <$> filter (λ p, type p = ty) ps else []).
Proof.
  revert o0 o1. induction ps as [|p ps IH]; intros o0 o1 H0 H1 Hps.
  { exists o0, o1. split; [done|]. split; [done|]. split; [done|].
    intros m' ty. by destruct (decide (m = m')). }
  assert (plain_key added (type p)) as Hp by (apply Hps; left).
  assert (∀ p', p' ∈ ps → plain_key added (type p')) as Hps' by (intros p' ?; apply Hps; by right).
  destruct m.
  - destruct (IH (define (type p) (VNum (bucket_step
                   (match own (type p) o0 with Some (VNum b) => b | _ => 0%float end)
                   (quantity p))) o0) o1) as (o0' & o1' & Hrun & Hn0 & Hn1 & Hown);
      [by apply numeric_define|done|done|].
    exists o0', o1'. split; [|split; [done|split; [done|]]].
    + simpl forEach. unfold bind.
      rewrite (accumulate_local _ 0 [] o0 o0) by done. exact Hrun.
    + intros m' ty. rewrite Hown. destruct m'; simpl.
      * rewrite own_accumulated, filter_cons.
        destruct (decide (type p = ty)) as [->|]; [|done].
        rewrite fmap_cons. done.
      * done.
  - destruct (IH o0 (define (type p) (VNum (bucket_step
                   (match own (type p) o1 with Some (VNum b) => b | _ => 0%float end)
                   (quantity p))) o1)) as (o0' & o1' & Hrun & Hn0 & Hn1 & Hown);
      [done|by apply numeric_define|done|].
    exists o0', o1'. split; [|split; [done|split; [done|]]].
    + simpl forEach. unfold bind.
      rewrite (accumulate_local _ 1 [] o1 o1) by done. exact Hrun.
    + intros m' ty. rewrite Hown. destruct m'; simpl.
      * done.
      * rewrite own_accumulated, filter_cons.
        destruct (decide (type p = ty)) as [->|]; [|done].
        rewrite fmap_cons. done.
Qed.

Lemma totals_records added l o0 o1 :
  numeric o0 → numeric o1 →
  (∀ mix p, mix ∈ l → p ∈ products_of mix → plain_key added (type p)) →
  ∃ o0' o1',
    forEach l (λ mix,
      match Measurements.products (MixData.measurements mix) with
      | Some products =>
          forEach products (λ product,
            match MixData.mixType mix with
            | interlock =>
                accumulate (JObject (Local 0, [])) (type product) (quantity product)
            | boards_tiir =>
                accumulate (JObject (Local 1, [])) (type product) (quantity product)
            end)
      | None => ret tt
      end) (mkHeap [o0; o1] added)
    = Returns tt (mkHeap [o0'; o1'] added)
    ∧ numeric o0' ∧ numeric o1'
    ∧ ∀ m ty,
        own ty (totals_of m (mkTotals o0' o1'))
        = pour (own ty (totals_of m (mkTotals o0 o1))) (quantities m ty l).
Proof.
  revert o0 o1. induction l as [|mix l IH]; intros o0 o1 H0 H1 Hl.
  { exists o0, o1. split; [done|]. split; [done|]. split; [done|]. done. }
  destruct (totals_products added (MixData.mixType mix) (products_of mix) o0 o1 H0 H1)
    as (a0 & a1 & Hrun & Ha0 & Ha1 & Hown).
  { intros p Hp. apply (Hl mix p); [left|done]. }
  destruct (IH a0 a1 Ha0 Ha1) as (o0' & o1' & Hrun' & Hn0 & Hn1 & Hown').
  { intros mix' p Hmix. apply Hl. by right. }
  exists o0', o1'. split; [|split; [done|split; [done|]]].
  - simpl forEach. unfold bind at 1. unfold products_of in Hrun.
    destruct (Measurements.products (MixData.measurements mix)) as [ps|]; simpl in Hrun.
    + rewrite Hrun. exact Hrun'.
    + injection Hrun as <- <-. exact Hrun'.
  - intros m ty. rewrite Hown', Hown. unfold quantities. rewrite bind_cons, pour_app.
    done.
Qed.

(** ** Nested groupings *)

Lemma leaf2_replace m m' ty om' oc :
  own m oc ≠ None →
  leaf2 (replace m (VObj om') oc) m' ty
  = if decide (m = m') then own ty om' else leaf2 oc m' ty.
Proof.
  intros H. unfold leaf2. rewrite own_replace.
  destruct (decide (m = m')) as [<-|]; [|done]. by destruct (own m oc).
Qed.

Lemma leaf2_define m m' ty oc :
  own m oc = None → leaf2 (define m (VObj []) oc) m' ty = leaf2 oc m' ty.
Proof.
  intros H. unfold leaf2. rewrite own_define.
  destruct (decide (m = m')) as [<-|]; [|done]. by rewrite H.
Qed.

Lemma leaf3_replace c c' m ty oc' g :
  own c g ≠ None →
  leaf3 (replace c (VObj oc') g) c' m ty
  = if decide (c = c') then leaf2 oc' m ty else leaf3 g c' m ty.
Proof.
  intros H. unfold leaf3. rewrite own_replace.
  destruct (decide (c = c')) as [<-|]; [|done]. by destruct (own c g).
Qed.

Lemma leaf3_define c c' m ty g :
  own c g = None → leaf3 (define c (VObj []) g) c' m ty = leaf3 g c' m ty.
Proof.
  intros H. unfold leaf3. rewrite own_define.
  destruct (decide (c = c')) as [<-|]; [|done]. by rewrite H.
Qed.

Lemma numeric2_own k v o : numeric2 o → own k o = Some v → ∃ o', v = VObj o' ∧ numeric o'.
Proof. apply (Forall_own (λ v, ∃ o', v = VObj o' ∧ numeric o')). Qed.

Lemma numeric3_own k v o : numeric3 o → own k o = Some v → ∃ o', v = VObj o' ∧ numeric2 o'.
Proof. apply (Forall_own (λ v, ∃ o', v = VObj o' ∧ numeric2 o')). Qed.

Lemma numeric2_replace k o' o : numeric o' → numeric2 o → numeric2 (replace k (VObj o') o).
Proof. intros H. apply (Forall_replace (λ v, ∃ o', v = VObj o' ∧ numeric o')). by eexists. Qed.

Lemma numeric3_replace k o' o : numeric2 o' → numeric3 o → numeric3 (replace k (VObj o') o).
Proof. intros H. apply (Forall_replace (λ v, ∃ o', v = VObj o' ∧ numeric2 o')). by eexists. Qed.

Lemma numeric2_define k o : numeric2 o → numeric2 (define k (VObj []) o).
Proof.
  apply (Forall_define (λ v, ∃ o', v = VObj o' ∧ numeric o')). eexists. split; [done|].
  apply numeric_nil.
Qed.

Lemma numeric3_define k o : numeric3 o → numeric3 (define k (VObj []) o).
Proof.
  apply (Forall_define (λ v, ∃ o', v = VObj o' ∧ numeric2 o')). eexists. split; [done|].
  constructor.
Qed.

(** ** [calculateProductTotals] *)

(** One product of type [ty] in a record of colour [c]. *)
Lemma product_totals_product added ty c q g :
  numeric2 g → plain_key added ty → plain_key added c →
  ∃ g',
    (byType ←! get (JObject (Local 0, [])) ty;
     (if is_truthy byType then ret tt else set (JObject (Local 0, [])) ty (VObj [])) ;;!
     byType ←! get (JObject (Local 0, [])) ty;
     accumulate byType c q) (mkHeap [g] added)
    = Returns tt (mkHeap [g'] added)
    ∧ numeric2 g'
    ∧ ∀ ty' c', leaf2 g' ty' c'
               = pour (leaf2 g ty' c') (if decide (ty = ty' ∧ c = c') then [q] else []).
Proof.
  intros Hg Hty Hc.
  assert (∃ g1 o1,
    (byType ←! get (JObject (Local 0, [])) ty;
     if is_truthy byType then ret tt else set (JObject (Local 0, [])) ty (VObj []))
      (mkHeap [g] added)
    = Returns tt (mkHeap [g1] added)
    ∧ numeric2 g1 ∧ own ty g1 = Some (VObj o1) ∧ numeric o1
    ∧ ∀ ty' c', leaf2 g1 ty' c' = leaf2 g ty' c') as (g1 & o1 & Hrun1 & Hg1 & Ho1 & Hn1 & Hl1).
  { unfold bind. rewrite (get_local _ 0 [] g g) by done.
    destruct (own ty g) as [v|] eqn:E.
    - destruct (numeric2_own _ _ _ Hg E) as (o1 & -> & Hn1). by exists g, o1.
    - cbn [is_truthy]. rewrite (set_local _ 0 [] g g) by done.
      exists (define ty (VObj []) g), []. split; [done|].
      split; [by apply numeric2_define|]. split.
      + rewrite own_define. by rewrite decide_True.
      + split; [apply numeric_nil|]. intros ty' c'. by apply leaf2_define. }
  exists (replace ty
            (VObj (define c (VNum (bucket_step
                     (match own c o1 with Some (VNum b) => b | _ => 0%float end) q)) o1)) g1).
  split; [|split].
  - rewrite bind_assoc, (bind_run _ _ _ _ _ Hrun1). unfold bind at 1.
    rewrite (get_local _ 0 [] g1 g1) by done. rewrite Ho1. simpl to_js.
    rewrite (accumulate_local _ 0 [ty] g1 o1) by (try done; simpl; by rewrite Ho1).
    unfold update. simpl. by rewrite Ho1.
  - by apply numeric2_replace; [apply numeric_define|].
  - intros ty' c'. rewrite leaf2_replace by (by rewrite Ho1).
    destruct (decide (ty = ty')) as [<-|Hne].
    + rewrite own_accumulated, <-Hl1. unfold leaf2. rewrite Ho1.
      destruct (decide (c = c')) as [<-|Hc'].
      * by rewrite decide_True.
      * rewrite decide_False by (by intros [_ ?]). done.
    + rewrite decide_False by (by intros [? _]). apply Hl1.
Qed.

Lemma product_totals_products added c ps g :
  numeric2 g → plain_key added c → Forall (λ p, plain_key added (type p)) ps →
  ∃ g',
    forEach ps (λ product,
      let productType := type product in
      byType ←! get (JObject (Local 0, [])) productType;
      (if is_truthy byType then ret tt
       else set (JObject (Local 0, [])) productType (VObj [])) ;;!
      byType ←! get (JObject (Local 0, [])) productType;
      accumulate byType c (quantity product)) (mkHeap [g] added)
    = Returns tt (mkHeap [g'] added)
    ∧ numeric2 g'
    ∧ ∀ ty c', leaf2 g' ty c'
              = pour (leaf2 g ty c')
                  (if decide (c = c')
                   then quantity <$> filter (λ p, type p = ty) ps else []).
Proof.
  intros Hg Hc Hps. revert g Hg. induction Hps as [|p ps Hp Hps IH]; intros g Hg.
  { exists g. split; [done|]. split; [done|]. intros ty c'. by destruct (decide (c = c')). }
  destruct (product_totals_product added (type p) c (quantity p) g Hg Hp Hc)
    as (g1 & Hrun1 & Hg1 & Hl1).
  destruct (IH g1 Hg1) as (g' & Hrun & Hg' & Hl).
  exists g'. split; [|split; [done|]].
  - simpl forEach. unfold bind at 1. cbv zeta. rewrite Hrun1. exact Hrun.
  - intros ty c'. rewrite Hl, Hl1, filter_cons.
    destruct (decide (c = c')) as [<-|Hc'].
    + destruct (decide (type p = ty)) as [<-|Hty].
      * rewrite decide_True by done. by rewrite fmap_cons.
      * rewrite decide_False by (by intros [? _]). done.
    + rewrite decide_False by (by intros [_ ?]). done.
Qed.

Lemma product_totals_records added l g :
  numeric2 g → Forall (plain_record added) l →
  ∃ g',
    forEach l (λ mix,
      let color :=
        or_string (Measurements.colorType (MixData.measurements mix)) "No Color" in
      match Measurements.products (MixData.measurements mix) with
      | Some products =>
          forEach products (λ product,
            let productType := type product in
            byType ←! get (JObject (Local 0, [])) productType;
            (if is_truthy byType then ret tt
             else set (JObject (Local 0, [])) productType (VObj [])) ;;!
            byType ←! get (JObject (Local 0, [])) productType;
            accumulate byType color (quantity product))
      | None => ret tt
      end) (mkHeap [g] added)
    = Returns tt (mkHeap [g'] added)
    ∧ numeric2 g'
    ∧ ∀ ty c, leaf2 g' ty c = pour (leaf2 g ty c) (product_quantities ty c l).
Proof.
  intros Hg Hl. revert g Hg. induction Hl as [|mix l (Hc & Hm & Hps) Hl IH]; intros g Hg.
  { exists g. by repeat split. }
  destruct (product_totals_products added (color_of mix) (products_of mix) g Hg Hc Hps)
    as (g1 & Hrun1 & Hg1 & Hl1).
  destruct (IH g1 Hg1) as (g' & Hrun & Hg' & Hl').
  exists g'. split; [|split; [done|]].
  - simpl forEach. unfold bind at 1. cbv zeta. unfold products_of, color_of in Hrun1.
    destruct (Measurements.products (MixData.measurements mix)) as [ps|]; simpl in Hrun1.
    + rewrite Hrun1. exact Hrun.
    + injection Hrun1 as <-. exact Hrun.
  - intros ty c. rewrite Hl', Hl1. unfold product_quantities.
    by rewrite bind_cons, pour_app.
Qed.

(** ** [calculateColorTotals] *)

(** One product of type [ty] in a record of colour [c] and mix type [m],
    once the groups of the record exist. *)
Lemma color_totals_product added c m ty q g oc om :
  numeric3 g → own c g = Some (VObj oc) → own m oc = Some (VObj om) →
  plain_key added c → plain_key added m → plain_key added ty →
  ∃ g' oc' om',
    (byColor ←! get (JObject (Local 0, [])) c;
     byMix ←! get byColor m;
     accumulate byMix ty q) (mkHeap [g] added)
    = Returns tt (mkHeap [g'] added)
    ∧ numeric3 g' ∧ own c g' = Some (VObj oc') ∧ own m oc' = Some (VObj om')
    ∧ ∀ c' m' ty', leaf3 g' c' m' ty'
                  = pour (leaf3 g c' m' ty')
                      (if decide ((c = c' ∧ m = m') ∧ ty = ty') then [q] else []).
Proof.
  intros Hg Hoc Hom Hc Hm Hty.
  destruct (numeric3_own _ _ _ Hg Hoc) as (? & [= <-] & Hnoc).
  destruct (numeric2_own _ _ _ Hnoc Hom) as (? & [= <-] & Hnom).
  set (om' := define ty (VNum (bucket_step
                (match own ty om with Some (VNum b) => b | _ => 0%float end) q)) om).
  exists (replace c (VObj (replace m (VObj om') oc)) g), (replace m (VObj om') oc), om'.
  split; [|split; [|split; [|split]]].
  - unfold bind at 1. rewrite (get_local _ 0 [] g g) by done. rewrite Hoc. simpl to_js.
    unfold bind at 1.
    rewrite (get_local _ 0 [c] g oc) by (try done; simpl; by rewrite Hoc).
    rewrite Hom. simpl to_js.
    rewrite (accumulate_local _ 0 [c; m] g om) by (try done; simpl; by rewrite Hoc, Hom).
    unfold update. simpl. by rewrite Hoc, Hom.
  - apply numeric3_replace; [|done]. apply numeric2_replace; [|done].
    by apply numeric_define.
  - rewrite own_replace, decide_True by done. by rewrite Hoc.
  - rewrite own_replace, decide_True by done. by rewrite Hom.
  - intros c' m' ty'. rewrite leaf3_replace by (by rewrite Hoc).
    destruct (decide (c = c')) as [<-|Hc'].
    + rewrite leaf2_replace by (by rewrite Hom). unfold leaf3. rewrite Hoc.
      destruct (decide (m = m')) as [<-|Hm'].
      * unfold leaf2. rewrite Hom. unfold om'. rewrite own_accumulated.
        destruct (decide (ty = ty')) as [<-|Hty'].
        -- by rewrite decide_True.
        -- rewrite decide_False by (by intros [_ ?]). done.
      * rewrite decide_False by (by intros [[_ ?] _]). done.
    + rewrite decide_False by (by intros [[? _] _]). done.
Qed.

Lemma color_totals_products added c m ps g oc om :
  numeric3 g → own c g = Some (VObj oc) → own m oc = Some (VObj om) →
  plain_key added c → plain_key added m → Forall (λ p, plain_key added (type p)) ps →
  ∃ g',
    forEach ps (λ product,
      let key := type product in
      byColor ←! get (JObject (Local 0, [])) c;
      byMix ←! get byColor m;
      accumulate byMix key (quantity product)) (mkHeap [g] added)
    = Returns tt (mkHeap [g'] added)
    ∧ numeric3 g'
    ∧ ∀ c' m' ty, leaf3 g' c' m' ty
                 = pour (leaf3 g c' m' ty)
                     (if decide (c = c' ∧ m = m')
                      then quantity <$> filter (λ p, type p = ty) ps else []).
Proof.
  intros Hg Hoc Hom Hc Hm Hps. revert g oc om Hg Hoc Hom.
  induction Hps as [|p ps Hp Hps IH]; intros g oc om Hg Hoc Hom.
  { exists g. split; [done|]. split; [done|]. intros c' m' ty.
    by destruct (decide (c = c' ∧ m = m')). }
  destruct (color_totals_product added c m (type p) (quantity p) g oc om Hg Hoc Hom Hc Hm Hp)
    as (g1 & oc1 & om1 & Hrun1 & Hg1 & Hoc1 & Hom1 & Hl1).
  destruct (IH g1 oc1 om1 Hg1 Hoc1 Hom1) as (g' & Hrun & Hg' & Hl).
  exists g'. split; [|split; [done|]].
  - simpl forEach. unfold bind at 1. cbv zeta. rewrite Hrun1. exact Hrun.
  - intros c' m' ty. rewrite Hl, Hl1, filter_cons.
    destruct (decide (c = c' ∧ m = m')) as [E|E].
    + destruct (decide (type p = ty)) as [<-|Hty].
      * rewrite decide_True by done. by rewrite fmap_cons.
      * rewrite decide_False by (by intros [_ ?]). done.
    + rewrite decide_False by (by intros [? _]). done.
Qed.

(** The groups of a record are made first; this changes no bucket. *)
Lemma color_totals_groups added c m g :
  numeric3 g → plain_key added c → plain_key added m →
  ∃ g' oc om,
    (byColor ←! get (JObject (Local 0, [])) c;
     (if is_truthy byColor then ret tt else set (JObject (Local 0, [])) c (VObj [])) ;;!
     byColor ←! get (JObject (Local 0, [])) c;
     byMix ←! get byColor m;
     (if is_truthy byMix then ret tt else set byColor m (VObj []))) (mkHeap [g] added)
    = Returns tt (mkHeap [g'] added)
    ∧ numeric3 g' ∧ own c g' = Some (VObj oc) ∧ own m oc = Some (VObj om)
    ∧ ∀ c' m' ty, leaf3 g' c' m' ty = leaf3 g c' m' ty.
Proof.
  intros Hg Hc Hm.
  assert (∃ g1 oc,
    (byColor ←! get (JObject (Local 0, [])) c;
     if is_truthy byColor then ret tt else set (JObject (Local 0, [])) c (VObj []))
      (mkHeap [g] added)
    = Returns tt (mkHeap [g1] added)
    ∧ numeric3 g1 ∧ own c g1 = Some (VObj oc) ∧ numeric2 oc
    ∧ ∀ c' m' ty, leaf3 g1 c' m' ty = leaf3 g c' m' ty)
    as (g1 & oc & Hrun1 & Hg1 & Hoc & Hnoc & Hl1).
  { unfold bind. rewrite (get_local _ 0 [] g g) by done.
    destruct (own c g) as [v|] eqn:E.
    - destruct (numeric3_own _ _ _ Hg E) as (oc & -> & Hnoc). by exists g, oc.
    - cbn [is_truthy]. rewrite (set_local _ 0 [] g g) by done.
      exists (define c (VObj []) g), []. split; [done|].
      split; [by apply numeric3_define|]. split.
      + rewrite own_define. by rewrite decide_True.
      + split; [constructor|]. intros c' m' ty. by apply leaf3_define. }
  rewrite bind_assoc, (bind_run _ _ _ _ _ Hrun1). unfold bind at 1.
  rewrite (get_local _ 0 [] g1 g1) by done. rewrite Hoc. simpl to_js. unfold bind at 1.
  rewrite (get_local _ 0 [c] g1 oc) by (try done; simpl; by rewrite Hoc).
  destruct (own m oc) as [v|] eqn:E.
  - destruct (numeric2_own _ _ _ Hnoc E) as (om & -> & Hnom). by exists g1, oc, om.
  - cbn [is_truthy].
    rewrite (set_local _ 0 [c] g1 oc) by (try done; simpl; by rewrite Hoc).
    exists (replace c (VObj (define m (VObj []) oc)) g1), (define m (VObj []) oc), [].
    split; [|split; [|split; [|split]]].
    + unfold update. simpl. by rewrite Hoc.
    + apply numeric3_replace; [|done]. by apply numeric2_define.
    + rewrite own_replace, decide_True by done. by rewrite Hoc.
    + rewrite own_define. by rewrite decide_True.
    + intros c' m' ty. rewrite leaf3_replace by (by rewrite Hoc).
      destruct (decide (c = c')) as [<-|]; [|apply Hl1].
      rewrite leaf2_define by done. rewrite <-Hl1. unfold leaf3. by rewrite Hoc.
Qed.

Lemma color_totals_records added l g :
  numeric3 g → Forall (plain_record added) l →
  ∃ g',
    forEach l (λ mix,
      let color :=
        or_string (Measurements.colorType (MixData.measurements mix)) "No Color" in
      let mixType := mixType_string (MixData.mixType mix) in
      byColor ←! get (JObject (Local 0, [])) color;
      (if is_truthy byColor then ret tt
       else set (JObject (Local 0, [])) color (VObj [])) ;;!
      byColor ←! get (JObject (Local 0, [])) color;
      byMix ←! get byColor mixType;
      (if is_truthy byMix then ret tt else set byColor mixType (VObj [])) ;;!
      match Measurements.products (MixData.measurements mix) with
      | Some products =>
          forEach products (λ product,
            let key := type product in
            byColor ←! get (JObject (Local 0, [])) color;
            byMix ←! get byColor mixType;
            accumulate byMix key (quantity product))
      | None => ret tt
      end) (mkHeap [g] added)
    = Returns tt (mkHeap [g'] added)
    ∧ numeric3 g'
    ∧ ∀ c m ty, leaf3 g' c m ty = pour (leaf3 g c m ty) (color_quantities c m ty l).
Proof.
  intros Hg Hl. revert g Hg. induction Hl as [|mix l (Hc & Hm & Hps) Hl IH]; intros g Hg.
  { exists g. by repeat split. }
  destruct (color_totals_groups added (color_of mix) (mixType_string (MixData.mixType mix)) g
              Hg Hc Hm)
    as (g1 & oc & om & Hrun1 & Hg1 & Hoc & Hom & Hl1).
  destruct (color_totals_products added (color_of mix) (mixType_string (MixData.mixType mix))
              (products_of mix) g1 oc om Hg1 Hoc Hom Hc Hm Hps)
    as (g2 & Hrun2 & Hg2 & Hl2).
  destruct (IH g2 Hg2) as (g' & Hrun & Hg' & Hl').
  exists g'. split; [|split; [done|]].
  - simpl forEach. unfold bind at 1. cbv zeta.
    assert (∀ P : Run unit,
      P (mkHeap [g1] added) = Returns tt (mkHeap [g2] added) →
      (byColor ←! get (JObject (Local 0, [])) (color_of mix);
       (if is_truthy byColor then ret tt
        else set (JObject (Local 0, [])) (color_of mix) (VObj [])) ;;!
       byColor ←! get (JObject (Local 0, [])) (color_of mix);
       byMix ←! get byColor (mixType_string (MixData.mixType mix));
       (if is_truthy byMix then ret tt
        else set byColor (mixType_string (MixData.mixType mix)) (VObj [])) ;;!
       P) (mkHeap [g] added)
      = Returns tt (mkHeap [g2] added)) as Hbody.
    { intros P HP. revert Hrun1. unfold bind.
      destruct (get (JObject (Local 0, [])) (color_of mix) (mkHeap [g] added))
        as [v h| |]; [|done..].
      destruct ((if is_truthy v then ret tt
                 else set (JObject (Local 0, [])) (color_of mix) (VObj [])) h)
        as [[] h1| |]; [|done..].
      destruct (get (JObject (Local 0, [])) (color_of mix) h1) as [v2 h2| |]; [|done..].
      destruct (get v2 (mixType_string (MixData.mixType mix)) h2) as [v3 h3| |]; [|done..].
      destruct ((if is_truthy v3 then ret tt
                 else set v2 (mixType_string (MixData.mixType mix)) (VObj [])) h3)
        as [[] h4| |]; [|done..].
      intros [= ->]. exact HP. }
    unfold products_of, color_of in *.
    rewrite (Hbody _); [exact Hrun|].
    destruct (Measurements.products (MixData.measurements mix)) as [ps|]; exact Hrun2.
  - intros c m ty. rewrite Hl', Hl2, Hl1. unfold color_quantities.
    by rewrite bind_cons, pour_app.
Qed.

(** ** Records without products *)

Lemma forEach_app {A} (l1 l2 : list A) (body : A → Run unit) h :
  forEach (l1 ++ l2) body h = (forEach l1 body ;;! forEach l2 body) h.
Proof.
  revert h. induction l1 as [|a l1 IH]; intros h; [done|].
  simpl. rewrite <-bind_assoc. unfold bind.
  destruct (body a h) as [[] h'| |]; [|done..]. apply IH.
Qed.

Lemma forEach_skip {A} (l1 l2 : list A) (a : A) (body : A → Run unit) h :
  (∀ h', body a h' = Returns tt h') →
  forEach (l1 ++ a :: l2) body h = forEach (l1 ++ l2) body h.
Proof.
  intros Ha. rewrite !forEach_app. unfold bind.
  destruct (forEach l1 body h) as [[] h'| |]; [|done..].
  simpl. unfold bind. by rewrite Ha.
Qed.

Lemma finish_run {A} (result : Heap → A) (o : Outcome Heap unit) h :
  o = Returns tt h → finish result o = Returns (result h) (prototype h).
Proof. by intros ->. Qed.

(** ** The totals by mix type *)

(** C8 as stated fails where a product type names a property of
    [Object.prototype]: for the type [__proto__] the read gives the
    prototype object, the sum is a string, and the write goes to the
    accessor, which ignores it: no bucket is made and the grand total is 0,
    not 5. And a bucket is not the sum of its quantities once a running sum
    is [NaN]: from 1e999, -1e999 and 1 the bucket holds 1. *)
Lemma C8_counterexample :
  (quantities interlock "__proto__" proto_five = [int 5]
   ∧ calculateTotals (Some proto_five) [] = Returns (mkTotals [] []) []
   ∧ grandTotal (mkTotals [] []) = VNum 0
   ∧ ¬ ∃ t added,
         calculateTotals (Some proto_five) [] = Returns t added
         ∧ own "__proto__" (totals_of interlock t)
           = bucket (quantities interlock "__proto__" proto_five))
  ∧ (calculateTotals (Some cancelling) [] = Returns (mkTotals [("Garden", VNum 1)] []) []
     ∧ total (ToNumber <$> quantities interlock "Garden" cancelling) = nan).
Proof.
  split; [|split; reflexivity].
  split; [reflexivity|]. split; [reflexivity|]. split; [reflexivity|].
  intros (t & added & Hrun & Hown). injection Hrun as <- <-. discriminate.
Qed.

(** C8. For every record list none of whose product types names a
    property of [Object.prototype] (a built-in one, as [__proto__] and
    [constructor], or one the page has added), [calculateTotals] returns
    and leaves [Object.prototype] as it was. Under each mix type the
    bucket of a product type exists exactly when a record of that mix type
    has a product of that type; it holds what [(bucket || 0) + quantity]
    makes of these quantities in their order, which is their sum, added up
    in doubles from 0 in that order, when none of them is negative. No key
    occurs twice, every leaf is a number, and the grand total is the sum
    of the interlock leaves plus the sum of the boards/tiir leaves.
    Without data, and on the empty list, both mappings are empty and the
    grand total is 0; on the two demonstration records the result is
    Block Interlock 100 and Garden 50 under interlock, Tiir 200 and Boards
    150 under boards/tiir, grand total 500. *)
Theorem C8_aggregate_by_mix_type :
  (∀ (added : Obj) (l : list MixData.t),
     Forall (λ mix, Forall (λ p, plain_key added (type p)) (products_of mix)) l →
     ∃ t xs ys,
       calculateTotals (Some l) added = Returns t added
       ∧ (∀ m ty, own ty (totals_of m t) = bucket (quantities m ty l))
       ∧ (∀ m ty, Forall not_negative (quantities m ty l) → quantities m ty l ≠ [] →
            own ty (totals_of m t)
            = Some (VNum (total (ToNumber <$> quantities m ty l))))
       ∧ (∀ m, NoDup (totals_of m t).*1)
       ∧ (interlockTotals t).*2 = VNum <$> xs
       ∧ (boardsTiirTotals t).*2 = VNum <$> ys
       ∧ grandTotal t = VNum (total xs + total ys))
  ∧ (∀ added, calculateTotals None added = Returns (mkTotals [] []) added)
  ∧ (∀ added, calculateTotals (Some []) added = Returns (mkTotals [] []) added)
  ∧ grandTotal (mkTotals [] []) = VNum 0
  ∧ (∀ loaded_at day_before,
       calculateTotals (Some (mockMixData loaded_at day_before)) []
       = Returns (mkTotals [("Block Interlock", VNum 100); ("Garden", VNum 50)]
                    [("Tiir", VNum 200); ("Boards", VNum 150)]) []
       ∧ grandTotal (mkTotals [("Block Interlock", VNum 100); ("Garden", VNum 50)]
                       [("Tiir", VNum 200); ("Boards", VNum 150)])
         = VNum 500).
Proof.
  split; [|by repeat split].
  intros added l Hl.
  destruct (totals_records added l [] [] numeric_nil numeric_nil)
    as (o0 & o1 & Hrun & H0 & H1 & Hown).
  { intros mix p Hmix Hp. eapply Forall_forall in Hl; [|exact Hmix].
    by eapply Forall_forall in Hl. }
  destruct (numeric_numbers o0 H0) as [xs Hxs], (numeric_numbers o1 H1) as [ys Hys].
  exists (mkTotals o0 o1), xs, ys.
  assert (∀ m ty, own ty (totals_of m (mkTotals o0 o1)) = bucket (quantities m ty l)) as Hb.
  { intros m ty. rewrite Hown, <-pour_None. by destruct m. }
  split; [|split; [exact Hb|split; [|split; [|split; [done|split; [done|]]]]]].
  - exact (finish_run _ _ _ Hrun).
  - intros m ty Hpos Hne. rewrite Hb. unfold bucket.
    destruct (quantities m ty l) eqn:E; [done|]. by rewrite bucket_total.
  - intros [|]; [apply H0|apply H1].
  - unfold grandTotal, getTotalQuantity. simpl. rewrite Hxs, Hys, !sum_numbers. done.
Qed.

Lemma C8_witness :
  ∃ t, calculateTotals (Some (mockMixData "a" "b")) [] = Returns t []
       ∧ own "Garden" (totals_of interlock t)
         = bucket (quantities interlock "Garden" (mockMixData "a" "b")).
Proof.
  destruct (proj1 C8_aggregate_by_mix_type [] (mockMixData "a" "b"))
    as (t & xs & ys & Hrun & Hb & _).
  - apply (bool_decide_unpack _). vm_compute. exact I.
  - exists t. split; [exact Hrun|apply Hb].
Defined.

(** Keys that are array indices come first in [Object.values], in
    ascending order, whenever they were created. *)
Example index_keys_first :
  calculateTotals
    (Some [with_types [mkProduct "a" (int 1); mkProduct "10" (int 2);
                       mkProduct "3" (int 3); mkProduct "03" (int 4);
                       mkProduct "7" (int 5); mkProduct "a" (int 6)]]) []
  = Returns (mkTotals [("3", VNum 3); ("7", VNum 5); ("10", VNum 2); ("a", VNum 7);
                       ("03", VNum 4)] []) [].
Proof. reflexivity. Qed.

(** A property the page has added to [Object.prototype] is read where the
    bucket does not exist yet: with [Object.prototype.Garden = 7] the
    Garden bucket of the demonstration records starts from 7. *)
Example inherited_bucket :
  calculateTotals (Some (mockMixData "a" "b")) [("Garden", VNum 7)]
  = Returns (mkTotals [("Block Interlock", VNum 100); ("Garden", VNum 57)]
               [("Tiir", VNum 200); ("Boards", VNum 150)]) [("Garden", VNum 7)].
Proof. reflexivity. Qed.

(** ** The three aggregations return *)

Lemma quantities_skip {A} (f : MixData.t → list A) l1 mix l2 :
  f mix = [] → (l1 ++ mix :: l2) ≫= f = (l1 ++ l2) ≫= f.
Proof. intros H. by rewrite !bind_app, bind_cons, H. Qed.

Lemma aggregations_return added l :
  Forall (plain_record added) l →
  ∃ t g p,
    calculateTotals (Some l) added = Returns t added
    ∧ calculateColorTotals (Some l) added = Returns g added
    ∧ calculateProductTotals (Some l) added = Returns p added
    ∧ (∀ m ty, own ty (totals_of m t) = bucket (quantities m ty l))
    ∧ (∀ c m ty, leaf3 g c m ty = bucket (color_quantities c m ty l))
    ∧ (∀ ty c, leaf2 p ty c = bucket (product_quantities ty c l)).
Proof.
  intros Hl.
  destruct (totals_records added l [] [] numeric_nil numeric_nil)
    as (o0 & o1 & Hrun & H0 & H1 & Hown).
  { intros mix p Hmix Hp. eapply Forall_forall in Hl as (_ & _ & Hps); [|exact Hmix].
    by eapply Forall_forall in Hps. }
  destruct (color_totals_records added l [] (Forall_nil_2 _) Hl) as (g & Hrung & _ & Hg).
  destruct (product_totals_records added l [] (Forall_nil_2 _) Hl) as (p & Hrunp & _ & Hp).
  exists (mkTotals o0 o1), g, p.
  split; [exact (finish_run _ _ _ Hrun)|].
  split; [exact (finish_run _ _ _ Hrung)|].
  split; [exact (finish_run _ _ _ Hrunp)|].
  split; [|split].
  - intros m ty. rewrite Hown, <-pour_None. by destruct m.
  - intros c m ty. by rewrite Hg, <-pour_None.
  - intros ty c. by rewrite Hp, <-pour_None.
Qed.

Lemma bucket_sum qs :
  Forall not_negative qs → qs ≠ [] → bucket qs = Some (VNum (total (ToNumber <$> qs))).
Proof. intros Hpos Hne. destruct qs; [done|]. unfold bucket. by rewrite bucket_total. Qed.

(** C9 as stated fails twice. A record of colour [x] with a product of
    type [__proto__] and one of type [x] makes [calculateProductTotals]
    throw: the first product puts 5 into [Object.prototype.x], the second
    finds this 5 for its group and then writes a property to a number. And
    a record without products can change the grand total of the colour tab:
    it makes its colour's group earlier, so the same buckets are added up
    in another order, 0.3 + 0.2 + 0.1 instead of 0.2 + 0.1 + 0.3. *)
Lemma C9_counterexample :
  calculateProductTotals (Some [proto_then_x]) [] = Throws "TypeError" [("x", VNum 5)]
  ∧ products_of (empty_of "Black") = []
  ∧ ∃ g g',
      calculateColorTotals (Some three_colours) [] = Returns g []
      ∧ calculateColorTotals (Some (empty_of "Black" :: three_colours)) [] = Returns g' []
      ∧ getGrandTotal color_tab g [] = VNum 0.6000000000000001
      ∧ getGrandTotal color_tab g' [] = VNum 0.6
      ∧ getGrandTotal color_tab g [] ≠ getGrandTotal color_tab g' [].
Proof.
  split; [reflexivity|]. split; [reflexivity|].
  eexists _, _. split; [reflexivity|]. split; [reflexivity|].
  split; [reflexivity|]. split; [reflexivity|].
  intros H.
  apply (f_equal (λ v, match v with VNum x => Leibniz.eqb x 0.6 | _ => false end)) in H.
  vm_compute in H. discriminate.
Qed.

(** C9. For every record list none of whose colours, mix types and
    product types names a property of [Object.prototype] (a built-in one,
    or one the page has added), the three aggregations return a result and
    leave [Object.prototype] as it was; without data they return empty
    groupings. A record without products, be the list missing or empty,
    leaves the result of the aggregation by mix type and of the aggregation
    by product type as it is without the record, for every record list and
    page, hence also their grand totals; in the aggregation by colour it
    leaves every bucket as it is. *)
Theorem C9_aggregation_total :
  (∀ added l, Forall (plain_record added) l →
     ∃ t g p,
       calculateTotals (Some l) added = Returns t added
       ∧ calculateColorTotals (Some l) added = Returns g added
       ∧ calculateProductTotals (Some l) added = Returns p added)
  ∧ (∀ added,
       calculateTotals None added = Returns (mkTotals [] []) added
       ∧ calculateColorTotals None added = Returns [] added
       ∧ calculateProductTotals None added = Returns [] added)
  ∧ (∀ l1 mix l2 added,
       products_of mix = [] →
       calculateTotals (Some (l1 ++ mix :: l2)) added
       = calculateTotals (Some (l1 ++ l2)) added
       ∧ calculateProductTotals (Some (l1 ++ mix :: l2)) added
         = calculateProductTotals (Some (l1 ++ l2)) added)
  ∧ (∀ added l1 mix l2,
       Forall (plain_record added) (l1 ++ mix :: l2) → products_of mix = [] →
       ∃ g g',
         calculateColorTotals (Some (l1 ++ mix :: l2)) added = Returns g added
         ∧ calculateColorTotals (Some (l1 ++ l2)) added = Returns g' added
         ∧ ∀ c m ty, leaf3 g c m ty = leaf3 g' c m ty).
Proof.
  split; [|split; [done|split]].
  - intros added l Hl.
    destruct (aggregations_return added l Hl) as (t & g & p & Ht & Hg & Hp & _).
    by exists t, g, p.
  - intros l1 mix l2 added Hmix. unfold products_of in Hmix.
    unfold calculateTotals, calculateProductTotals. cbv beta iota zeta.
    split; f_equal; apply forEach_skip; intros h';
      by destruct (Measurements.products (MixData.measurements mix)) as [[|??]|].
  - intros added l1 mix l2 Hl Hmix.
    assert (Forall (plain_record added) (l1 ++ l2)) as Hl'.
    { apply Forall_app in Hl as [H1 H2]. apply Forall_cons in H2 as [_ H2].
      apply Forall_app. by split. }
    destruct (aggregations_return _ _ Hl) as (_ & g & _ & _ & Hg & _ & _ & Hb & _).
    destruct (aggregations_return _ _ Hl') as (_ & g' & _ & _ & Hg' & _ & _ & Hb' & _).
    exists g, g'. split; [done|]. split; [done|]. intros c m ty.
    rewrite Hb, Hb'. unfold color_quantities. rewrite quantities_skip; [done|].
    rewrite Hmix. by destruct (decide _).
Qed.

Lemma C9_witness :
  ∃ t g p,
    calculateTotals (Some (no_products :: mockMixData "a" "b")) [] = Returns t []
    ∧ calculateColorTotals (Some (no_products :: mockMixData "a" "b")) [] = Returns g []
    ∧ calculateProductTotals (Some (no_products :: mockMixData "a" "b")) [] = Returns p [].
Proof.
  apply (proj1 C9_aggregation_total []).
  apply (bool_decide_unpack _). vm_compute. exact I.
Defined.

(** ** The groupings of the filtered-products modal *)

(** X16. For records none of whose colours, mix types and product types
    names a property of [Object.prototype] (built in, or added by the
    page), [calculateColorTotals] returns, and the bucket of the colour
    grouping for a colour, a mix type and a product type exists
    exactly when a record of that colour (an empty colour counts as
    "No Color") and mix type has a product of that type. It holds what
    [(bucket || 0) + quantity] makes of these quantities in their order:
    their sum, added up in doubles from 0 in that order, when none of them
    is negative. *)
Theorem X16_color_leaves (added : Obj) (l : list MixData.t) :
  Forall (plain_record added) l →
  ∃ g,
    calculateColorTotals (Some l) added = Returns g added
    ∧ (∀ c m ty, leaf3 g c m ty = bucket (color_quantities c m ty l))
    ∧ (∀ c m ty,
         Forall not_negative (color_quantities c m ty l) →
         color_quantities c m ty l ≠ [] →
         leaf3 g c m ty = Some (VNum (total (ToNumber <$> color_quantities c m ty l)))).
Proof.
  intros Hl.
  destruct (aggregations_return added l Hl) as (_ & g & _ & _ & Hg & _ & _ & Hb & _).
  exists g. split; [done|]. split; [done|].
  intros c m ty Hpos Hne. rewrite Hb. by apply bucket_sum.
Qed.

Lemma X16_witness :
  ∃ g,
    calculateColorTotals (Some (mockMixData "a" "b")) [] = Returns g []
    ∧ leaf3 g "Red" "interlock" "Garden" = Some (VNum 50).
Proof.
  destruct (X16_color_leaves [] (mockMixData "a" "b")) as (g & Hg & Hb & _).
  - apply (bool_decide_unpack _). vm_compute. exact I.
  - exists g. split; [exact Hg|]. rewrite Hb. reflexivity.
Defined.

(** X17. Under the same conditions [calculateProductTotals] returns, and
    the bucket of the product-type grouping for a product type and a
    colour exists exactly when a record
    of that colour, whatever its mix type, has a product of that type, and
    holds what [(bucket || 0) + quantity] makes of these quantities in
    their order: their sum when none of them is negative. *)
Theorem X17_product_leaves (added : Obj) (l : list MixData.t) :
  Forall (plain_record added) l →
  ∃ p,
    calculateProductTotals (Some l) added = Returns p added
    ∧ (∀ ty c, leaf2 p ty c = bucket (product_quantities ty c l))
    ∧ (∀ ty c,
         Forall not_negative (product_quantities ty c l) →
         product_quantities ty c l ≠ [] →
         leaf2 p ty c = Some (VNum (total (ToNumber <$> product_quantities ty c l)))).
Proof.
  intros Hl.
  destruct (aggregations_return added l Hl) as (_ & _ & p & _ & _ & Hp & _ & _ & Hb).
  exists p. split; [done|]. split; [done|].
  intros ty c Hpos Hne. rewrite Hb. by apply bucket_sum.
Qed.

Lemma X17_witness :
  ∃ p,
    calculateProductTotals (Some (mockMixData "a" "b")) [] = Returns p []
    ∧ leaf2 p "Tiir" "White" = Some (VNum 200).
Proof.
  destruct (X17_product_leaves [] (mockMixData "a" "b")) as (p & Hp & Hb & _).
  - apply (bool_decide_unpack _). vm_compute. exact I.
  - exists p. split; [exact Hp|]. rewrite Hb. reflexivity.
Defined.

(** ** What the forms store, aggregated *)








